(** * HV battery discharge controller (ngi.py): a shallow embedding

    The development follows [src/ngi.py].  Python [float] and [int] values
    are idealised as exact rationals ([Q]); strings are byte strings
    ([string] / [list ascii]); the mutable application object
    [HVBatteryDischargeApp] becomes an explicit state record threaded
    through a small state-and-exception monad; everything the program
    obtains from outside (socket, clock, dialogs, SQLite, random numbers)
    is read from an environment of oracles.  Widget updates that only
    change what is displayed are left out. *)

From Stdlib Require Import QArith Qabs Lqa ZArith Lia.
From Stdlib Require Import String Ascii List Bool.
From stdpp Require Import gmap strings.
Import ListNotations.

Local Open Scope string_scope.
Local Open Scope list_scope.
Local Open Scope Z_scope.

(* ===================================================================== *)
(** * Python values and exceptions *)
(* ===================================================================== *)

(** JSON / Python values found in a profile step: numbers, strings and
    [None].  (Booleans, arrays and nested objects are not modelled.) *)
Inductive pyval : Type :=
  | PNum (q : Q)
  | PStr (t : string)
  | PNone.

(** A profile step is a Python [dict] with string keys. *)
Abbreviation step := (gmap string pyval).

(** [step.get(k, default)] *)
Definition dict_get (d : step) (k : string) (default : pyval) : pyval :=
  match d !! k with
  | Some v => v
  | None => default
  end.

Inductive exn : Type :=
  | AttributeError
  | TypeError
  | ValueError
  | UnicodeDecodeError
  | IndexError
  | SqliteError
  | RuntimeError.

(* ===================================================================== *)
(** * Comparisons on rationals *)
(* ===================================================================== *)

Definition Qleb (x y : Q) : bool := Qle_bool x y.
Definition Qltb (x y : Q) : bool := negb (Qle_bool y x).

(** Python's [max(a, b)]: the first argument unless the second is larger. *)
Definition pymax (a b : Q) : Q := if Qltb a b then b else a.

(* ===================================================================== *)
(** * String operations used by the program *)
(* ===================================================================== *)

Definition chars (t : string) : list ascii := list_ascii_of_string t.

(** [c.upper()] on a byte: a-z become A-Z. *)
Definition upper_char (c : ascii) : ascii :=
  let n := nat_of_ascii c in
  if ((97 <=? n)%nat && (n <=? 122)%nat)%bool then ascii_of_nat (n - 32) else c.

Definition upper (l : list ascii) : list ascii := map upper_char l.

Definition str_upper (t : string) : string :=
  string_of_list_ascii (upper (chars t)).

(** Whitespace as [str.strip()] sees it on bytes below 128:
    TAB, LF, VT, FF, CR, FS, GS, RS, US and space. *)
Definition is_space (c : ascii) : bool :=
  let n := nat_of_ascii c in
  (((9 <=? n)%nat && (n <=? 13)%nat) || ((28 <=? n)%nat && (n <=? 32)%nat))%bool.

Fixpoint lstrip (l : list ascii) : list ascii :=
  match l with
  | c :: r => if is_space c then lstrip r else l
  | [] => []
  end.

Definition strip (l : list ascii) : list ascii :=
  rev (lstrip (rev (lstrip l))).

Definition str_strip (t : string) : string :=
  string_of_list_ascii (strip (chars t)).

Definition ascii_eqb (a b : ascii) : bool := Ascii.eqb a b.

(** [is_prefix p l]: [l.startswith(p)]. *)
Fixpoint is_prefix (p l : list ascii) : bool :=
  match p, l with
  | [], _ => true
  | a :: p', b :: l' => ascii_eqb a b && is_prefix p' l'
  | _ :: _, [] => false
  end.

(** [l.replace(old, "")]: occurrences of [old] are deleted from left to
    right without overlap; an empty [old] deletes nothing.  The counter
    [skip] is the number of characters of the current occurrence that are
    still to be dropped. *)
Fixpoint delete_from (old l : list ascii) (skip : nat) : list ascii :=
  match l with
  | [] => []
  | c :: r =>
      match skip with
      | S k => delete_from old r k
      | O =>
          match old with
          | [] => c :: delete_from old r O
          | _ :: old' =>
              if is_prefix old l then delete_from old r (length old')
              else c :: delete_from old r O
          end
      end
  end.

Definition delete_all (old l : list ascii) : list ascii := delete_from old l O.

(** [l.count(c)] for a one-character [c]. *)
Definition count_char (c : ascii) (l : list ascii) : nat :=
  length (List.filter (ascii_eqb c) l).

(** [c in '0123456789.-+eE'] *)
Definition allowed_char (c : ascii) : bool :=
  existsb (ascii_eqb c) (chars "0123456789.-+eE").

(* ===================================================================== *)
(** * Python's [float(str)] on the characters the program lets through *)
(* ===================================================================== *)

Definition is_digit (c : ascii) : bool :=
  let n := nat_of_ascii c in ((48 <=? n)%nat && (n <=? 57)%nat)%bool.

Definition digit_val (c : ascii) : Z := Z.of_nat (nat_of_ascii c) - 48.

Fixpoint span_digits (l : list ascii) : list ascii * list ascii :=
  match l with
  | c :: r =>
      if is_digit c then let (d, r') := span_digits r in (c :: d, r')
      else ([], l)
  | [] => ([], [])
  end.

Definition digits_value (ds : list ascii) : Z :=
  fold_left (fun acc c => 10 * acc + digit_val c) ds 0.

Definition take_sign (l : list ascii) : Z * list ascii :=
  match l with
  | c :: r =>
      if ascii_eqb c "+" then (1, r)
      else if ascii_eqb c "-" then (-1, r)
      else (1, l)
  | [] => (1, l)
  end.

Definition pow10 (e : Z) : Q :=
  if 0 <=? e then inject_Z (10 ^ e) else / inject_Z (10 ^ (- e)).

Definition is_exp_marker (c : ascii) : bool :=
  (ascii_eqb c "e" || ascii_eqb c "E")%bool.

(** The value of a decimal numeral: sign, integer digits, fraction digits
    and decimal exponent. *)
Definition decimal_value (sg : Z) (ip fp : list ascii) (e : Z) : Q :=
  inject_Z (sg * digits_value (ip ++ fp)) * pow10 (e - Z.of_nat (length fp)).

(** [float(s)] for a string [s] without surrounding whitespace, made of
    the characters [0-9 . + - e E] (the only strings [_parse_measurement]
    passes on): [[sign] (digits [. [digits]] | . digits) [(e|E) [sign]
    digits]]; anything else raises [ValueError].  The result is the exact
    decimal value; rounding to a binary64 and overflow to infinity are not
    modelled. *)
Definition py_float (l : list ascii) : Q + exn :=
  let (sg, r0) := take_sign l in
  let (ip, r1) := span_digits r0 in
  let (fp, r2) :=
    match r1 with
    | c :: r => if ascii_eqb c "." then span_digits r else ([], r1)
    | [] => ([], r1)
    end in
  match ip ++ fp with
  | [] => inr ValueError
  | _ :: _ =>
      match r2 with
      | [] => inl (decimal_value sg ip fp 0)
      | m :: r3 =>
          if is_exp_marker m then
            let (esg, r4) := take_sign r3 in
            let (ed, r5) := span_digits r4 in
            match ed, r5 with
            | _ :: _, [] => inl (decimal_value sg ip fp (esg * digits_value ed))
            | _, _ => inr ValueError
            end
          else inr ValueError
      end
  end.

(* ===================================================================== *)
(** * [_parse_measurement] (ngi.py 1493-1505) *)
(* ===================================================================== *)

(** [response.upper().replace(unit.upper(), "").strip()] *)
Definition value_str (response unit : string) : list ascii :=
  strip (delete_all (upper (chars unit)) (upper (chars response))).

(** The guard of line 1499: true when the string is rejected before
    [float] is tried. *)
Definition rejected (v : list ascii) : bool :=
  match v with
  | [] => true
  | _ =>
      (negb (forallb allowed_char v)
       || (1 <? count_char "." v)%nat
       || (1 <? count_char "-" v)%nat
       || (1 <? count_char "+" v)%nat)%bool
  end.

Definition _parse_measurement (response : option string) (unit : string)
  : option Q :=
  match response with
  | None => None
  | Some r =>
      let v := value_str r unit in
      if rejected v then None
      else match py_float v with
           | inl x => Some x
           | inr _ => None        (* except (ValueError, TypeError) *)
           end
  end.

(* ===================================================================== *)
(** * The numeric grammar of the specification *)
(* ===================================================================== *)

(** Follows the words of the specification, not the code: optional sign,
    digits, at most one decimal point, optional exponent marker. *)
Definition all_digits (l : list ascii) : Prop :=
  Forall (fun c => is_digit c = true) l.

Inductive sign_opt : list ascii -> Prop :=
  | sign_none : sign_opt []
  | sign_plus : sign_opt ["+"%char]
  | sign_minus : sign_opt ["-"%char].

Inductive mantissa : list ascii -> Prop :=
  | mant_int ip :
      ip <> [] -> all_digits ip -> mantissa ip
  | mant_point ip fp :
      ip ++ fp <> [] -> all_digits ip -> all_digits fp ->
      mantissa (ip ++ "."%char :: fp).

Inductive exponent_opt : list ascii -> Prop :=
  | exp_none : exponent_opt []
  | exp_some m sg ds :
      is_exp_marker m = true -> sign_opt sg -> ds <> [] -> all_digits ds ->
      exponent_opt (m :: sg ++ ds).

(** A continuation that does not start with a digit ends the run. *)
Definition no_digit_head (r : list ascii) : Prop :=
  match r with
  | [] => True
  | c :: _ => is_digit c = false
  end.

Inductive numeric_grammar : list ascii -> Prop :=
  | numeric sg m ex :
      sign_opt sg -> mantissa m -> exponent_opt ex ->
      numeric_grammar (sg ++ m ++ ex).

(** The number a string of the grammar stands for, read off its parts:
    the sign, the digits before and after the point, and the exponent. *)
Inductive sign_of : list ascii -> Z -> Prop :=
  | sign_of_none : sign_of [] 1
  | sign_of_plus : sign_of ["+"%char] 1
  | sign_of_minus : sign_of ["-"%char] (-1).

Inductive mantissa_of : list ascii -> list ascii -> list ascii -> Prop :=
  | mantissa_of_int ip :
      ip <> [] -> all_digits ip -> mantissa_of ip ip []
  | mantissa_of_point ip fp :
      ip ++ fp <> [] -> all_digits ip -> all_digits fp ->
      mantissa_of (ip ++ "."%char :: fp) ip fp.

Inductive exponent_of : list ascii -> Z -> Prop :=
  | exponent_of_none : exponent_of [] 0
  | exponent_of_some m sg s ds :
      is_exp_marker m = true -> sign_of sg s -> ds <> [] -> all_digits ds ->
      exponent_of (m :: sg ++ ds) (s * digits_value ds).

Inductive numeral_value : list ascii -> Q -> Prop :=
  | numeral sg s m ip fp ex e :
      sign_of sg s -> mantissa_of m ip fp -> exponent_of ex e ->
      numeral_value (sg ++ m ++ ex) (decimal_value s ip fp e).

(* ===================================================================== *)
(** * [_migrate_profile_step] (ngi.py 828-849) *)
(* ===================================================================== *)

(** The dictionary is updated in place and returned; the function below
    gives the dictionary after the call.  [.upper()] on a ['type'] that
    is not a string raises [AttributeError].  The two [logging.warning]
    calls are left out. *)
Definition _migrate_profile_step (step : gmap string pyval)
  : gmap string pyval + exn :=
  match step !! "stop_condition_type" with
  | Some _ => inl step
  | None =>
      match dict_get step "type" (PStr "CC") with
      | PStr t =>
          let step_type := str_upper t in
          match step !! "stop_voltage" with
          | Some stop_value =>
              let step := delete "stop_voltage" step in
              if String.eqb step_type "CV" then
                inl (<["stop_condition_value" := PNum 0.1]>
                       (<["stop_condition_type" := PStr "current"]> step))
              else
                inl (<["stop_condition_value" := stop_value]>
                       (<["stop_condition_type" := PStr "voltage"]> step))
          | None =>
              if String.eqb step_type "CV" then
                inl (<["stop_condition_value" := PNum 0.1]>
                       (<["stop_condition_type" := PStr "current"]> step))
              else
                inl (<["stop_condition_value" := PNum 0]>
                       (<["stop_condition_type" := PStr "voltage"]> step))
          end
      | _ => inr AttributeError
      end
  end.

(* ===================================================================== *)
(** * The outside world *)
(* ===================================================================== *)

Inductive io_outcome : Type :=
  | IoOk
  | IoSocketError          (* socket.error, socket.timeout, BrokenPipeError *)
  | IoAttributeError.

Inductive recv_outcome : Type :=
  | Received (response : string)
  | RecvSocketError
  | RecvAttributeError
  | RecvDecodeError.       (* bytes.decode() fails *)

(** Every interaction with the outside reads the oracle at the current
    interaction count and advances the count. *)
Record Env : Type := {
  time_time : nat -> Q;
  datetime_now : nat -> Q;
  random_uniform : nat -> Q -> Q -> Q;
  socket_connect : nat -> bool;
  socket_sendall : nat -> io_outcome;
  socket_recv : nat -> recv_outcome;
  askyesno : nat -> bool;
  askstring : nat -> option string;
  sqlite3_connect : nat -> bool;
  sqlite3_execute : nat -> bool;
  pdf_savefig : nat -> bool
}.

Inductive command : Type :=
  | INPut_STATe (n : Z)
  | INPut_FUNCtion (mode : string)
  | STATic_HIGH_LEVel (mode : string) (value : pyval).

Inductive query : Type :=
  | IDN_q
  | MEASure_VOLTage_q
  | MEASure_CURRent_q
  | MEASure_POWer_q
  | INPut_STATe_q
  | INPut_FUNCtion_q.

Inductive level : Type := WARNING | ERROR.
Inductive dialog_kind : Type := showinfo | showwarning | showerror.

(** What became of one call of [scpi_command]. *)
Inductive cmd_outcome : Type :=
  | Bypassed               (* test mode *)
  | NotConnected
  | Sent
  | SendFailed.

Inductive event : Type :=
  | EvLog (l : level) (msg : string)
  | EvSound (kind : string)
  | EvDialog (k : dialog_kind) (title : string)
  | EvCommand (c : command) (o : cmd_outcome)
  | EvCertificate (id : Z).

Inductive callback : Type := CbRunUpdateLoop | CbReconnectTick.

Record timer : Type := { t_id : nat; t_delay_ms : Z; t_callback : callback }.

(** ** The SQLite tables *)

Record discharge_row : Type := {
  d_id : Z;
  d_registration_number : string;
  d_profile_name : string;
  d_start_time : Q;
  d_end_time : option Q;
  d_total_energy_discharged : option Q;
  d_discharge_comment : option string;
  d_mode : string
}.

Record data_point : Type := {
  p_discharge_id : Z;
  p_timestamp : Q;
  p_elapsed_time : Q;
  p_voltage : Q;
  p_current : Q;
  p_power : Q
}.

Record Db : Type := {
  discharges : list discharge_row;
  data_points : list data_point;
  next_rowid : Z
}.

(* ===================================================================== *)
(** * The application state *)
(* ===================================================================== *)

Record Config : Type := {
  auto_reconnect : bool;
  auto_reconnect_interval_s : Q;
  test_mode_initial_voltage : Q;
  test_mode_cv_current_start : Q;
  test_mode_cv_current_decay : Q
}.

(** Connection attributes; [sock] tells whether [self.s] holds a socket. *)
Record Conn : Type := {
  c_test_mode : bool;
  c_connected : bool;
  c_sock : bool;
  c_resume_available : bool;
  c_reconnect_job : option nat
}.

Record Run : Type := {
  r_running : bool;
  r_paused : bool;
  r_current_profile_data : list (gmap string pyval);
  r_current_step : nat;
  r_current_discharge_id : Z;
  r_discharge_comment : string
}.

Record Data : Type := {
  a_energy_discharged : Q;
  a_start_time : option Q;
  a_last_time : option Q;
  a_data_x : list Q;
  a_data_voltage : list Q;
  a_data_current : list Q;
  a_data_power : list Q
}.

Record Sim : Type := {
  m_sim_voltage : Q;
  m_sim_current : Q;
  m_sim_power : Q;
  m_sim_resistance_factor : Q;
  m_sim_cv_current : Q
}.

(** The events are kept newest first. *)
Record World : Type := {
  w_db : Db;
  w_trace : list event;
  w_timers : list timer;
  w_next_timer : nat;
  w_io_count : nat
}.

Record App : Type := {
  config : Config;
  conn : Conn;
  run : Run;
  data : Data;
  sim : Sim;
  world : World
}.

Definition test_mode (st : App) := c_test_mode (conn st).
Definition connected (st : App) := c_connected (conn st).
Definition sock (st : App) := c_sock (conn st).
Definition resume_available (st : App) := c_resume_available (conn st).
Definition _reconnect_job (st : App) := c_reconnect_job (conn st).
Definition running (st : App) := r_running (run st).
Definition paused (st : App) := r_paused (run st).
Definition current_profile_data (st : App) := r_current_profile_data (run st).
Definition current_step (st : App) := r_current_step (run st).
Definition current_discharge_id (st : App) := r_current_discharge_id (run st).
Definition discharge_comment (st : App) := r_discharge_comment (run st).
Definition energy_discharged (st : App) := a_energy_discharged (data st).
Definition start_time (st : App) := a_start_time (data st).
Definition last_time (st : App) := a_last_time (data st).
Definition data_x (st : App) := a_data_x (data st).
Definition data_voltage (st : App) := a_data_voltage (data st).
Definition data_current (st : App) := a_data_current (data st).
Definition data_power (st : App) := a_data_power (data st).
Definition sim_voltage (st : App) := m_sim_voltage (sim st).
Definition sim_current (st : App) := m_sim_current (sim st).
Definition sim_power (st : App) := m_sim_power (sim st).
Definition sim_resistance_factor (st : App) := m_sim_resistance_factor (sim st).
Definition sim_cv_current (st : App) := m_sim_cv_current (sim st).
Definition db (st : App) := w_db (world st).
Definition trace (st : App) := w_trace (world st).
Definition timers (st : App) := w_timers (world st).
Definition io_count (st : App) : nat := w_io_count (world st).

Definition with_conn (f : Conn -> Conn) (st : App) : App :=
  {| config := config st; conn := f (conn st); run := run st;
     data := data st; sim := sim st; world := world st |}.
Definition with_run (f : Run -> Run) (st : App) : App :=
  {| config := config st; conn := conn st; run := f (run st);
     data := data st; sim := sim st; world := world st |}.
Definition with_data (f : Data -> Data) (st : App) : App :=
  {| config := config st; conn := conn st; run := run st;
     data := f (data st); sim := sim st; world := world st |}.
Definition with_sim (f : Sim -> Sim) (st : App) : App :=
  {| config := config st; conn := conn st; run := run st;
     data := data st; sim := f (sim st); world := world st |}.
Definition with_world (f : World -> World) (st : App) : App :=
  {| config := config st; conn := conn st; run := run st;
     data := data st; sim := sim st; world := f (world st) |}.

Definition upd_connected (b : bool) : App -> App :=
  with_conn (fun c =>
    {| c_test_mode := c_test_mode c; c_connected := b; c_sock := c_sock c;
       c_resume_available := c_resume_available c;
       c_reconnect_job := c_reconnect_job c |}).
Definition upd_sock (b : bool) : App -> App :=
  with_conn (fun c =>
    {| c_test_mode := c_test_mode c; c_connected := c_connected c; c_sock := b;
       c_resume_available := c_resume_available c;
       c_reconnect_job := c_reconnect_job c |}).
Definition upd_resume_available (b : bool) : App -> App :=
  with_conn (fun c =>
    {| c_test_mode := c_test_mode c; c_connected := c_connected c;
       c_sock := c_sock c; c_resume_available := b;
       c_reconnect_job := c_reconnect_job c |}).
Definition upd_reconnect_job (j : option nat) : App -> App :=
  with_conn (fun c =>
    {| c_test_mode := c_test_mode c; c_connected := c_connected c;
       c_sock := c_sock c; c_resume_available := c_resume_available c;
       c_reconnect_job := j |}).

Definition upd_running (b : bool) : App -> App :=
  with_run (fun r =>
    {| r_running := b; r_paused := r_paused r;
       r_current_profile_data := r_current_profile_data r;
       r_current_step := r_current_step r;
       r_current_discharge_id := r_current_discharge_id r;
       r_discharge_comment := r_discharge_comment r |}).
Definition upd_paused (b : bool) : App -> App :=
  with_run (fun r =>
    {| r_running := r_running r; r_paused := b;
       r_current_profile_data := r_current_profile_data r;
       r_current_step := r_current_step r;
       r_current_discharge_id := r_current_discharge_id r;
       r_discharge_comment := r_discharge_comment r |}).
Definition upd_current_step (n : nat) : App -> App :=
  with_run (fun r =>
    {| r_running := r_running r; r_paused := r_paused r;
       r_current_profile_data := r_current_profile_data r;
       r_current_step := n;
       r_current_discharge_id := r_current_discharge_id r;
       r_discharge_comment := r_discharge_comment r |}).
Definition upd_current_discharge_id (i : Z) : App -> App :=
  with_run (fun r =>
    {| r_running := r_running r; r_paused := r_paused r;
       r_current_profile_data := r_current_profile_data r;
       r_current_step := r_current_step r;
       r_current_discharge_id := i;
       r_discharge_comment := r_discharge_comment r |}).
Definition upd_discharge_comment (t : string) : App -> App :=
  with_run (fun r =>
    {| r_running := r_running r; r_paused := r_paused r;
       r_current_profile_data := r_current_profile_data r;
       r_current_step := r_current_step r;
       r_current_discharge_id := r_current_discharge_id r;
       r_discharge_comment := t |}).

Definition upd_energy_discharged (e : Q) : App -> App :=
  with_data (fun a =>
    {| a_energy_discharged := e; a_start_time := a_start_time a;
       a_last_time := a_last_time a; a_data_x := a_data_x a;
       a_data_voltage := a_data_voltage a; a_data_current := a_data_current a;
       a_data_power := a_data_power a |}).
Definition upd_start_time (t : option Q) : App -> App :=
  with_data (fun a =>
    {| a_energy_discharged := a_energy_discharged a; a_start_time := t;
       a_last_time := a_last_time a; a_data_x := a_data_x a;
       a_data_voltage := a_data_voltage a; a_data_current := a_data_current a;
       a_data_power := a_data_power a |}).
Definition upd_last_time (t : option Q) : App -> App :=
  with_data (fun a =>
    {| a_energy_discharged := a_energy_discharged a;
       a_start_time := a_start_time a; a_last_time := t;
       a_data_x := a_data_x a; a_data_voltage := a_data_voltage a;
       a_data_current := a_data_current a; a_data_power := a_data_power a |}).
(** The four [append] calls of lines 1417-1418. *)
Definition append_sample (x v c p : Q) : App -> App :=
  with_data (fun a =>
    {| a_energy_discharged := a_energy_discharged a;
       a_start_time := a_start_time a; a_last_time := a_last_time a;
       a_data_x := a_data_x a ++ [x];
       a_data_voltage := a_data_voltage a ++ [v];
       a_data_current := a_data_current a ++ [c];
       a_data_power := a_data_power a ++ [p] |}).

Definition upd_sim_voltage (x : Q) : App -> App :=
  with_sim (fun m =>
    {| m_sim_voltage := x; m_sim_current := m_sim_current m;
       m_sim_power := m_sim_power m;
       m_sim_resistance_factor := m_sim_resistance_factor m;
       m_sim_cv_current := m_sim_cv_current m |}).
Definition upd_sim_current (x : Q) : App -> App :=
  with_sim (fun m =>
    {| m_sim_voltage := m_sim_voltage m; m_sim_current := x;
       m_sim_power := m_sim_power m;
       m_sim_resistance_factor := m_sim_resistance_factor m;
       m_sim_cv_current := m_sim_cv_current m |}).
Definition upd_sim_power (x : Q) : App -> App :=
  with_sim (fun m =>
    {| m_sim_voltage := m_sim_voltage m; m_sim_current := m_sim_current m;
       m_sim_power := x;
       m_sim_resistance_factor := m_sim_resistance_factor m;
       m_sim_cv_current := m_sim_cv_current m |}).
Definition upd_sim_cv_current (x : Q) : App -> App :=
  with_sim (fun m =>
    {| m_sim_voltage := m_sim_voltage m; m_sim_current := m_sim_current m;
       m_sim_power := m_sim_power m;
       m_sim_resistance_factor := m_sim_resistance_factor m;
       m_sim_cv_current := x |}).

Definition upd_db (d : Db) : App -> App :=
  with_world (fun w =>
    {| w_db := d; w_trace := w_trace w; w_timers := w_timers w;
       w_next_timer := w_next_timer w; w_io_count := w_io_count w |}).
Definition push_event (e : event) : App -> App :=
  with_world (fun w =>
    {| w_db := w_db w; w_trace := e :: w_trace w; w_timers := w_timers w;
       w_next_timer := w_next_timer w; w_io_count := w_io_count w |}).
Definition upd_timers (l : list timer) (n : nat) : App -> App :=
  with_world (fun w =>
    {| w_db := w_db w; w_trace := w_trace w; w_timers := l;
       w_next_timer := n; w_io_count := w_io_count w |}).
Definition next_io : App -> App :=
  with_world (fun w =>
    {| w_db := w_db w; w_trace := w_trace w; w_timers := w_timers w;
       w_next_timer := w_next_timer w; w_io_count := S (w_io_count w) |}).

(* ===================================================================== *)
(** * The monad: state, environment and Python exceptions *)
(* ===================================================================== *)

Inductive res (A : Type) : Type :=
  | Ok (a : A)
  | Raise (e : exn).
Arguments Ok {A} a.
Arguments Raise {A} e.

Definition M (A : Type) : Type := Env -> App -> res A * App.

Definition ret {A} (a : A) : M A := fun _ st => (Ok a, st).

Definition bind {A B} (m : M A) (k : A -> M B) : M B :=
  fun env st =>
    match m env st with
    | (Ok a, st') => k a env st'
    | (Raise e, st') => (Raise e, st')
    end.

Definition raise {A} (e : exn) : M A := fun _ st => (Raise e, st).

(** [try: m  except Exception: h] *)
Definition try_except {A} (m : M A) (h : exn -> M A) : M A :=
  fun env st =>
    match m env st with
    | (Ok a, st') => (Ok a, st')
    | (Raise e, st') => h e env st'
    end.

Definition get : M App := fun _ st => (Ok st, st).
Definition modify (f : App -> App) : M unit := fun _ st => (Ok tt, f st).
Definition consult {A} (oracle : Env -> nat -> A) : M A :=
  fun env st => (Ok (oracle env (w_io_count (world st))), next_io st).

Declare Scope monad_scope.
Delimit Scope monad_scope with monad.
Notation "x <- m ;; k" := (bind m (fun x => k))
  (at level 100, m at next level, right associativity) : monad_scope.
Notation "m ;; k" := (bind m (fun _ => k))
  (at level 100, right associativity) : monad_scope.
Local Open Scope monad_scope.

Definition when (b : bool) (m : M unit) : M unit := if b then m else ret tt.

Definition log (l : level) (msg : string) : M unit := modify (push_event (EvLog l msg)).
Definition play_sound (kind : string) : M unit := modify (push_event (EvSound kind)).
Definition messagebox (k : dialog_kind) (title : string) : M unit :=
  modify (push_event (EvDialog k title)).

(** [self.master.after(ms, cb)] and [after_cancel]. *)
Definition after (ms : Z) (cb : callback) : M nat :=
  st <- get ;;
  let id := w_next_timer (world st) in
  modify (upd_timers (timers st ++ [{| t_id := id; t_delay_ms := ms; t_callback := cb |}]) (S id)) ;;
  ret id.

Definition after_cancel (id : nat) : M unit :=
  st <- get ;;
  modify (upd_timers (List.filter (fun t => negb (Nat.eqb (t_id t) id)) (timers st))
                     (w_next_timer (world st))).

(** [int(x)]: truncation towards zero. *)
Definition py_int (x : Q) : Z := Z.quot (Qnum x) (Zpos (Qden x)).

(* ===================================================================== *)
(** * [DatabaseManager] (ngi.py 125-255) *)
(* ===================================================================== *)

(** [_get_connection]: a failure of [sqlite3.connect] is logged and
    raised again. *)
Definition _get_connection : M unit :=
  ok <- consult sqlite3_connect ;;
  if ok then ret tt
  else (log ERROR "Database connection error" ;; raise SqliteError).

Definition insert_discharge (reg_num profile mode : string) (now : Q) (d : Db) : Db :=
  {| discharges :=
       discharges d ++
       [{| d_id := next_rowid d; d_registration_number := reg_num;
           d_profile_name := profile; d_start_time := now;
           d_end_time := None; d_total_energy_discharged := None;
           d_discharge_comment := None; d_mode := mode |}];
     data_points := data_points d;
     next_rowid := next_rowid d + 1 |}.

Definition insert_data_point (id : Z) (now elapsed v c p : Q) (d : Db) : Db :=
  {| discharges := discharges d;
     data_points :=
       data_points d ++
       [{| p_discharge_id := id; p_timestamp := now; p_elapsed_time := elapsed;
           p_voltage := v; p_current := c; p_power := p |}];
     next_rowid := next_rowid d |}.

(** [UPDATE discharges SET end_time, total_energy_discharged,
    discharge_comment WHERE id = ?] *)
Definition update_discharge (id : Z) (now energy : Q) (comment : string) (d : Db) : Db :=
  {| discharges :=
       map (fun r =>
              if d_id r =? id then
                {| d_id := d_id r;
                   d_registration_number := d_registration_number r;
                   d_profile_name := d_profile_name r;
                   d_start_time := d_start_time r;
                   d_end_time := Some now;
                   d_total_energy_discharged := Some energy;
                   d_discharge_comment := Some comment;
                   d_mode := d_mode r |}
              else r)
           (discharges d);
     data_points := data_points d;
     next_rowid := next_rowid d |}.

Definition start_new_discharge (reg_num profile mode : string) : M Z :=
  _get_connection ;;
  now <- consult datetime_now ;;
  ok <- consult sqlite3_execute ;;
  if ok then
    st <- get ;;
    modify (upd_db (insert_discharge reg_num profile mode now (db st))) ;;
    ret (next_rowid (db st))
  else
    (log ERROR "Failed to start new discharge in DB" ;;
     play_sound "error" ;;
     ret (-1)).

Definition log_data_point (discharge_id : Z) (elapsed v c p : Q) : M unit :=
  if discharge_id <? 0 then ret tt
  else
    (_get_connection ;;
     now <- consult datetime_now ;;
     ok <- consult sqlite3_execute ;;
     if ok then
       st <- get ;;
       modify (upd_db (insert_data_point discharge_id now elapsed v c p (db st)))
     else log WARNING "Failed to log data point to DB").

Definition finish_discharge (discharge_id : Z) (energy : Q) (comment : string) : M unit :=
  if discharge_id <? 0 then ret tt
  else
    (_get_connection ;;
     now <- consult datetime_now ;;
     ok <- consult sqlite3_execute ;;
     if ok then
       st <- get ;;
       modify (upd_db (update_discharge discharge_id now energy comment (db st)))
     else
       (log ERROR "Failed to finish discharge in DB" ;;
        play_sound "error")).

(** [get_discharge_data]: the summary row and the elapsed-time column of
    the session, or [(None, None)]. *)
Definition get_discharge_data (discharge_id : Z)
  : M (option (list Q) * option discharge_row) :=
  if discharge_id <? 0 then ret (None, None)
  else
    (_get_connection ;;
     ok <- consult sqlite3_execute ;;
     if ok then
       st <- get ;;
       ret (Some (map p_elapsed_time
                    (List.filter (fun p => p_discharge_id p =? discharge_id)
                            (data_points (db st)))),
            List.find (fun r => d_id r =? discharge_id) (discharges (db st)))
     else
       (log ERROR "Failed to retrieve discharge data from DB" ;;
        play_sound "error" ;;
        ret (None, None))).

(* ===================================================================== *)
(** * Reconnect scheduling and connection loss (ngi.py 1561-1584, 811-827) *)
(* ===================================================================== *)

(** The closure [tick] is scheduled, not run: it is [reconnect_tick]
    below, named here by [CbReconnectTick]. *)
Definition _schedule_reconnect : M unit :=
  st <- get ;;
  if (test_mode st || negb (auto_reconnect (config st)))%bool then ret tt
  else
    match _reconnect_job st with
    | Some _ => ret tt
    | None =>
        let interval_ms := py_int (auto_reconnect_interval_s (config st) * 1000) in
        id <- after interval_ms CbReconnectTick ;;
        modify (upd_reconnect_job (Some id))
    end.

Definition _cancel_reconnect : M unit :=
  st <- get ;;
  match _reconnect_job st with
  | Some id => after_cancel id ;; modify (upd_reconnect_job None)
  | None => ret tt
  end.

Definition handle_connection_loss : M unit :=
  st <- get ;;
  if test_mode st then ret tt
  else
    (log WARNING "Handling connection loss." ;;
     play_sound "error" ;;
     modify (upd_connected false) ;;
     modify (upd_sock false) ;;
     st <- get ;;
     when (running st)
       (modify (upd_running false) ;;
        modify (upd_paused false) ;;
        messagebox showerror "Connection Lost" ;;
        st <- get ;;
        when (negb (current_discharge_id st =? -1))
          (finish_discharge (current_discharge_id st) (energy_discharged st)
                            "Connection Lost - Incomplete" ;;
           modify (upd_current_discharge_id (-1)))) ;;
     _schedule_reconnect).

(* ===================================================================== *)
(** * SCPI transport (ngi.py 744-808) *)
(* ===================================================================== *)

Definition scpi_command (c : command) : M bool :=
  st <- get ;;
  if test_mode st then
    (modify (push_event (EvCommand c Bypassed)) ;; ret true)
  else if (negb (connected st) || negb (sock st))%bool then
    (modify (push_event (EvCommand c NotConnected)) ;;
     log WARNING "Not connected. Cannot send command" ;;
     ret false)
  else
    o <- consult socket_sendall ;;
    match o with
    | IoOk => modify (push_event (EvCommand c Sent)) ;; ret true
    | IoSocketError =>
        modify (push_event (EvCommand c SendFailed)) ;;
        log ERROR "Socket error sending command" ;;
        messagebox showerror "Communication Error" ;;
        play_sound "error" ;;
        handle_connection_loss ;;
        ret false
    | IoAttributeError =>
        modify (push_event (EvCommand c SendFailed)) ;;
        log ERROR "Socket object not available for sending command." ;;
        handle_connection_loss ;;
        ret false
    end.

Definition is_measure (q : query) : bool :=
  match q with
  | MEASure_VOLTage_q | MEASure_CURRent_q | MEASure_POWer_q => true
  | _ => false
  end.

(** [l.lower()] and [p in l] for the error check on responses. *)
Definition lower_char (c : ascii) : ascii :=
  let n := nat_of_ascii c in
  if ((65 <=? n)%nat && (n <=? 90)%nat)%bool then ascii_of_nat (n + 32) else c.

Fixpoint contains (p l : list ascii) : bool :=
  match l with
  | [] => is_prefix p []
  | _ :: r => (is_prefix p l || contains p r)%bool
  end.

(** Python's [f"{x:.3f}"] on the exact value: three decimals, ties to
    even. *)
Definition round_half_even (x : Q) : Z :=
  let n := Qnum x in
  let d := Zpos (Qden x) in
  let fl := n / d in
  let r2 := 2 * (n - fl * d) in
  if r2 <? d then fl
  else if d <? r2 then fl + 1
  else if Z.even fl then fl else fl + 1.

Fixpoint digits_of (fuel : nat) (n : Z) (acc : list ascii) : list ascii :=
  match fuel with
  | O => acc
  | S k =>
      let acc' := ascii_of_nat (48 + Z.to_nat (n mod 10)) :: acc in
      if n / 10 =? 0 then acc' else digits_of k (n / 10) acc'
  end.

Definition format_3f (x : Q) : string :=
  let m := Z.abs (round_half_even (x * 1000)) in
  let ip := m / 1000 in
  let fp := m mod 1000 in
  string_of_list_ascii
    ((if Qltb x 0 then ["-"%char] else []) ++
     digits_of (S (Z.to_nat (Z.log2 ip))) ip [] ++ ["."%char] ++
     [ascii_of_nat (48 + Z.to_nat (fp / 100));
      ascii_of_nat (48 + Z.to_nat ((fp / 10) mod 10));
      ascii_of_nat (48 + Z.to_nat (fp mod 10))]).

Definition scpi_query (q : query) : M (option string) :=
  st <- get ;;
  if (test_mode st && is_measure q)%bool then
    (log WARNING "TEST MODE: SCPI Query called directly" ;;
     ret (Some (match q with
                | MEASure_VOLTage_q => format_3f (sim_voltage st) ++ " V"
                | MEASure_CURRent_q => format_3f (sim_current st) ++ " A"
                | _ => format_3f (sim_power st) ++ " W"
                end)%string))
  else if test_mode st then
    ret (Some (match q with
               | IDN_q => "Simulated Instrument, Model Test, S/N 12345"
               | _ => "TEST_MODE_OK"
               end))
  else if (negb (connected st) || negb (sock st))%bool then
    (log WARNING "Not connected. Cannot send query" ;; ret None)
  else
    o <- consult socket_sendall ;;
    match o with
    | IoOk =>
        r <- consult socket_recv ;;
        match r with
        | Received raw =>
            let response := str_strip raw in
            let low := map lower_char (chars response) in
            when (contains (chars "error") low || contains (chars "invalid") low)%bool
                 (log WARNING "Instrument query returned error state") ;;
            ret (Some response)
        | RecvSocketError =>
            log ERROR "Socket error during query" ;;
            messagebox showerror "Communication Error" ;;
            play_sound "error" ;;
            handle_connection_loss ;;
            ret None
        | RecvAttributeError =>
            log ERROR "Socket object not available for querying." ;;
            handle_connection_loss ;;
            ret None
        | RecvDecodeError => raise UnicodeDecodeError
        end
    | IoSocketError =>
        log ERROR "Socket error during query" ;;
        messagebox showerror "Communication Error" ;;
        play_sound "error" ;;
        handle_connection_loss ;;
        ret None
    | IoAttributeError =>
        log ERROR "Socket object not available for querying." ;;
        handle_connection_loss ;;
        ret None
    end.

(* ===================================================================== *)
(** * Connecting and the reconnect callback (ngi.py 672-719, 1566-1574) *)
(* ===================================================================== *)

(** The status poll started after a successful connect only feeds the
    status badges and is left out. *)
Definition connect_instrument : M bool :=
  st <- get ;;
  if test_mode st then (modify (upd_connected true) ;; ret true)
  else if (connected st && sock st)%bool then ret true
  else
    ok <- consult socket_connect ;;
    if ok then
      modify (upd_sock true) ;;
      modify (upd_connected true) ;;
      _cancel_reconnect ;;
      try_except (_ <- scpi_query IDN_q ;; ret tt) (fun _ => ret tt) ;;
      ret true
    else
      (modify (upd_connected false) ;;
       modify (upd_sock false) ;;
       log WARNING "Connection failed" ;;
       _schedule_reconnect ;;
       ret false).

(** The closure [tick] of [_schedule_reconnect]. *)
Definition reconnect_tick : M unit :=
  modify (upd_reconnect_job None) ;;
  st <- get ;;
  when (negb (connected st))
    (ok <- connect_instrument ;;
     if ok then
       st <- get ;;
       when (match current_profile_data st with [] => false | _ => true end
             && (current_step st <? length (current_profile_data st))%nat)%bool
            (modify (upd_resume_available true))
     else _schedule_reconnect).

(* ===================================================================== *)
(** * Stopping a run (ngi.py 1257-1303, 1750-1935) *)
(* ===================================================================== *)

(** [create_discharge_certificate]: the layout of the PDF is outside the
    model; [EvCertificate] records that the file was written. *)
Definition create_discharge_certificate : M unit :=
  st <- get ;;
  if current_discharge_id st =? -1 then
    (log ERROR "Invalid discharge ID, cannot generate report." ;;
     play_sound "error")
  else
    r <- get_discharge_data (current_discharge_id st) ;;
    match r with
    | (Some (_ :: _), Some _) =>
        ok <- consult pdf_savefig ;;
        if ok then modify (push_event (EvCertificate (current_discharge_id st)))
        else
          (log ERROR "Error generating PDF certificate" ;;
           play_sound "error" ;;
           raise RuntimeError)
    | _ =>
        log WARNING "No data found in database for certificate generation." ;;
        play_sound "warning"
    end.

(** [step_timeline] stays empty throughout (the only [append], in
    [apply_profile_step], follows a call of the undefined name [fmt_step]
    inside [try ... except Exception: pass]), so closing its last row
    does nothing. *)
Definition stop_discharge (generate_report : bool) : M unit :=
  st0 <- get ;;
  let was_running := running st0 in
  modify (upd_running false) ;;
  modify (upd_paused false) ;;
  (if connected st0 then
     ok <- scpi_command (INPut_STATe 0) ;;
     st <- get ;;
     when (negb ok && negb (test_mode st))%bool
          (log WARNING "Failed stop command (INPut:STATe 0).")
   else log WARNING "Cannot send stop command, not connected.") ;;
  modify (upd_discharge_comment "") ;;
  when (was_running && generate_report)%bool
    (comment <- consult askstring ;;
     match comment with
     | Some t => modify (upd_discharge_comment (str_strip t))
     | None => ret tt
     end) ;;
  st <- get ;;
  when (negb (current_discharge_id st =? -1))
    (finish_discharge (current_discharge_id st) (energy_discharged st)
                      (discharge_comment st)) ;;
  st <- get ;;
  (if (was_running && generate_report
       && match data_x st with [] => false | _ => true end)%bool then
     try_except
       (create_discharge_certificate ;;
        play_sound "success" ;;
        messagebox showinfo "Discharge Stopped")
       (fun _ =>
          log ERROR "Failed certificate generation" ;;
          play_sound "error" ;;
          messagebox showerror "Report Error")
   else when was_running (messagebox showinfo "Discharge Stopped")) ;;
  modify (upd_current_discharge_id (-1)).

(* ===================================================================== *)
(** * Applying a profile step (ngi.py 1306-1382) *)
(* ===================================================================== *)

(** [v.upper()] for a value taken from a step. *)
Definition py_upper (v : pyval) : M string :=
  match v with
  | PStr t => ret (str_upper t)
  | _ => raise AttributeError
  end.

(** [self.current_profile_data[self.current_step]] *)
Definition current_step_dict : M (gmap string pyval) :=
  st <- get ;;
  match nth_error (current_profile_data st) (current_step st) with
  | Some d => ret d
  | None => raise IndexError
  end.

(** The bookkeeping of plot markers and of the step timeline (lines
    1321-1345) only feeds the plot and the certificate and is left out. *)
Definition apply_profile_step : M unit :=
  st <- get ;;
  if (negb (running st) || paused st)%bool then ret tt
  else if (length (current_profile_data st) <=? current_step st)%nat then
    (play_sound "success" ;;
     messagebox showinfo "Discharge Complete" ;;
     stop_discharge true)
  else
    step <- current_step_dict ;;
    step_type <- py_upper (dict_get step "type" (PStr "CC")) ;;
    let value := dict_get step "value" (PNum 0) in
    if (String.eqb step_type "CC" || String.eqb step_type "CP"
        || String.eqb step_type "CV")%bool then
      func_set <- scpi_command (INPut_FUNCtion step_type) ;;
      level_set <- scpi_command (STATic_HIGH_LEVel step_type value) ;;
      let success := (func_set && level_set)%bool in
      st <- get ;;
      if (negb success && negb (test_mode st))%bool then
        (play_sound "error" ;;
         messagebox showerror "Command Error" ;;
         log ERROR "Failed SCPI Step" ;;
         stop_discharge false)
      else
        when (test_mode st && String.eqb step_type "CV")%bool
             (modify (upd_sim_cv_current (test_mode_cv_current_start (config st))))
    else
      (play_sound "error" ;;
       messagebox showerror "Profile Error" ;;
       log ERROR "Unsupported type" ;;
       stop_discharge false).

(* ===================================================================== *)
(** * Measurements (ngi.py 1450-1490) *)
(* ===================================================================== *)

(** Arithmetic of a step value with a float. *)
Definition py_num (v : pyval) : M Q :=
  match v with
  | PNum x => ret x
  | _ => raise TypeError
  end.

Definition uniform (a b : Q) : M Q :=
  consult (fun env n => random_uniform env n a b).

Local Open Scope Q_scope.

Definition _simulate_measurements : M (option (Q * Q * Q)) :=
  st <- get ;;
  if (negb (running st) || paused st
      || match current_profile_data st with [] => true | _ => false end
      || (length (current_profile_data st) <=? current_step st)%nat)%bool then
    ret (Some (sim_voltage st, sim_current st, sim_power st))
  else
    try_except
      (step <- current_step_dict ;;
       step_type <- py_upper (dict_get step "type" (PStr "CC")) ;;
       let target_value := dict_get step "value" (PNum 0) in
       let noise_factor := 0.02 in
       let resist := sim_resistance_factor st in
       let cv_decay := test_mode_cv_current_decay (config st) in
       (if String.eqb step_type "CC" then
          u <- uniform (- noise_factor) noise_factor ;;
          target <- py_num target_value ;;
          modify (upd_sim_current (target * (1 + u))) ;;
          j <- uniform 0.01 0.05 ;;
          st <- get ;;
          modify (upd_sim_voltage (sim_voltage st - (sim_current st * resist + j))) ;;
          st <- get ;;
          modify (upd_sim_power (sim_voltage st * sim_current st))
        else if String.eqb step_type "CP" then
          u <- uniform (- noise_factor) noise_factor ;;
          target <- py_num target_value ;;
          modify (upd_sim_power (target * (1 + u))) ;;
          st <- get ;;
          modify (upd_sim_current
                    (if Qltb 1 (sim_voltage st)
                     then sim_power st / sim_voltage st else 0)) ;;
          j <- uniform 0.01 0.05 ;;
          st <- get ;;
          modify (upd_sim_voltage
                    (sim_voltage st - (sim_current st * resist * 0.5 + j)))
        else if String.eqb step_type "CV" then
          target_voltage <- py_num target_value ;;
          st <- get ;;
          let diff := target_voltage - sim_voltage st in
          j <- uniform (- 0.05) 0.05 ;;
          modify (upd_sim_voltage (sim_voltage st + (diff * 0.1 + j))) ;;
          modify (upd_sim_cv_current (sim_cv_current st * (1 - cv_decay))) ;;
          st <- get ;;
          modify (upd_sim_cv_current (pymax 0.01 (sim_cv_current st))) ;;
          u <- uniform (- noise_factor) noise_factor ;;
          st <- get ;;
          modify (upd_sim_current (sim_cv_current st * (1 + u))) ;;
          st <- get ;;
          modify (upd_sim_power (sim_voltage st * sim_current st))
        else
          modify (upd_sim_current 0) ;;
          modify (upd_sim_power 0) ;;
          j <- uniform 0.01 0.03 ;;
          st <- get ;;
          modify (upd_sim_voltage (sim_voltage st - j))) ;;
       st <- get ;;
       modify (upd_sim_voltage (pymax 0 (sim_voltage st))) ;;
       st <- get ;;
       when (Qltb (sim_voltage st) 1)
            (modify (upd_sim_current 0) ;; modify (upd_sim_power 0)) ;;
       st <- get ;;
       ret (Some (sim_voltage st, sim_current st, sim_power st)))
      (fun _ => log ERROR "Simulation error" ;; ret None).

Definition fetch_measurements : M (option (Q * Q * Q)) :=
  st <- get ;;
  if test_mode st then
    (log ERROR "fetch_measurements in Test Mode." ;; _simulate_measurements)
  else if negb (connected st) then ret None
  else
    v_str <- scpi_query MEASure_VOLTage_q ;;
    c_str <- scpi_query MEASure_CURRent_q ;;
    p_str <- scpi_query MEASure_POWer_q ;;
    match _parse_measurement v_str "V", _parse_measurement c_str "A",
          _parse_measurement p_str "W" with
    | Some voltage, Some current, Some power =>
        ret (Some (voltage, current, power))
    | _, _, _ => log WARNING "Failed fetch/parse real." ;; ret None
    end.

(* ===================================================================== *)
(** * The periodic loop (ngi.py 1386-1447) *)
(* ===================================================================== *)

(** Truth value of [self.start_time] / [self.last_time]: [None] and [0.0]
    are false. *)
Definition truthy (t : option Q) : bool :=
  match t with
  | Some x => negb (Qeq_bool x 0)
  | None => false
  end.

Definition time_of (t : option Q) : Q :=
  match t with Some x => x | None => 0 end.

(** [a <= b] for a float [a] and a step value [b]. *)
Definition py_le (a : Q) (b : pyval) : M bool :=
  match b with
  | PNum x => ret (Qleb a x)
  | _ => raise TypeError
  end.

Definition py_eq_str (v : pyval) (t : string) : bool :=
  match v with
  | PStr u => String.eqb u t
  | _ => false
  end.

(** Lines 1405-1415: elapsed time and energy. *)
Definition integrate_energy (power : Q) : M Q :=
  current_time <- consult time_time ;;
  st <- get ;;
  (if truthy (start_time st) then
     when (truthy (last_time st))
       (let elapsed_step := current_time - time_of (last_time st) in
        if (Qltb 0 elapsed_step && Qltb elapsed_step 5)%bool then
          modify (upd_energy_discharged
                    (energy_discharged st + (power * elapsed_step) / 3600000))
        else log WARNING "Unusual step time")
   else ret tt) ;;
  modify (upd_last_time (Some current_time)) ;;
  ret (if truthy (start_time st) then current_time - time_of (start_time st) else 0).

(** Lines 1426-1442: the stop condition of the current step. *)
Definition check_stop_condition (voltage current : Q) : M unit :=
  st <- get ;;
  when (current_step st <? length (current_profile_data st))%nat
    (step <- current_step_dict ;;
     let stop_type := dict_get step "stop_condition_type" (PStr "voltage") in
     let stop_value := dict_get step "stop_condition_value" (PNum 0) in
     stop_met <-
       (if py_eq_str stop_type "voltage" then
          py_le (if test_mode st then sim_voltage st else voltage) stop_value
        else if py_eq_str stop_type "current" then
          py_le (if test_mode st then sim_current st else current) stop_value
        else ret false) ;;
     when stop_met
       (modify (upd_current_step (current_step st + 1)%nat) ;;
        apply_profile_step)).

(** Lines 1393-1395: the reading of this tick. *)
Definition acquire : M (option (Q * Q * Q)) :=
  st <- get ;;
  if test_mode st then _simulate_measurements else fetch_measurements.

(** The body of the [try] block; the result tells whether the function
    returned from inside it. *)
Definition update_body : M bool :=
  st <- get ;;
  reading <- acquire ;;
  match reading with
  | None =>
      if negb (test_mode st) then
        (log WARNING "Failed fetch." ;;
         _ <- after 1000 CbRunUpdateLoop ;;
         ret true)
      else
        (log ERROR "Simulation failed." ;;
         stop_discharge false ;;
         ret true)
  | Some (voltage, current, power) =>
      elapsed_total <- integrate_energy power ;;
      modify (append_sample elapsed_total voltage current power) ;;
      st <- get ;;
      log_data_point (current_discharge_id st) elapsed_total voltage current power ;;
      check_stop_condition voltage current ;;
      ret false
  end.

Definition run_update_loop : M unit :=
  st <- get ;;
  if negb (running st) then ret tt
  else
    returned <-
      (if (connected st && negb (paused st))%bool then
         try_except update_body
           (fun _ => log ERROR "Update loop error" ;; play_sound "error" ;; ret false)
       else if (negb (connected st) && negb (test_mode st))%bool then
         (handle_connection_loss ;; ret false)
       else ret false) ;;
    if returned : bool then ret tt
    else
      st <- get ;;
      when (running st) (_ <- after 1000 CbRunUpdateLoop ;; ret tt).

(* ===================================================================== *)
(** * Resuming after a reconnect (ngi.py 1586-1608) *)
(* ===================================================================== *)

Definition _resume_after_reconnect : M unit :=
  st <- get ;;
  if (negb (resume_available st) || negb (connected st))%bool then ret tt
  else if running st then ret tt
  else
    yes <- consult askyesno ;;
    if negb yes then modify (upd_resume_available false)
    else
      modify (upd_running true) ;;
      modify (upd_paused false) ;;
      st <- get ;;
      when (match start_time st with None => true | Some _ => false end)
        (now <- consult time_time ;;
         modify (upd_start_time (Some now)) ;;
         modify (upd_last_time (Some now))) ;;
      apply_profile_step ;;
      ok <- scpi_command (INPut_STATe 1) ;;
      if negb ok then
        (messagebox showerror "Command Error" ;;
         modify (upd_running false))
      else
        (run_update_loop ;;
         modify (upd_resume_available false)).

Local Close Scope Q_scope.

(* ===================================================================== *)
(** * Lists of steps (ngi.py 913, 1167) *)
(* ===================================================================== *)

(** [[self._migrate_profile_step(step) for step in steps]]: the steps are
    migrated from left to right; the first exception ends the
    comprehension. *)
Fixpoint migrate_steps (steps : list (gmap string pyval))
  : list (gmap string pyval) + exn :=
  match steps with
  | [] => inl []
  | s :: r =>
      match _migrate_profile_step s with
      | inl m =>
          match migrate_steps r with
          | inl ms => inl (m :: ms)
          | inr e => inr e
          end
      | inr e => inr e
      end
  end.

(** [_migrate_profile_step] changes the dict it is given, and the
    comprehension runs over the dicts of the stored profile itself.
    [migrate_steps] is the list the comprehension evaluates to;
    [profile_after_migration] is what [self.profiles[name]] holds once
    line 1167 has been left, normally or by an exception: the steps up to
    the first one that fails have been migrated, that one (the exception
    comes from [.upper()], before anything is written) and the later ones
    are as they were. *)
Fixpoint profile_after_migration (steps : list (gmap string pyval))
  : list (gmap string pyval) :=
  match steps with
  | [] => []
  | s :: r =>
      match _migrate_profile_step s with
      | inl m => m :: profile_after_migration r
      | inr _ => s :: r
      end
  end.

(* ===================================================================== *)
(** * Resetting the collected data (ngi.py 1508-1517, 1733-1747) *)
(* ===================================================================== *)

(** [update_measurement_display]: the labels it writes are not modelled,
    but without a complete reading it fetches one from the instrument when
    connected in live mode. *)
Definition update_measurement_display (reading : option (Q * Q * Q)) : M unit :=
  match reading with
  | Some _ => ret tt
  | None =>
      st <- get ;;
      if test_mode st then ret tt
      else if connected st then (_ <- fetch_measurements ;; ret tt)
      else ret tt
  end.

(** Lines 1743-1744: energy, times and the four sample lists. *)
Definition clear_data : App -> App :=
  with_data (fun _ =>
    {| a_energy_discharged := 0; a_start_time := None; a_last_time := None;
       a_data_x := []; a_data_voltage := []; a_data_current := [];
       a_data_power := [] |}).

(** Lines 1745-1746 (and 1221-1223, 660-662): the simulation restarts
    from the configured values. *)
Definition reset_sim (st : App) : App :=
  with_sim (fun m =>
    {| m_sim_voltage := test_mode_initial_voltage (config st);
       m_sim_current := 0; m_sim_power := 0;
       m_sim_resistance_factor := m_sim_resistance_factor m;
       m_sim_cv_current := test_mode_cv_current_start (config st) |}) st.

(** [update_plot] only draws and is left out. *)
Definition reset_data_internal : M unit :=
  modify clear_data ;;
  modify reset_sim ;;
  update_measurement_display None.

Definition confirm_reset_data : M unit :=
  st <- get ;;
  if running st then
    (messagebox showwarning "Action Not Allowed" ;; play_sound "warning")
  else
    yes <- consult askyesno ;;
    when yes (reset_data_internal ;; messagebox showinfo "Data Reset").

(* ===================================================================== *)
(** * Pausing and stopping on request (ngi.py 1234-1254) *)
(* ===================================================================== *)

Definition toggle_pause_discharge : M unit :=
  st <- get ;;
  if negb (running st) then ret tt
  else
    let target_state := if negb (paused st) then 0 else 1 in
    ok <- scpi_command (INPut_STATe target_state) ;;
    st <- get ;;
    if ok then
      modify (upd_paused (negb (paused st))) ;;
      st <- get ;;
      when (negb (paused st))
        (now <- consult time_time ;; modify (upd_last_time (Some now))) ;;
      messagebox showinfo "State Change"
    else
      when (negb (test_mode st))
        (messagebox showerror "Command Error" ;; play_sound "error").

Definition confirm_stop_discharge : M unit :=
  st <- get ;;
  if negb (running st) then ret tt
  else
    yes <- consult askyesno ;;
    when yes (stop_discharge true).

(* ===================================================================== *)
(** * Disconnecting and changing mode (ngi.py 644-670, 721-741) *)
(* ===================================================================== *)

(** [self.s.close()] is taken to succeed on a socket object; on [None]
    (after a connection loss inside [scpi_command]) it raises
    [AttributeError], which is logged.  Other exceptions pass through. *)
Definition disconnect_instrument : M unit :=
  st <- get ;;
  if test_mode st then modify (upd_connected false)
  else
    (when (sock st)
       (try_except
          (when (connected st) (_ <- scpi_command (INPut_STATe 0) ;; ret tt) ;;
           st <- get ;;
           if sock st then ret tt else raise AttributeError)
          (fun e =>
             match e with
             | AttributeError => log ERROR "Error during disconnect"
             | _ => raise e
             end)) ;;
     modify (upd_sock false) ;;
     modify (upd_connected false)).

Definition upd_test_mode (b : bool) : App -> App :=
  with_conn (fun c =>
    {| c_test_mode := b; c_connected := c_connected c; c_sock := c_sock c;
       c_resume_available := c_resume_available c;
       c_reconnect_job := c_reconnect_job c |}).

(** The check box has already written the new mode into [self.test_mode]
    when this runs. *)
Definition toggle_test_mode : M unit :=
  st <- get ;;
  if running st then
    (messagebox showwarning "Mode Change Denied" ;;
     play_sound "warning" ;;
     modify (upd_test_mode (negb (test_mode st))))
  else if test_mode st then
    (when (connected st) disconnect_instrument ;;
     modify (upd_connected true) ;;
     modify reset_sim ;;
     st <- get ;;
     update_measurement_display
       (Some (sim_voltage st, sim_current st, sim_power st)))
  else
    (modify (upd_connected false) ;;
     _ <- connect_instrument ;;
     update_measurement_display None).

(** A click on the check box: Tk inverts the variable and then calls the
    command. *)
Definition click_test_mode : M unit :=
  st <- get ;;
  modify (upd_test_mode (negb (test_mode st))) ;;
  toggle_test_mode.

(* ===================================================================== *)
(** * Starting a run (ngi.py 1159-1231) *)
(* ===================================================================== *)

Definition upd_current_profile_data (steps : list (gmap string pyval)) : App -> App :=
  with_run (fun r =>
    {| r_running := r_running r; r_paused := r_paused r;
       r_current_profile_data := steps;
       r_current_step := r_current_step r;
       r_current_discharge_id := r_current_discharge_id r;
       r_discharge_comment := r_discharge_comment r |}).

(** The two prompts for operator and location: cancelling the first skips
    the second; what they return only goes to the configuration file. *)
Definition ask_operator_and_location : M unit :=
  op <- consult askstring ;;
  match op with
  | None => ret tt
  | Some _ => (_ <- consult askstring ;; ret tt)
  end.

(** [profiles] is [self.profiles] and [profile_var] the selected name.
    The migrated steps replace the profile's list and become
    [current_profile_data]; what the migration leaves in the stored
    profile, also when it raises, is [profile_after_migration].  The plot
    markers and the step timeline are left out. *)
Definition start_discharge (profiles : gmap string (list (gmap string pyval)))
    (profile_var : string) : M unit :=
  st <- get ;;
  if negb (connected st) then
    (messagebox showerror "Error" ;; play_sound "error")
  else if running st then
    (messagebox showwarning "Warning" ;; play_sound "warning")
  else
    match (if String.eqb profile_var "" then None else profiles !! profile_var) with
    | None => messagebox showerror "Error" ;; play_sound "error"
    | Some steps =>
        match migrate_steps steps with
        | inr e => raise e
        | inl migrated =>
            modify (upd_current_profile_data migrated) ;;
            match migrated with
            | [] => messagebox showerror "Error" ;; play_sound "error"
            | _ :: _ =>
                reg_num <- consult askstring ;;
                match reg_num with
                | None | Some "" =>
                    messagebox showerror "Error" ;; play_sound "error"
                | Some reg =>
                    let registration_number := str_upper (str_strip reg) in
                    ask_operator_and_location ;;
                    modify (upd_discharge_comment "") ;;
                    reset_data_internal ;;
                    modify (upd_running true) ;;
                    modify (upd_paused false) ;;
                    now <- consult time_time ;;
                    modify (upd_start_time (Some now)) ;;
                    modify (upd_last_time (Some now)) ;;
                    modify (upd_current_step O) ;;
                    st <- get ;;
                    let mode := if test_mode st then "Test" else "Real" in
                    id <- start_new_discharge registration_number profile_var mode ;;
                    modify (upd_current_discharge_id id) ;;
                    if id =? -1 then
                      (messagebox showerror "Database Error" ;;
                       modify (upd_running false))
                    else
                      st <- get ;;
                      when (test_mode st) (modify reset_sim) ;;
                      ok <- scpi_command (INPut_STATe 1) ;;
                      st <- get ;;
                      if (negb ok && negb (test_mode st))%bool then
                        (messagebox showerror "Command Error" ;;
                         stop_discharge false)
                      else
                        (apply_profile_step ;; run_update_loop)
                end
            end
        end
    end.

(* ===================================================================== *)
(** * Closing the window (ngi.py 1937-1952) *)
(* ===================================================================== *)

(** The result tells whether the window was destroyed. *)
Definition on_closing : M bool :=
  st <- get ;;
  if running st then
    yes <- consult askyesno ;;
    if yes then
      stop_discharge true ;;
      st <- get ;;
      when (negb (test_mode st)) disconnect_instrument ;;
      ret true
    else ret false
  else
    (when (negb (test_mode st)) disconnect_instrument ;;
     ret true).

(* ===================================================================== *)
(** * Observations on states and traces *)
(* ===================================================================== *)

Definition is_unusual_warning (e : event) : bool :=
  match e with
  | EvLog WARNING msg => String.eqb msg "Unusual step time"
  | _ => false
  end.

Definition is_certificate (e : event) : bool :=
  match e with EvCertificate _ => true | _ => false end.

Definition is_command (e : event) : bool :=
  match e with EvCommand _ _ => true | _ => false end.

Definition is_stop_command (e : event) : bool :=
  match e with EvCommand (INPut_STATe 0) _ => true | _ => false end.

(** Log lines other than the step-time warning, sounds and dialogs. *)
Definition notice (e : event) : bool :=
  match e with
  | EvLog _ _ => negb (is_unusual_warning e)
  | EvSound _ | EvDialog _ _ => true
  | _ => false
  end.

Definition notice_or_command (e : event) : bool := (notice e || is_command e)%bool.

(** What [stop_discharge generate_report] may emit. *)
Definition stop_events (generate_report : bool) (e : event) : bool :=
  (notice e || is_stop_command e || (generate_report && is_certificate e))%bool.

Definition not_unusual (e : event) : bool := negb (is_unusual_warning e).

(** Number of step-time warnings logged so far. *)
Definition unusual_warnings (st : App) : nat :=
  length (List.filter is_unusual_warning (trace st)).

(** Certificates written so far, oldest first. *)
Definition certificates (st : App) : list event :=
  rev (List.filter is_certificate (trace st)).

(** The calls of [scpi_command] so far, oldest first. *)
Fixpoint commands_of (l : list event) : list (command * cmd_outcome) :=
  match l with
  | [] => []
  | EvCommand c o :: r => commands_of r ++ [(c, o)]
  | _ :: r => commands_of r
  end.

Definition command_log (st : App) : list (command * cmd_outcome) :=
  commands_of (trace st).

(** [t'] is [t] with further events, all satisfying [P], put in front
    (the trace is kept newest first). *)
Definition extends (P : event -> bool) (t t' : list event) : Prop :=
  exists new, t' = new ++ t /\ Forall (fun e => P e = true) new.

(** What the calls below the periodic loop leave alone: configuration,
    accumulated data, profile and position in it, mode; they never start
    a run; and they only add events satisfying [P]. *)
Record frame (P : event -> bool) (st st' : App) : Prop := {
  keep_config : config st' = config st;
  keep_data : data st' = data st;
  keep_profile : current_profile_data st' = current_profile_data st;
  keep_step : current_step st' = current_step st;
  keep_test_mode : test_mode st' = test_mode st;
  keep_stopped : running st = false -> running st' = false;
  keep_events : extends P (trace st) (trace st')
}.

(** [m] keeps the frame from every state and in every environment. *)
Definition preserves (P : event -> bool) {A} (m : M A) : Prop :=
  forall env st, frame P st (snd (m env st)).

(** [m] relates every state to the state it leaves, in every
    environment. *)
Definition relates (R : App -> App -> Prop) {A} (m : M A) : Prop :=
  forall env st, R st (snd (m env st)).

(** From [st], if [I] holds there, [m] leaves a state in which [I]
    holds, in every environment. *)
Definition keeps_at (I : App -> Prop) (st : App) {A} (m : M A) : Prop :=
  I st -> forall env, I (snd (m env st)).

(** Every result [m] returns normally comes with a state in which [Q]
    holds. *)
Definition ensures (Q : App -> Prop) {A} (m : M A) : Prop :=
  forall env st a s, m env st = (Ok a, s) -> Q s.

(** [m] returns normally from every state and in every environment. *)
Definition returns {A} (m : M A) : Prop :=
  forall env s, exists a s', m env s = (Ok a, s').

(** What no operation other than the pause button and the start of a
    run undoes: a run that is not paused stays so, and a closed session
    stays closed. *)
Definition calm (st st' : App) : Prop :=
  (paused st = false -> paused st' = false) /\
  (current_discharge_id st = -1 -> current_discharge_id st' = -1).

(** The session table as SQLite keeps it: row ids are positive, below
    the next id to be given out, and pairwise different. *)
Definition db_wf (d : Db) : Prop :=
  0 < next_rowid d /\
  Forall (fun r => 0 < d_id r < next_rowid d) (discharges d) /\
  NoDup (map d_id (discharges d)).

(** [r'] is the row [r] except, possibly, for what closing a session
    writes. *)
Definition same_session (r r' : discharge_row) : Prop :=
  d_id r' = d_id r /\
  d_registration_number r' = d_registration_number r /\
  d_profile_name r' = d_profile_name r /\
  d_start_time r' = d_start_time r /\
  d_mode r' = d_mode r.

(** [d'] holds everything [d] holds: the data points of [d] come first
    and unchanged, and so do its sessions up to their closing columns. *)
Definition db_grows (d d' : Db) : Prop :=
  (exists more, data_points d' = data_points d ++ more) /\
  (exists old more,
      discharges d' = old ++ more /\ Forall2 same_session (discharges d) old) /\
  next_rowid d <= next_rowid d'.

(** What every operation does to the database. *)
Definition db_step (st st' : App) : Prop :=
  db_grows (db st) (db st') /\ (db_wf (db st) -> db_wf (db st')).

(** The four sample lists have the same length. *)
Definition aligned (st : App) : Prop :=
  length (data_voltage st) = length (data_x st) /\
  length (data_current st) = length (data_x st) /\
  length (data_power st) = length (data_x st).

Definition keeps_aligned (st st' : App) : Prop := aligned st -> aligned st'.

(** The samples collected so far: time, voltage, current and power. *)
Definition samples (st : App) : list Q * list Q * list Q * list Q :=
  (data_x st, data_voltage st, data_current st, data_power st).

(** The timer that calls [run_update_loop] again after a second. *)
Definition next_tick (id : nat) : timer :=
  {| t_id := id; t_delay_ms := 1000; t_callback := CbRunUpdateLoop |}.

(** [env'] is [env] except, possibly, for what the socket does. *)
Definition same_but_socket (env env' : Env) : Prop :=
  time_time env' = time_time env /\
  datetime_now env' = datetime_now env /\
  random_uniform env' = random_uniform env /\
  askyesno env' = askyesno env /\
  askstring env' = askstring env /\
  sqlite3_connect env' = sqlite3_connect env /\
  sqlite3_execute env' = sqlite3_execute env /\
  pdf_savefig env' = pdf_savefig env.

(** From [st], if it is in test mode, [m] does the same in any two
    environments that differ only in the socket, and leaves a state in
    test mode. *)
Definition socket_blind_at (st : App) {A} (m : M A) : Prop :=
  test_mode st = true ->
  forall env env',
    same_but_socket env env' ->
    m env' st = m env st /\ test_mode (snd (m env st)) = true.

(** A command sent from [st] in [env] is taken: the controller is in
    test mode, or it is connected and the socket accepts the bytes. *)
Definition accepted (env : Env) (st : App) : Prop :=
  test_mode st = true \/
  (connected st = true /\ sock st = true /\
   socket_sendall env (io_count st) = IoOk).

(** The energy contribution of one tick in the words of the
    specification: [power * delta / 3_600_000] for [0 < delta < 5.0],
    otherwise nothing. *)
Definition valid_interval (delta : Q) : bool :=
  (Qltb 0 delta && Qltb delta 5)%bool.

Definition integrate (power_watts delta_seconds : Q) : Q :=
  if valid_interval delta_seconds
  then (power_watts * delta_seconds / 3600000)%Q
  else 0%Q.

(** The states after each of [n] successive ticks. *)
Fixpoint run_ticks (n : nat) (env : Env) (st : App) : list App :=
  match n with
  | O => []
  | S k =>
      let st' := snd (run_update_loop env st) in
      st' :: run_ticks k env st'
  end.

(** The power reading a tick from [st] works with, if it gets one. *)
Definition tick_power (env : Env) (st : App) : option Q :=
  if (running st && connected st && negb (paused st))%bool then
    match fst (acquire env st) with
    | Ok (Some (_, _, p)) => Some p
    | _ => None
    end
  else None.

(** Every tick of the run reads a non-negative power. *)
Fixpoint nonnegative_power (n : nat) (env : Env) (st : App) : Prop :=
  match n with
  | O => True
  | S k =>
      (forall p, tick_power env st = Some p -> (0 <= p)%Q) /\
      nonnegative_power k env (snd (run_update_loop env st))
  end.

(** [l] never decreases from one element to the next. *)
Fixpoint non_decreasing (l : list Q) : Prop :=
  match l with
  | x :: (y :: _) as r => (x <= y)%Q /\ non_decreasing r
  | _ => True
  end.

(** The state after [n] successive ticks. *)
Fixpoint after_ticks (n : nat) (env : Env) (st : App) : App :=
  match n with
  | O => st
  | S k => after_ticks k env (snd (run_update_loop env st))
  end.

(* ===================================================================== *)
(** * Sample configurations *)
(* ===================================================================== *)

(** [DEFAULT_CONFIG] *)
Definition default_config : Config :=
  {| auto_reconnect := true;
     auto_reconnect_interval_s := 5;
     test_mode_initial_voltage := 400;
     test_mode_cv_current_start := 5;
     test_mode_cv_current_decay := 0.05 |}.


(** First step of the built-in profile "Default CC", with the stop
    voltage of the scenario of the specification. *)
Definition step_cc : gmap string pyval :=
  <["type" := PStr "CC"]>
    (<["value" := PNum 10]>
       (<["stop_condition_type" := PStr "voltage"]>
          (<["stop_condition_value" := PNum 300]> ∅))).

(** A step whose target value is not a number. *)
Definition step_bad_value : gmap string pyval :=
  <["type" := PStr "CC"]>
    (<["value" := PStr "abc"]>
       (<["stop_condition_type" := PStr "voltage"]>
          (<["stop_condition_value" := PNum 300]> ∅))).

(** A step of a type the program does not support. *)
Definition step_cr : gmap string pyval :=
  <["type" := PStr "CR"]>
    (<["value" := PNum 50]>
       (<["stop_condition_type" := PStr "voltage"]>
          (<["stop_condition_value" := PNum 300]> ∅))).

Definition legacy_step : gmap string pyval :=
  <["type" := PStr "cv"]> (<["value" := PNum 380]> (<["stop_voltage" := PNum 12]> ∅)).

Definition empty_db : Db := {| discharges := []; data_points := []; next_rowid := 1 |}.

Definition db_one_session : Db :=
  insert_discharge "KX123" "Default CC" "Real" 1000 empty_db.

Definition sim_start : Sim :=
  {| m_sim_voltage := 400; m_sim_current := 0; m_sim_power := 0;
     m_sim_resistance_factor := 0.01; m_sim_cv_current := 5 |}.

Definition world_start (d : Db) : World :=
  {| w_db := d; w_trace := []; w_timers := []; w_next_timer := O; w_io_count := O |}.

(** Connected to the instrument, no run in progress. *)
Definition app_idle : App :=
  {| config := default_config;
     conn := {| c_test_mode := false; c_connected := true; c_sock := true;
                c_resume_available := false; c_reconnect_job := None |};
     run := {| r_running := false; r_paused := false;
               r_current_profile_data := []; r_current_step := O;
               r_current_discharge_id := -1; r_discharge_comment := "" |};
     data := {| a_energy_discharged := 0; a_start_time := None;
                a_last_time := None; a_data_x := []; a_data_voltage := [];
                a_data_current := []; a_data_power := [] |};
     sim := sim_start;
     world := world_start empty_db |}.

(** A live run of [step_cc], session 1 open, one second after the last
    tick. *)
Definition app_running (cfg : Config) (test : bool) (steps : list (gmap string pyval)) : App :=
  {| config := cfg;
     conn := {| c_test_mode := test; c_connected := true; c_sock := negb test;
                c_resume_available := false; c_reconnect_job := None |};
     run := {| r_running := true; r_paused := false;
               r_current_profile_data := steps; r_current_step := O;
               r_current_discharge_id := 1; r_discharge_comment := "" |};
     data := {| a_energy_discharged := 0.5; a_start_time := Some 1000%Q;
                a_last_time := Some 1009%Q; a_data_x := [9%Q];
                a_data_voltage := [350%Q]; a_data_current := [10%Q];
                a_data_power := [3500%Q] |};
     sim := sim_start;
     world := world_start db_one_session |}.

(** An environment in which everything works; the instrument answers the
    three measurement queries with [v], [c] and [p], and the clock shows
    [now]. *)
Definition env_answers (v c p : string) (now : Q) : Env :=
  {| time_time := fun _ => now;
     datetime_now := fun _ => now;
     random_uniform := fun _ a _ => a;
     socket_connect := fun _ => true;
     socket_sendall := fun _ => IoOk;
     socket_recv := fun n =>
       match n with
       | 1%nat => Received v
       | 3%nat => Received c
       | _ => Received p
       end;
     askyesno := fun _ => true;
     askstring := fun _ => None;
     sqlite3_connect := fun _ => true;
     sqlite3_execute := fun _ => true;
     pdf_savefig := fun _ => true |}.


(** The socket fails on every use. *)
Definition env_socket_down : Env :=
  {| time_time := fun _ => 1010%Q;
     datetime_now := fun _ => 1010%Q;
     random_uniform := fun _ a _ => a;
     socket_connect := fun _ => false;
     socket_sendall := fun _ => IoSocketError;
     socket_recv := fun _ => RecvSocketError;
     askyesno := fun _ => true;
     askstring := fun _ => None;
     sqlite3_connect := fun _ => true;
     sqlite3_execute := fun _ => true;
     pdf_savefig := fun _ => true |}.

(** The database file cannot be opened. *)
Definition env_db_unreachable : Env :=
  {| time_time := fun _ => 1010%Q;
     datetime_now := fun _ => 1010%Q;
     random_uniform := fun _ a _ => a;
     socket_connect := fun _ => true;
     socket_sendall := fun _ => IoOk;
     socket_recv := fun _ => Received "0";
     askyesno := fun _ => true;
     askstring := fun _ => None;
     sqlite3_connect := fun _ => false;
     sqlite3_execute := fun _ => true;
     pdf_savefig := fun _ => true |}.

(** The database opens but the statement fails. *)
Definition env_db_locked : Env :=
  {| time_time := fun _ => 1010%Q;
     datetime_now := fun _ => 1010%Q;
     random_uniform := fun _ a _ => a;
     socket_connect := fun _ => true;
     socket_sendall := fun _ => IoOk;
     socket_recv := fun _ => Received "0";
     askyesno := fun _ => true;
     askstring := fun _ => None;
     sqlite3_connect := fun _ => true;
     sqlite3_execute := fun _ => false;
     pdf_savefig := fun _ => true |}.

(** The operator enters [reg] in every dialog that asks for text; the
    instrument answers every query with [400]; the database opens and its
    statements succeed exactly when [db_writes]. *)
Definition env_operator (reg : string) (db_writes : bool) : Env :=
  {| time_time := fun _ => 1010%Q;
     datetime_now := fun _ => 1010%Q;
     random_uniform := fun _ a _ => a;
     socket_connect := fun _ => true;
     socket_sendall := fun _ => IoOk;
     socket_recv := fun _ => Received "400";
     askyesno := fun _ => true;
     askstring := fun _ => Some reg;
     sqlite3_connect := fun _ => true;
     sqlite3_execute := fun _ => db_writes;
     pdf_savefig := fun _ => true |}.

(** The profile store with the one profile the program ships with. *)
Definition profiles_default : gmap string (list (gmap string pyval)) :=
  <["Default CC" := [step_cc]]> ∅.

(** The live run after the connection was lost, and after the reconnect
    callback then succeeded. *)
Definition app_after_loss : App :=
  snd (handle_connection_loss env_socket_down
         (app_running default_config false [step_cc])).

Definition app_reconnected : App :=
  snd (reconnect_tick (env_answers "400 V" "10 A" "4000 W" 1020) app_after_loss).


(** What an answered query leaves alone. *)
Definition same_but_log (s s' : App) : Prop :=
  config s' = config s /\ conn s' = conn s /\ run s' = run s /\
  data s' = data s /\ sim s' = sim s /\ db s' = db s /\
  timers s' = timers s /\ w_next_timer (world s') = w_next_timer (world s).

(* ===================================================================== *)
(** * Proofs *)
(* ===================================================================== *)

(** ** Characters *)

Lemma digit_facts c :
  is_digit c = true ->
  ascii_eqb c "+" = false /\ ascii_eqb c "-" = false /\
  ascii_eqb c "." = false /\ is_exp_marker c = false /\
  allowed_char c = true /\
  ascii_eqb "." c = false /\ ascii_eqb "-" c = false /\ ascii_eqb "+" c = false.
Proof.
  destruct c as [[] [] [] [] [] [] [] []]; cbv; intros H;
    try discriminate H; repeat split.
Qed.

Lemma marker_facts c :
  is_exp_marker c = true ->
  is_digit c = false /\ ascii_eqb c "." = false /\ allowed_char c = true /\
  ascii_eqb "." c = false /\ ascii_eqb "-" c = false /\ ascii_eqb "+" c = false.
Proof.
  destruct c as [[] [] [] [] [] [] [] []]; cbv; intros H;
    try discriminate H; repeat split.
Qed.

Lemma take_sign_other c r :
  ascii_eqb c "+" = false -> ascii_eqb c "-" = false ->
  take_sign (c :: r) = (1, c :: r).
Proof. intros H1 H2. unfold take_sign. rewrite H1, H2. reflexivity. Qed.

Lemma take_sign_inv l sg r :
  take_sign l = (sg, r) -> exists t, sign_opt t /\ l = t ++ r.
Proof.
  destruct l as [|c l'].
  - cbn. intros [= <- <-]. exists []. split; [constructor | reflexivity].
  - unfold take_sign. destruct (ascii_eqb c "+") eqn:Hp.
    + apply Ascii.eqb_eq in Hp. subst c. intros [= <- <-].
      exists ["+"%char]. split; [constructor | reflexivity].
    + destruct (ascii_eqb c "-") eqn:Hm.
      * apply Ascii.eqb_eq in Hm. subst c. intros [= <- <-].
        exists ["-"%char]. split; [constructor | reflexivity].
      * intros [= <- <-].
        exists []. split; [constructor | reflexivity].
Qed.

Lemma take_sign_app t r :
  sign_opt t ->
  match r with
  | c :: _ => ascii_eqb c "+" = false /\ ascii_eqb c "-" = false
  | [] => True
  end ->
  exists sg, take_sign (t ++ r) = (sg, r).
Proof.
  intros Ht Hr. destruct Ht; cbn [app]; unfold take_sign.
  - destruct r as [|c r]; [eexists; reflexivity|].
    destruct Hr as [-> ->]. eexists; reflexivity.
  - eexists; reflexivity.
  - eexists; reflexivity.
Qed.

(** ** Digit runs *)

Lemma span_digits_inv l d r :
  span_digits l = (d, r) -> l = d ++ r /\ all_digits d.
Proof.
  revert d r. induction l as [|c l IH]; intros d r.
  - cbn. intros [= <- <-]. split; [reflexivity | constructor].
  - cbn. destruct (is_digit c) eqn:Hc.
    + destruct (span_digits l) as [d' r'] eqn:E. intros [= <- <-].
      destruct (IH d' r' eq_refl) as [-> Hd]. split; [reflexivity|].
      constructor; assumption.
    + intros [= <- <-]. split; [reflexivity | constructor].
Qed.

Lemma span_digits_app d r :
  all_digits d -> no_digit_head r -> span_digits (d ++ r) = (d, r).
Proof.
  intros Hd Hr. induction Hd as [|c d Hc Hd IH].
  - destruct r as [|c r]; [reflexivity|]. cbn in *. rewrite Hr. reflexivity.
  - cbn. rewrite Hc, IH. reflexivity.
Qed.

Lemma span_digits_all d : all_digits d -> span_digits d = (d, []).
Proof.
  intros Hd. rewrite <- (app_nil_r d) at 1. apply span_digits_app; [assumption|exact I].
Qed.

(** ** [float] accepts exactly the numeric grammar *)

Lemma py_float_grammar l x : py_float l = inl x -> numeric_grammar l.
Proof.
  unfold py_float.
  destruct (take_sign l) as [sg r0] eqn:Es.
  destruct (span_digits r0) as [ip r1] eqn:Ei.
  apply take_sign_inv in Es as (t & Ht & ->).
  apply span_digits_inv in Ei as [-> Hip].
  assert (Hm : forall fp r2,
    match r1 with
    | c :: r => if ascii_eqb c "." then span_digits r else ([], r1)
    | [] => ([], r1)
    end = (fp, r2) ->
    ip ++ fp <> [] -> exists m, mantissa m /\ ip ++ r1 = m ++ r2).
  { intros fp r2 E Hne. destruct r1 as [|c r].
    - injection E as <- <-. exists ip. split; [|reflexivity].
      rewrite app_nil_r in Hne. constructor; assumption.
    - destruct (ascii_eqb c ".") eqn:Hc.
      + apply Ascii.eqb_eq in Hc. subst c.
        apply span_digits_inv in E as [-> Hfp].
        exists (ip ++ "."%char :: fp). split.
        * constructor; assumption.
        * rewrite <- app_assoc. reflexivity.
      + injection E as <- <-. exists ip. split; [|reflexivity].
        rewrite app_nil_r in Hne. constructor; assumption. }
  destruct (match r1 with
            | c :: r => if ascii_eqb c "." then span_digits r else ([], r1)
            | [] => ([], r1)
            end) as [fp r2] eqn:Ef.
  specialize (Hm fp r2 eq_refl).
  destruct (ip ++ fp) as [|c0 w] eqn:Ew; [discriminate|].
  destruct Hm as (m & Hm & ->); [discriminate|].
  destruct r2 as [|mk r3].
  - intros _. rewrite app_nil_r.
    rewrite <- (app_nil_r m). apply numeric; [assumption..|constructor].
  - destruct (is_exp_marker mk) eqn:Hmk; [|discriminate].
    destruct (take_sign r3) as [esg r4] eqn:Ee.
    destruct (span_digits r4) as [ed r5] eqn:Ed.
    apply take_sign_inv in Ee as (te & Hte & ->).
    apply span_digits_inv in Ed as [-> Hed].
    destruct ed as [|e0 ed]; [discriminate|].
    destruct r5; [|discriminate]. intros _.
    rewrite app_nil_r. apply numeric; [assumption..|].
    constructor; [assumption..|discriminate|assumption].
Qed.

Lemma sign_opt_head t r c l :
  sign_opt t -> t ++ r = c :: l ->
  (t = [] /\ r = c :: l) \/ (ascii_eqb c "+" = true \/ ascii_eqb c "-" = true).
Proof.
  intros Ht E. destruct Ht; cbn in E.
  - left. split; [reflexivity|assumption].
  - right. left. injection E as <- _. reflexivity.
  - right. right. injection E as <- _. reflexivity.
Qed.

Lemma exponent_head ex :
  exponent_opt ex -> no_digit_head ex /\
  match ex with c :: _ => ascii_eqb c "." = false | [] => True end.
Proof.
  intros [|m sg ds Hm _ _ _]; cbn; [split; exact I|].
  destruct (marker_facts m Hm) as (H1 & H2 & _). split; assumption.
Qed.

Lemma py_float_exponent ex sg ip fp :
  exponent_opt ex -> ip ++ fp <> [] ->
  exists x,
    match ip ++ fp with
    | [] => inr ValueError
    | _ :: _ =>
        match ex with
        | [] => inl (decimal_value sg ip fp 0)
        | m :: r3 =>
            if is_exp_marker m then
              let (esg, r4) := take_sign r3 in
              let (ed, r5) := span_digits r4 in
              match ed, r5 with
              | _ :: _, [] => inl (decimal_value sg ip fp (esg * digits_value ed))
              | _, _ => inr ValueError
              end
            else inr ValueError
        end
    end = inl x.
Proof.
  intros Hex Hne. destruct (ip ++ fp) as [|c0 w]; [congruence|].
  destruct Hex as [|m t ds Hm Ht Hds Hd]; [eexists; reflexivity|].
  rewrite Hm.
  destruct ds as [|d0 ds]; [congruence|].
  destruct (take_sign_app t (d0 :: ds) Ht) as [esg ->].
  { inversion Hd as [|? ? Hd0 _]; subst.
    destruct (digit_facts d0 Hd0) as (H1 & H2 & _). split; assumption. }
  rewrite (span_digits_all _ Hd). eexists; reflexivity.
Qed.

Lemma grammar_py_float l : numeric_grammar l -> exists x, py_float l = inl x.
Proof.
  intros [t m ex Ht Hm Hex]. unfold py_float.
  destruct (exponent_head ex Hex) as [Hnd Hnp].
  assert (Hhead : match m ++ ex with
                  | c :: _ => ascii_eqb c "+" = false /\ ascii_eqb c "-" = false
                  | [] => True
                  end).
  { destruct Hm as [ip Hne Hip | ip fp Hne Hip Hfp].
    - destruct ip as [|c ip]; [congruence|]. cbn.
      inversion Hip as [|? ? Hc _]; subst.
      destruct (digit_facts c Hc) as (H1 & H2 & _). split; assumption.
    - destruct ip as [|c ip]; cbn.
      + split; reflexivity.
      + inversion Hip as [|? ? Hc _]; subst.
        destruct (digit_facts c Hc) as (H1 & H2 & _). split; assumption. }
  destruct (take_sign_app t (m ++ ex) Ht Hhead) as [sg ->].
  destruct Hm as [ip Hne Hip | ip fp Hne Hip Hfp].
  - rewrite (span_digits_app ip ex Hip Hnd).
    replace (match ex with
             | c :: r => if ascii_eqb c "." then span_digits r else ([], ex)
             | [] => ([], ex)
             end) with (@nil ascii, ex).
    2:{ destruct ex as [|c r]; [reflexivity|]. rewrite Hnp. reflexivity. }
    apply py_float_exponent; [assumption|]. rewrite app_nil_r. assumption.
  - rewrite <- app_assoc. cbn [app].
    rewrite (span_digits_app ip ("."%char :: fp ++ ex) Hip) by reflexivity.
    cbn [ascii_eqb]. replace (Ascii.eqb "." ".") with true by reflexivity.
    rewrite (span_digits_app fp ex Hfp Hnd).
    apply py_float_exponent; assumption.
Qed.

(** ** The guard of [_parse_measurement] on strings of the grammar *)

Lemma count_char_app c a b :
  count_char c (a ++ b) = (count_char c a + count_char c b)%nat.
Proof. unfold count_char. rewrite List.filter_app, length_app. reflexivity. Qed.

Lemma count_char_cons c x l :
  count_char c (x :: l) =
  ((if ascii_eqb c x then 1 else 0) + count_char c l)%nat.
Proof. unfold count_char. cbn [List.filter]. destruct (ascii_eqb c x); reflexivity. Qed.

Lemma count_char_digits c d :
  (forall x, is_digit x = true -> ascii_eqb c x = false) ->
  all_digits d -> count_char c d = O.
Proof.
  intros Hc Hd. induction Hd as [|x d Hx Hd IH]; [reflexivity|].
  unfold count_char in *. cbn [List.filter]. rewrite (Hc x Hx). exact IH.
Qed.

Lemma count_point_digits d : all_digits d -> count_char "." d = O.
Proof. apply count_char_digits. intros x Hx. apply (digit_facts x Hx). Qed.

Lemma allowed_digits d : all_digits d -> forallb allowed_char d = true.
Proof.
  intros Hd. induction Hd as [|x d Hx Hd IH]; [reflexivity|].
  cbn [forallb]. rewrite IH. destruct (digit_facts x Hx) as (_&_&_&_&->&_).
  reflexivity.
Qed.

Lemma sign_opt_facts t :
  sign_opt t -> forallb allowed_char t = true /\ count_char "." t = O.
Proof. intros []; split; reflexivity. Qed.

Lemma mantissa_facts m :
  mantissa m ->
  m <> [] /\ forallb allowed_char m = true /\ (count_char "." m <= 1)%nat.
Proof.
  intros [ip Hne Hip | ip fp Hne Hip Hfp].
  - split; [assumption|]. split; [apply allowed_digits; assumption|].
    rewrite count_point_digits by assumption. lia.
  - split; [destruct ip; discriminate|]. split.
    + rewrite forallb_app. cbn [forallb].
      rewrite !allowed_digits by assumption. reflexivity.
    + rewrite count_char_app, count_char_cons.
      rewrite (count_point_digits ip), (count_point_digits fp) by assumption.
      cbn. lia.
Qed.

Lemma exponent_facts ex :
  exponent_opt ex -> forallb allowed_char ex = true /\ count_char "." ex = O.
Proof.
  intros [|m t ds Hm Ht _ Hd]; [split; reflexivity|].
  destruct (marker_facts m Hm) as (_ & _ & Ha & Hp & _).
  destruct (sign_opt_facts t Ht) as [Hta Htp].
  split.
  - cbn [forallb]. rewrite Ha, forallb_app, Hta, allowed_digits by assumption.
    reflexivity.
  - rewrite count_char_cons, count_char_app, Htp, Hp.
    rewrite count_point_digits by assumption. reflexivity.
Qed.

Lemma grammar_passes_guard v :
  numeric_grammar v ->
  (count_char "-" v <= 1)%nat -> (count_char "+" v <= 1)%nat ->
  rejected v = false.
Proof.
  intros [t m ex Ht Hm Hex] Hminus Hplus.
  destruct (sign_opt_facts t Ht) as [Hta Htp].
  destruct (mantissa_facts m Hm) as (Hne & Hma & Hmp).
  destruct (exponent_facts ex Hex) as [Hea Hep].
  unfold rejected.
  destruct (t ++ m ++ ex) as [|c w] eqn:E.
  { apply app_eq_nil in E as [_ E]. apply app_eq_nil in E as [E _]. congruence. }
  rewrite <- E in *.
  rewrite !forallb_app, Hta, Hma, Hea.
  rewrite !count_char_app, Htp, Hep in *.
  cbn [negb orb andb].
  repeat match goal with
         | |- context [(1 <? ?n)%nat] =>
             let H := fresh in
             destruct (Nat.ltb_spec 1 n) as [H|H]; [lia|]
         end.
  reflexivity.
Qed.

Lemma guard_counts v :
  rejected v = false ->
  (count_char "-" v <= 1)%nat /\ (count_char "+" v <= 1)%nat.
Proof.
  unfold rejected. destruct v as [|c w]; [discriminate|].
  intros H. apply orb_false_elim in H as [H Hplus].
  apply orb_false_elim in H as [_ Hminus].
  apply Nat.ltb_ge in Hplus, Hminus. split; assumption.
Qed.

Example parse_400V : _parse_measurement (Some "400.5 V") "V" = Some (decimal_value 1 (chars "400") (chars "5") 0).
Proof. reflexivity. Qed.

Example parse_abc : _parse_measurement (Some "abc") "V" = None.
Proof. reflexivity. Qed.

Lemma sign_of_opt t s : sign_of t s -> sign_opt t.
Proof. intros []; constructor. Qed.

Lemma mantissa_of_mantissa m ip fp : mantissa_of m ip fp -> mantissa m.
Proof. intros []; constructor; assumption. Qed.

Lemma exponent_of_opt ex e : exponent_of ex e -> exponent_opt ex.
Proof.
  intros [|m sg s ds Hm Hs Hne Hd]; constructor; try assumption.
  exact (sign_of_opt _ _ Hs).
Qed.

(** A string has a value exactly when it is in the grammar. *)
Lemma numeral_value_grammar l x : numeral_value l x -> numeric_grammar l.
Proof.
  intros [sg s m ip fp ex e Hs Hm He]. constructor.
  - exact (sign_of_opt _ _ Hs).
  - exact (mantissa_of_mantissa _ _ _ Hm).
  - exact (exponent_of_opt _ _ He).
Qed.

Lemma take_sign_value l sg r :
  take_sign l = (sg, r) -> exists t, sign_of t sg /\ l = t ++ r.
Proof.
  destruct l as [|c l'].
  - cbn. intros [= <- <-]. exists []. split; [constructor | reflexivity].
  - unfold take_sign. destruct (ascii_eqb c "+") eqn:Hp.
    + apply Ascii.eqb_eq in Hp. subst c. intros [= <- <-].
      exists ["+"%char]. split; [constructor | reflexivity].
    + destruct (ascii_eqb c "-") eqn:Hm.
      * apply Ascii.eqb_eq in Hm. subst c. intros [= <- <-].
        exists ["-"%char]. split; [constructor | reflexivity].
      * intros [= <- <-].
        exists []. split; [constructor | reflexivity].
Qed.

Lemma take_sign_of t s r :
  sign_of t s ->
  match r with
  | c :: _ => ascii_eqb c "+" = false /\ ascii_eqb c "-" = false
  | [] => True
  end ->
  take_sign (t ++ r) = (s, r).
Proof.
  intros Ht Hr. destruct Ht; cbn [app]; unfold take_sign.
  - destruct r as [|c r]; [reflexivity|].
    destruct Hr as [-> ->]. reflexivity.
  - reflexivity.
  - reflexivity.
Qed.

(** [float] returns the value of the string. *)
Lemma py_float_value l x : py_float l = inl x -> numeral_value l x.
Proof.
  unfold py_float.
  destruct (take_sign l) as [sg r0] eqn:Es.
  destruct (span_digits r0) as [ip r1] eqn:Ei.
  apply take_sign_value in Es as (t & Ht & ->).
  apply span_digits_inv in Ei as [-> Hip].
  assert (Hm : forall fp r2,
    match r1 with
    | c :: r => if ascii_eqb c "." then span_digits r else ([], r1)
    | [] => ([], r1)
    end = (fp, r2) ->
    ip ++ fp <> [] -> exists m, mantissa_of m ip fp /\ ip ++ r1 = m ++ r2).
  { intros fp r2 E Hne. destruct r1 as [|c r].
    - injection E as <- <-. exists ip. split; [|reflexivity].
      rewrite app_nil_r in Hne. constructor; assumption.
    - destruct (ascii_eqb c ".") eqn:Hc.
      + apply Ascii.eqb_eq in Hc. subst c.
        apply span_digits_inv in E as [-> Hfp].
        exists (ip ++ "."%char :: fp). split.
        * constructor; assumption.
        * rewrite <- app_assoc. reflexivity.
      + injection E as <- <-. exists ip. split; [|reflexivity].
        rewrite app_nil_r in Hne. constructor; assumption. }
  destruct (match r1 with
            | c :: r => if ascii_eqb c "." then span_digits r else ([], r1)
            | [] => ([], r1)
            end) as [fp r2] eqn:Ef.
  specialize (Hm fp r2 eq_refl).
  destruct (ip ++ fp) as [|c0 w] eqn:Ew; [discriminate|].
  destruct Hm as (m & Hm & ->); [discriminate|].
  destruct r2 as [|mk r3].
  - intros [= <-]. rewrite app_nil_r.
    rewrite <- (app_nil_r m). apply numeral; [assumption..|constructor].
  - destruct (is_exp_marker mk) eqn:Hmk; [|discriminate].
    destruct (take_sign r3) as [esg r4] eqn:Ee.
    destruct (span_digits r4) as [ed r5] eqn:Ed.
    apply take_sign_value in Ee as (te & Hte & ->).
    apply span_digits_inv in Ed as [-> Hed].
    destruct ed as [|e0 ed]; [discriminate|].
    destruct r5; [|discriminate]. intros [= <-].
    rewrite app_nil_r. apply numeral; [assumption..|].
    constructor; [assumption..|discriminate|assumption].
Qed.

Lemma py_float_exponent_value ex e sg ip fp :
  exponent_of ex e -> ip ++ fp <> [] ->
  match ip ++ fp with
  | [] => inr ValueError
  | _ :: _ =>
      match ex with
      | [] => inl (decimal_value sg ip fp 0)
      | m :: r3 =>
          if is_exp_marker m then
            let (esg, r4) := take_sign r3 in
            let (ed, r5) := span_digits r4 in
            match ed, r5 with
            | _ :: _, [] => inl (decimal_value sg ip fp (esg * digits_value ed))
            | _, _ => inr ValueError
            end
          else inr ValueError
      end
  end = inl (decimal_value sg ip fp e).
Proof.
  intros Hex Hne. destruct (ip ++ fp) as [|c0 w]; [congruence|].
  destruct Hex as [|m t s ds Hm Ht Hds Hd]; [reflexivity|].
  rewrite Hm.
  destruct ds as [|d0 ds]; [congruence|].
  rewrite (take_sign_of t s (d0 :: ds) Ht).
  2:{ inversion Hd as [|? ? Hd0 _]; subst.
      destruct (digit_facts d0 Hd0) as (H1 & H2 & _). split; assumption. }
  rewrite (span_digits_all _ Hd). reflexivity.
Qed.

Lemma numeral_value_py_float l x : numeral_value l x -> py_float l = inl x.
Proof.
  intros [t s m ip fp ex e Ht Hm Hex]. unfold py_float.
  destruct (exponent_head ex (exponent_of_opt _ _ Hex)) as [Hnd Hnp].
  assert (Hhead : match m ++ ex with
                  | c :: _ => ascii_eqb c "+" = false /\ ascii_eqb c "-" = false
                  | [] => True
                  end).
  { destruct Hm as [ip Hne Hip | ip fp Hne Hip Hfp].
    - destruct ip as [|c ip]; [congruence|]. cbn.
      inversion Hip as [|? ? Hc _]; subst.
      destruct (digit_facts c Hc) as (H1 & H2 & _). split; assumption.
    - destruct ip as [|c ip]; cbn.
      + split; reflexivity.
      + inversion Hip as [|? ? Hc _]; subst.
        destruct (digit_facts c Hc) as (H1 & H2 & _). split; assumption. }
  rewrite (take_sign_of t s (m ++ ex) Ht Hhead).
  destruct Hm as [ip Hne Hip | ip fp Hne Hip Hfp].
  - rewrite (span_digits_app ip ex Hip Hnd).
    replace (match ex with
             | c :: r => if ascii_eqb c "." then span_digits r else ([], ex)
             | [] => ([], ex)
             end) with (@nil ascii, ex).
    2:{ destruct ex as [|c r]; [reflexivity|]. rewrite Hnp. reflexivity. }
    apply py_float_exponent_value; [assumption|]. rewrite app_nil_r. assumption.
  - rewrite <- app_assoc. cbn [app].
    rewrite (span_digits_app ip ("."%char :: fp ++ ex) Hip) by reflexivity.
    cbn [ascii_eqb]. replace (Ascii.eqb "." ".") with true by reflexivity.
    rewrite (span_digits_app fp ex Hfp Hnd).
    apply py_float_exponent_value; assumption.
Qed.

(** C5, as amended: the response is upper-cased, every occurrence of the
    upper-cased unit is deleted and the rest is trimmed.  The result is
    [Some x] exactly when what is left matches the numeric grammar, holds
    at most one ['-'] and at most one ['+'], and [x] is the number it
    stands for; it is [None] exactly when what is left is outside the
    grammar or holds two signs of the same kind.  The function has no
    exceptional outcome. *)
Theorem parse_measurement_accepts (response unit : string) :
  (forall x,
      _parse_measurement (Some response) unit = Some x <->
      (numeral_value (value_str response unit) x /\
       (count_char "-" (value_str response unit) <= 1)%nat /\
       (count_char "+" (value_str response unit) <= 1)%nat)) /\
  (_parse_measurement (Some response) unit = None <->
   ~ (numeric_grammar (value_str response unit) /\
      (count_char "-" (value_str response unit) <= 1)%nat /\
      (count_char "+" (value_str response unit) <= 1)%nat)).
Proof.
  unfold _parse_measurement. set (v := value_str response unit). split.
  - intros x. split.
    + destruct (rejected v) eqn:Hr; [discriminate|].
      destruct (py_float v) as [y|e] eqn:Hf; [|discriminate].
      intros [= <-]. split; [exact (py_float_value v y Hf)|].
      apply guard_counts, Hr.
    + intros (Hv & Hm & Hp).
      rewrite (grammar_passes_guard v (numeral_value_grammar v x Hv) Hm Hp).
      rewrite (numeral_value_py_float v x Hv). reflexivity.
  - split.
    + intros H (Hg & Hm & Hp).
      rewrite (grammar_passes_guard v Hg Hm Hp) in H.
      destruct (grammar_py_float v Hg) as [x Hx]. rewrite Hx in H. discriminate H.
    + intros H. destruct (rejected v) eqn:Hr; [reflexivity|].
      destruct (py_float v) as [y|e] eqn:Hf; [|reflexivity].
      exfalso. apply H. split; [exact (py_float_grammar v y Hf)|].
      apply guard_counts, Hr.
Qed.

Lemma parse_measurement_accepts_witness :
  _parse_measurement (Some "400.5 V") "V"
    = Some (decimal_value 1 (chars "400") (chars "5") 0) /\
  (decimal_value 1 (chars "400") (chars "5") 0 == 4005 # 10)%Q /\
  _parse_measurement (Some "abc") "V" = None.
Proof.
  destruct (parse_measurement_accepts "400.5 V" "V") as [H _].
  destruct (parse_measurement_accepts "abc" "V") as [_ H2].
  split; [|split; [reflexivity|]].
  - apply H. split; [|split; vm_compute; lia].
    change (value_str "400.5 V" "V")
      with ([] ++ (chars "400" ++ "."%char :: chars "5") ++ []).
    apply numeral.
    + constructor.
    + apply mantissa_of_point; [discriminate | repeat constructor | repeat constructor].
    + constructor.
  - apply H2. intros (Hg & _).
    destruct (grammar_py_float _ Hg) as [x Hx]. vm_compute in Hx. discriminate Hx.
Defined.

(** C5, as stated, fails.  ["-1e-5V"] leaves ["-1E-5"], which matches the
    numeric grammar, yet the two minus signs make the guard reject it,
    although a sign on the mantissa alone (["-1e5V"]) and a sign on the
    exponent alone (["1e-5V"]) are both accepted.  And the unit is not
    stripped as a suffix: it is deleted wherever it occurs, so ["1V2"] is
    read as 12. *)
Lemma parse_measurement_rejects_signed_exponent :
  (exists x, _parse_measurement (Some "-1e5V") "V" = Some x) /\
  (exists x, _parse_measurement (Some "1e-5V") "V" = Some x) /\
  _parse_measurement (Some "-1e-5V") "V" = None /\
  ~ ((exists x, _parse_measurement (Some "-1e-5V") "V" = Some x) <->
     numeric_grammar (value_str "-1e-5V" "V")) /\
  _parse_measurement (Some "1V2") "V" = Some (decimal_value 1 (chars "12") [] 0) /\
  (decimal_value 1 (chars "12") [] 0 == 12)%Q.
Proof.
  split; [eexists; reflexivity|].
  split; [eexists; reflexivity|].
  split; [reflexivity|].
  split; [|split; reflexivity].
  intros [_ H].
  assert (G : numeric_grammar (value_str "-1e-5V" "V")).
  { change (value_str "-1e-5V" "V")
      with (["-"%char] ++ ["1"%char] ++ ("E"%char :: ["-"%char] ++ ["5"%char])).
    apply numeric.
    - constructor.
    - apply mant_int; [discriminate|]. repeat constructor.
    - apply exp_some; [reflexivity|constructor|discriminate|repeat constructor]. }
  destruct (H G) as [x Hx]. discriminate Hx.
Qed.

(** ** Migration of legacy steps *)

Lemma migrate_has_type (step : gmap string pyval) v :
  step !! "stop_condition_type" = Some v ->
  _migrate_profile_step step = inl step.
Proof. intros H. unfold _migrate_profile_step. rewrite H. reflexivity. Qed.

Lemma migrate_result_has_type (step m : gmap string pyval) :
  _migrate_profile_step step = inl m ->
  is_Some (m !! "stop_condition_type").
Proof.
  unfold _migrate_profile_step.
  destruct (step !! "stop_condition_type") as [v|] eqn:E.
  - intros [= <-]. rewrite E. eauto.
  - destruct (dict_get step "type" (PStr "CC")) as [|t|]; try discriminate.
    destruct (step !! "stop_voltage"), (String.eqb (str_upper t) "CV");
      intros [= <-]; rewrite lookup_insert_ne, lookup_insert_eq by discriminate;
      eauto.
Qed.

(** C6: a step without ['stop_condition_type'] whose type is a string (or
    absent, read as "CC") gets current/0.1 when the upper-cased type is CV
    and otherwise voltage with its old ['stop_voltage'] value, or 0.0 when
    there was none; a step that has the key is returned unchanged; and
    migrating the result of a migration changes nothing. *)
Theorem migrate_profile_step_correct (step : gmap string pyval) :
  (forall t,
      step !! "stop_condition_type" = None ->
      dict_get step "type" (PStr "CC") = PStr t ->
      exists m,
        _migrate_profile_step step = inl m /\
        m !! "stop_condition_type" =
          Some (PStr (if String.eqb (str_upper t) "CV" then "current" else "voltage")) /\
        m !! "stop_condition_value" =
          Some (if String.eqb (str_upper t) "CV" then PNum 0.1
                else dict_get step "stop_voltage" (PNum 0))) /\
  (is_Some (step !! "stop_condition_type") ->
   _migrate_profile_step step = inl step) /\
  (forall m,
      _migrate_profile_step step = inl m -> _migrate_profile_step m = inl m).
Proof.
  split; [|split].
  - intros t Hnone Hty. unfold _migrate_profile_step, dict_get in *.
    rewrite Hnone, Hty.
    destruct (step !! "stop_voltage") as [sv|],
             (String.eqb (str_upper t) "CV");
      eexists; (split; [reflexivity|]);
      rewrite lookup_insert_ne, !lookup_insert_eq by discriminate;
      split; reflexivity.
  - intros [v Hv]. exact (migrate_has_type step v Hv).
  - intros m Hm. destruct (migrate_result_has_type step m Hm) as [v Hv].
    exact (migrate_has_type m v Hv).
Qed.

Lemma migrate_profile_step_witness :
  exists m,
    _migrate_profile_step legacy_step = inl m /\
    m !! "stop_condition_type" = Some (PStr "current") /\
    m !! "stop_condition_value" = Some (PNum 0.1) /\
    _migrate_profile_step m = inl m /\
    _migrate_profile_step step_cc = inl step_cc.
Proof.
  destruct (migrate_profile_step_correct legacy_step) as (H1 & _ & H3).
  destruct (migrate_profile_step_correct step_cc) as (_ & H2 & _).
  destruct (H1 "cv") as (m & Hm & Ht & Hv);
    [vm_compute; reflexivity | vm_compute; reflexivity |].
  exists m. split; [exact Hm|]. split; [exact Ht|]. split; [exact Hv|].
  split; [exact (H3 m Hm)|].
  apply H2. exists (PStr "voltage"). vm_compute. reflexivity.
Defined.

(** ** The persistence layer *)

(** C10, as amended: [start_new_discharge] returns -1 when the connection
    opens and the INSERT fails (nothing is written); for a negative id
    [log_data_point] and [finish_discharge] return at once and leave the
    whole state, database included, untouched. *)
Theorem persistence_sentinel (env : Env) (st : App) :
  (forall reg_num profile mode,
      sqlite3_connect env (io_count st) = true ->
      sqlite3_execute env (S (S (io_count st))) = false ->
      fst (start_new_discharge reg_num profile mode env st) = Ok (-1) /\
      db (snd (start_new_discharge reg_num profile mode env st)) = db st) /\
  (forall discharge_id elapsed v c p,
      discharge_id < 0 ->
      log_data_point discharge_id elapsed v c p env st = (Ok tt, st)) /\
  (forall discharge_id energy comment,
      discharge_id < 0 ->
      finish_discharge discharge_id energy comment env st = (Ok tt, st)).
Proof.
  split; [|split].
  - intros reg_num profile mode Hc He.
    unfold start_new_discharge, _get_connection, bind, consult, io_count in *.
    cbn. rewrite Hc. cbn. rewrite He. cbn. split; reflexivity.
  - intros id elapsed v c p Hid. unfold log_data_point.
    apply Z.ltb_lt in Hid. rewrite Hid. reflexivity.
  - intros id energy comment Hid. unfold finish_discharge.
    apply Z.ltb_lt in Hid. rewrite Hid. reflexivity.
Qed.

Lemma persistence_sentinel_witness :
  fst (start_new_discharge "KX123" "Default CC" "Real" env_db_locked app_idle) = Ok (-1) /\
  log_data_point (-1) 9 350 10 3500 env_db_locked app_idle = (Ok tt, app_idle) /\
  finish_discharge (-1) 0.5 "" env_db_locked app_idle = (Ok tt, app_idle).
Proof.
  destruct (persistence_sentinel env_db_locked app_idle) as (H1 & H2 & H3).
  split; [|split].
  - apply (H1 "KX123" "Default CC" "Real"); reflexivity.
  - apply H2. reflexivity.
  - apply H3. reflexivity.
Defined.

(** C10, as stated, fails: when the database cannot be opened no session
    is created, yet [start_new_discharge] raises instead of returning
    -1. *)
Lemma start_new_discharge_raises_when_unreachable :
  db (snd (start_new_discharge "KX123" "Default CC" "Real" env_db_unreachable app_idle))
    = db app_idle /\
  fst (start_new_discharge "KX123" "Default CC" "Real" env_db_unreachable app_idle)
    = Raise SqliteError.
Proof. split; reflexivity. Qed.

(** ** Traces only grow *)

Lemma extends_refl P t : extends P t t.
Proof. exists []. split; [reflexivity | constructor]. Qed.

Lemma extends_cons P e t t' :
  P e = true -> extends P t t' -> extends P t (e :: t').
Proof.
  intros He (new & -> & Hn). exists (e :: new).
  split; [reflexivity | constructor; assumption].
Qed.

Lemma extends_trans P a b c : extends P a b -> extends P b c -> extends P a c.
Proof.
  intros (n1 & -> & H1) (n2 & -> & H2). exists (n2 ++ n1).
  split; [apply app_assoc | apply Forall_app; split; assumption].
Qed.

Lemma extends_mono (Q P : event -> bool) a b :
  (forall e, Q e = true -> P e = true) -> extends Q a b -> extends P a b.
Proof.
  intros HQP (n & -> & Hn). exists n. split; [reflexivity|].
  eapply List.Forall_impl; [|exact Hn]. exact HQP.
Qed.

Lemma frame_refl P st : frame P st st.
Proof. constructor; auto using extends_refl. Qed.

Lemma frame_trans P a b c : frame P a b -> frame P b c -> frame P a c.
Proof.
  intros [] []. constructor; try congruence; [auto|].
  eapply extends_trans; eassumption.
Qed.

Lemma frame_mono (Q P : event -> bool) a b :
  (forall e, Q e = true -> P e = true) -> frame Q a b -> frame P a b.
Proof.
  intros HQP []. constructor; try assumption.
  eapply extends_mono; eassumption.
Qed.

Lemma frame_chain (Q P : event -> bool) a b c :
  (forall e, Q e = true -> P e = true) ->
  frame P a b -> frame Q b c -> frame P a c.
Proof.
  intros HQP Hab Hbc. eapply frame_trans; [exact Hab|].
  eapply frame_mono; eassumption.
Qed.

(** Inclusions between the classes of events. *)
Ltac solve_mono :=
  let e := fresh "e" in
  let H := fresh "H" in
  intros e H; destruct e as [[] ?|?|? ?|[[| |] | |] ?|?];
  unfold stop_events, notice_or_command, not_unusual, notice,
    is_unusual_warning, is_command, is_stop_command, is_certificate in *;
  cbn in *;
  repeat match goal with
         | |- context [String.eqb ?a ?b] => destruct (String.eqb a b)
         | H : context [String.eqb ?a ?b] |- _ => destruct (String.eqb a b)
         | b : bool |- _ => destruct b
         end;
  cbn in *; congruence.

Ltac solve_extends :=
  repeat first
    [ apply extends_refl
    | apply extends_cons; [reflexivity|]
    | match goal with
      | H : extends ?Q ?t0 ?t |- extends ?P _ ?t =>
          apply (extends_trans P _ t0 t);
          [ | apply (extends_mono Q P); [solve_mono | exact H] ]
      end ].

(** Closes a [frame] goal whose final state is built from states for
    which frames are among the hypotheses. *)
Ltac split_frames :=
  repeat match goal with
         | F : frame _ _ _ |- _ => destruct F
         end.

Ltac norm :=
  unfold test_mode, connected, sock, resume_available, _reconnect_job,
    running, paused, current_profile_data, current_step,
    current_discharge_id, discharge_comment, energy_discharged, start_time,
    last_time, data_x, data_voltage, data_current, data_power, sim_voltage,
    sim_current, sim_power, sim_resistance_factor, sim_cv_current, db, trace,
    timers, io_count,
    upd_connected, upd_sock, upd_resume_available, upd_reconnect_job,
    upd_running, upd_paused, upd_current_step, upd_current_discharge_id,
    upd_discharge_comment, upd_energy_discharged, upd_start_time,
    upd_last_time, append_sample, upd_sim_voltage, upd_sim_current,
    upd_sim_power, upd_sim_cv_current, upd_db, push_event, upd_timers,
    next_io, with_conn, with_run, with_data, with_sim, with_world in *;
  repeat
    (progress
       (cbv beta iota in *;
        cbn [config conn run data sim world
             c_test_mode c_connected c_sock c_resume_available c_reconnect_job
             r_running r_paused r_current_profile_data r_current_step
             r_current_discharge_id r_discharge_comment
             a_energy_discharged a_start_time a_last_time a_data_x
             a_data_voltage a_data_current a_data_power
             m_sim_voltage m_sim_current m_sim_power m_sim_resistance_factor
             m_sim_cv_current
             w_db w_trace w_timers w_next_timer w_io_count fst snd
             negb andb orb] in *)).

Ltac solve_frame :=
  split_frames; norm;
  constructor; norm;
  [ congruence | congruence | congruence | congruence | congruence
  | auto | solve_extends ].

Create HintDb frames.

(** ** A program logic for frames *)

Section Preserves.
Variable P : event -> bool.

Lemma preserves_ret {A} (a : A) : preserves P (ret a).
Proof. intros env st. apply frame_refl. Qed.

Lemma preserves_raise {A} e : preserves P (@raise A e).
Proof. intros env st. apply frame_refl. Qed.

Lemma preserves_get : preserves P get.
Proof. intros env st. apply frame_refl. Qed.

Lemma preserves_bind {A B} (m : M A) (k : A -> M B) :
  preserves P m -> (forall a, preserves P (k a)) -> preserves P (bind m k).
Proof.
  intros Hm Hk env st. unfold bind. specialize (Hm env st).
  destruct (m env st) as [[a|e] st1]; cbn [snd] in *; [|exact Hm].
  eapply frame_trans; [exact Hm | apply Hk].
Qed.

Lemma preserves_try_except {A} (m : M A) (h : exn -> M A) :
  preserves P m -> (forall e, preserves P (h e)) -> preserves P (try_except m h).
Proof.
  intros Hm Hh env st. unfold try_except. specialize (Hm env st).
  destruct (m env st) as [[a|e] st1]; cbn [snd] in *; [exact Hm|].
  eapply frame_trans; [exact Hm | apply Hh].
Qed.

Lemma preserves_modify f :
  (forall st, frame P st (f st)) -> preserves P (modify f).
Proof. intros Hf env st. apply Hf. Qed.

Lemma preserves_consult {A} (oracle : Env -> nat -> A) :
  preserves P (consult oracle).
Proof. intros env st. cbn. constructor; try reflexivity; [auto|apply extends_refl]. Qed.

Lemma preserves_when b m : preserves P m -> preserves P (when b m).
Proof. intros Hm. destruct b; [exact Hm | apply preserves_ret]. Qed.

Lemma preserves_push e : P e = true -> preserves P (modify (push_event e)).
Proof.
  intros He env st. cbn. constructor; try reflexivity; [auto|].
  apply extends_cons; [exact He | apply extends_refl].
Qed.
End Preserves.

(** A state update that touches none of the framed attributes. *)
Ltac solve_update :=
  let st := fresh "st" in
  intros st; norm; constructor; norm;
  [ reflexivity | reflexivity | reflexivity | reflexivity | reflexivity
  | auto | apply extends_refl ].

Ltac preserves_step :=
  lazymatch goal with
  | |- preserves _ (bind _ _) => apply preserves_bind; [ | intros ? ]
  | |- preserves _ (ret _) => apply preserves_ret
  | |- preserves _ (raise _) => apply preserves_raise
  | |- preserves _ get => apply preserves_get
  | |- preserves _ (try_except _ _) => apply preserves_try_except; [ | intros ? ]
  | |- preserves _ (consult _) => apply preserves_consult
  | |- preserves _ (when _ _) => apply preserves_when
  | |- preserves _ (modify (push_event _)) => apply preserves_push; reflexivity
  | |- preserves _ (modify _) => apply preserves_modify; solve_update
  | |- preserves _ (log _ _) => apply preserves_push; reflexivity
  | |- preserves _ (play_sound _) => apply preserves_push; reflexivity
  | |- preserves _ (messagebox _ _) => apply preserves_push; reflexivity
  | |- preserves _ (if ?c then _ else _) =>
      let C := fresh "C" in
      destruct c eqn:C;
      try solve [exfalso; revert C; rewrite ?andb_false_r; cbn; discriminate]
  | |- preserves _ (match ?c with _ => _ end) => destruct c
  | |- preserves _ _ =>
      let env := fresh "env" in
      let st := fresh "st" in
      intros env st; eapply frame_mono; [ | solve [eauto 2 with frames] ];
      solve_mono
  end.

Ltac preserves_tac := repeat preserves_step.

(** Turns a frame goal for a call into a goal of the program logic. *)
Ltac by_preserves :=
  lazymatch goal with
  | |- frame ?P ?st (snd (?m ?env ?st)) =>
      apply (fun H : preserves P m => H env st)
  end.

(** Case analysis on the next call, whose frame is looked up among the
    lemmas proved so far. *)
Ltac call :=
  match goal with
  | |- context [match ?c with _ => _ end] =>
      lazymatch type of c with
      | (res _ * App)%type =>
          let F := fresh "F" in
          assert (F : frame _ _ (snd c)) by (solve [eauto 2 with frames]);
          let r := fresh "r" in
          let s := fresh "s" in
          destruct c as [[r|r] s] eqn:?; cbn [snd fst] in F |- *; cbv beta iota
      end
  end.

Ltac unfold_monad :=
  unfold when, log, play_sound, messagebox, after, after_cancel, uniform,
    py_num, py_upper, py_le, current_step_dict in *;
  unfold bind, ret, raise, try_except, get, modify, consult in *;
  cbv beta iota.

(** Case analysis on the remaining conditions of a goal. *)
Ltac split_cases :=
  repeat match goal with
         | |- context [match ?c with _ => _ end] =>
             lazymatch type of c with
             | (res _ * App)%type => fail
             | _ => destruct c eqn:?; cbv beta iota
             end
         | |- context [if ?c then _ else _] => destruct c eqn:?; cbv beta iota
         end.

(** ** Frames of the individual operations *)

Lemma after_frame ms cb env st : frame notice st (snd (after ms cb env st)).
Proof. by_preserves. unfold after. preserves_tac. Qed.

Lemma after_cancel_frame id env st : frame notice st (snd (after_cancel id env st)).
Proof. by_preserves. unfold after_cancel. preserves_tac. Qed.

#[local] Hint Resolve after_frame after_cancel_frame : frames.

Lemma _get_connection_frame env st : frame notice st (snd (_get_connection env st)).
Proof. by_preserves. unfold _get_connection. preserves_tac. Qed.

#[local] Hint Resolve _get_connection_frame : frames.

Lemma finish_discharge_frame id energy comment env st :
  frame notice st (snd (finish_discharge id energy comment env st)).
Proof. by_preserves. unfold finish_discharge. preserves_tac. Qed.

Lemma log_data_point_frame id elapsed v c p env st :
  frame notice st (snd (log_data_point id elapsed v c p env st)).
Proof. by_preserves. unfold log_data_point. preserves_tac. Qed.

Lemma get_discharge_data_frame id env st :
  frame notice st (snd (get_discharge_data id env st)).
Proof. by_preserves. unfold get_discharge_data. preserves_tac. Qed.

Lemma _schedule_reconnect_frame env st :
  frame notice st (snd (_schedule_reconnect env st)).
Proof. by_preserves. unfold _schedule_reconnect. preserves_tac. Qed.

Lemma _cancel_reconnect_frame env st :
  frame notice st (snd (_cancel_reconnect env st)).
Proof. by_preserves. unfold _cancel_reconnect. preserves_tac. Qed.

#[local] Hint Resolve finish_discharge_frame log_data_point_frame
  get_discharge_data_frame _schedule_reconnect_frame _cancel_reconnect_frame
  : frames.

Lemma handle_connection_loss_frame env st :
  frame notice st (snd (handle_connection_loss env st)).
Proof. by_preserves. unfold handle_connection_loss. preserves_tac. Qed.

#[local] Hint Resolve handle_connection_loss_frame : frames.

Lemma scpi_command_frame c env st :
  frame notice_or_command st (snd (scpi_command c env st)).
Proof. by_preserves. unfold scpi_command. preserves_tac. Qed.

Lemma scpi_query_frame q env st :
  frame notice st (snd (scpi_query q env st)).
Proof. by_preserves. unfold scpi_query. preserves_tac. Qed.

#[local] Hint Resolve scpi_command_frame scpi_query_frame : frames.

Lemma connect_instrument_frame env st :
  frame notice st (snd (connect_instrument env st)).
Proof. by_preserves. unfold connect_instrument. preserves_tac. Qed.

#[local] Hint Resolve connect_instrument_frame : frames.

Lemma reconnect_tick_frame env st :
  frame notice st (snd (reconnect_tick env st)).
Proof. by_preserves. unfold reconnect_tick. preserves_tac. Qed.

#[local] Hint Resolve reconnect_tick_frame : frames.

Lemma create_discharge_certificate_frame env st :
  frame (stop_events true) st (snd (create_discharge_certificate env st)).
Proof. by_preserves. unfold create_discharge_certificate. preserves_tac. Qed.

#[local] Hint Resolve create_discharge_certificate_frame : frames.

Lemma scpi_stop_command_frame env st :
  frame (stop_events false) st (snd (scpi_command (INPut_STATe 0) env st)).
Proof. by_preserves. unfold scpi_command. preserves_tac. Qed.

Lemma stop_discharge_frame g env st :
  frame (stop_events g) st (snd (stop_discharge g env st)).
Proof.
  by_preserves. unfold stop_discharge. destruct g.
  all: repeat first
    [ lazymatch goal with
      | |- preserves _ (scpi_command (INPut_STATe 0)) =>
          intros ? ?; eapply frame_mono; [|apply scpi_stop_command_frame];
          solve_mono
      end
    | preserves_step ].
Qed.

#[local] Hint Resolve stop_discharge_frame : frames.

Lemma apply_profile_step_frame env st :
  frame not_unusual st (snd (apply_profile_step env st)).
Proof.
  by_preserves. unfold apply_profile_step, current_step_dict, py_upper.
  preserves_tac.
Qed.

#[local] Hint Resolve apply_profile_step_frame : frames.

Lemma _simulate_measurements_frame env st :
  frame notice st (snd (_simulate_measurements env st)).
Proof.
  by_preserves.
  unfold _simulate_measurements, current_step_dict, py_upper, py_num, uniform.
  preserves_tac.
Qed.

#[local] Hint Resolve _simulate_measurements_frame : frames.

Lemma fetch_measurements_frame env st :
  frame notice st (snd (fetch_measurements env st)).
Proof. by_preserves. unfold fetch_measurements. preserves_tac. Qed.

#[local] Hint Resolve fetch_measurements_frame : frames.

Lemma acquire_frame env st : frame notice st (snd (acquire env st)).
Proof. by_preserves. unfold acquire. preserves_tac. Qed.

#[local] Hint Resolve acquire_frame : frames.

(** ** What a frame says about the observations *)

Lemma filter_extends (P F : event -> bool) t t' :
  (forall e, P e = true -> F e = false) ->
  extends P t t' -> List.filter F t' = List.filter F t.
Proof.
  intros HPF (new & -> & Hn). rewrite List.filter_app.
  induction Hn as [|e new He Hn IH]; [reflexivity|].
  cbn [List.filter app]. rewrite (HPF e He). exact IH.
Qed.

Ltac solve_excl :=
  let e := fresh "e" in
  let H := fresh "H" in
  intros e H; destruct e as [[] ?|?|? ?|[[| |] | |] ?|?];
  unfold stop_events, notice_or_command, not_unusual, notice,
    is_unusual_warning, is_command, is_stop_command, is_certificate in *;
  cbn in *;
  repeat match goal with
         | |- context [String.eqb ?a ?b] => destruct (String.eqb a b)
         | H : context [String.eqb ?a ?b] |- _ => destruct (String.eqb a b)
         end;
  cbn in *; congruence.

Lemma frame_certificates P st st' :
  (forall e, P e = true -> is_certificate e = false) ->
  frame P st st' -> certificates st' = certificates st.
Proof.
  intros HP F. unfold certificates.
  rewrite (filter_extends P is_certificate _ _ HP (keep_events _ _ _ F)).
  reflexivity.
Qed.

Lemma frame_unusual P st st' :
  (forall e, P e = true -> is_unusual_warning e = false) ->
  frame P st st' -> unusual_warnings st' = unusual_warnings st.
Proof.
  intros HP F. unfold unusual_warnings.
  rewrite (filter_extends P is_unusual_warning _ _ HP (keep_events _ _ _ F)).
  reflexivity.
Qed.

Lemma commands_of_app a b : commands_of (a ++ b) = commands_of b ++ commands_of a.
Proof.
  induction a as [|e a IH]; cbn [app commands_of].
  - rewrite app_nil_r. reflexivity.
  - destruct e; try exact IH. rewrite IH, app_assoc. reflexivity.
Qed.

Lemma commands_of_extends P t t' :
  (forall e, P e = true -> is_command e = false) ->
  extends P t t' -> commands_of t' = commands_of t.
Proof.
  intros HP (new & -> & Hn). rewrite commands_of_app.
  induction Hn as [|e new He Hn IH]; [apply app_nil_r|].
  specialize (HP e He). destruct e; cbn [commands_of]; try exact IH.
  discriminate HP.
Qed.

Lemma frame_commands P st st' :
  (forall e, P e = true -> is_command e = false) ->
  frame P st st' -> command_log st' = command_log st.
Proof.
  intros HP F. exact (commands_of_extends P _ _ HP (keep_events _ _ _ F)).
Qed.

(** A call in tail position cannot start a run. *)
Ltac tail_stopped :=
  lazymatch goal with
  | |- r_running (run (snd (?f ?env ?b))) = false =>
      eapply (keep_stopped _ b); [solve [eauto 2 with frames] | ]
  end.

(** ** Connection loss *)

Lemma stop_discharge_stops g env st : running (snd (stop_discharge g env st)) = false.
Proof.
  unfold stop_discharge.
  change (bind get ?k env st) with (k st env st). cbv beta.
  change (bind (modify ?f) ?k env st) with (k tt env (f st)). cbv beta.
  change (bind (modify ?f) ?k env ?s) with (k tt env (f s)). cbv beta.
  match goal with
  | |- running (snd (?m env ?s)) = false =>
      apply (keep_stopped (stop_events g) s); [|reflexivity];
      apply (fun H : preserves (stop_events g) m => H env s)
  end.
  destruct g.
  all: repeat first
    [ lazymatch goal with
      | |- preserves _ (scpi_command (INPut_STATe 0)) =>
          intros ? ?; eapply frame_mono; [|apply scpi_stop_command_frame];
          solve_mono
      end
    | preserves_step ].
Qed.

(** The timer that [_schedule_reconnect] adds from [st]. *)
Lemma schedule_reconnect_spec env st :
  test_mode st = false -> auto_reconnect (config st) = true ->
  let st' := snd (_schedule_reconnect env st) in
  fst (_schedule_reconnect env st) = Ok tt /\
  _reconnect_job st' <> None /\
  (_reconnect_job st = None ->
   _reconnect_job st' = Some (w_next_timer (world st)) /\
   timers st' =
     timers st ++
     [{| t_id := w_next_timer (world st);
         t_delay_ms := py_int (auto_reconnect_interval_s (config st) * 1000);
         t_callback := CbReconnectTick |}]).
Proof.
  intros Ht Ha. unfold _schedule_reconnect. unfold_monad. norm.
  rewrite Ht, Ha. cbn [negb orb].
  destruct (c_reconnect_job (conn st)) as [j|] eqn:Hj; norm.
  - rewrite Hj. repeat split; congruence.
  - repeat split; congruence.
Qed.




(** ** Reconnecting *)

Lemma _cancel_reconnect_returns env st : fst (_cancel_reconnect env st) = Ok tt.
Proof.
  unfold _cancel_reconnect. unfold_monad. norm.
  destruct (c_reconnect_job (conn st)); reflexivity.
Qed.

(** C9: the reconnect callback never starts a run; after a successful
    connect with the current step inside a non-empty profile it sets
    [resume_available]; and [_resume_after_reconnect] starts a run only
    when resuming was available, the instrument is connected and the
    operator answered yes. *)
Theorem reconnect_never_resumes (env : Env) (st : App) :
  (running st = false -> running (snd (reconnect_tick env st)) = false) /\
  (test_mode st = false ->
   connected st = false ->
   socket_connect env (io_count st) = true ->
   current_profile_data st <> [] ->
   (current_step st < length (current_profile_data st))%nat ->
   resume_available (snd (reconnect_tick env st)) = true) /\
  (running st = false ->
   running (snd (_resume_after_reconnect env st)) = true ->
   resume_available st = true /\ connected st = true /\
   askyesno env (io_count st) = true).
Proof.
  split; [|split].
  - apply (keep_stopped notice), reconnect_tick_frame.
  - intros Ht Hc Hs Hp Hi.
    unfold reconnect_tick, connect_instrument. unfold_monad. norm.
    rewrite Hc, Ht. norm. rewrite Hs. norm.
    match goal with
    | |- context [_cancel_reconnect env ?s] =>
        pose proof (_cancel_reconnect_returns env s) as Hk;
        pose proof (_cancel_reconnect_frame env s) as F1;
        destruct (_cancel_reconnect env s) as [[[]|x] s1]; [|discriminate Hk]
    end.
    norm.
    assert (G : forall s2,
              frame notice s1 s2 ->
              c_resume_available
                (conn
                   (snd
                      ((if (match r_current_profile_data (run s2) with
                            | [] => false
                            | _ :: _ => true
                            end
                            && (r_current_step (run s2)
                                <? length (r_current_profile_data (run s2)))%nat)%bool
                        then fun (_ : Env) (st0 : App) =>
                               (Ok tt, upd_resume_available true st0)
                        else fun (_ : Env) (st0 : App) => (Ok tt, st0)) env s2)))
              = true).
    { intros s2 F2. destruct F1, F2. norm.
      replace (r_current_profile_data (run s2))
        with (r_current_profile_data (run st)) by congruence.
      replace (r_current_step (run s2)) with (r_current_step (run st))
        by congruence.
      destruct (r_current_profile_data (run st)) as [|d l] eqn:E; [congruence|].
      apply Nat.ltb_lt in Hi. rewrite Hi. reflexivity. }
    pose proof (scpi_query_frame IDN_q env s1) as F2.
    destruct (scpi_query IDN_q env s1) as [[o|x] s2]; norm; apply (G s2 F2).
  - intros Hr. unfold _resume_after_reconnect. unfold_monad. norm.
    destruct (c_resume_available (conn st)) eqn:Ha; norm; [|congruence].
    destruct (c_connected (conn st)) eqn:Hc; norm; [|congruence].
    rewrite Hr. norm.
    destruct (askyesno env (w_io_count (world st))) eqn:Hy; norm; [|congruence].
    intros _. repeat split.
Qed.

Lemma reconnect_never_resumes_witness :
  running (snd (reconnect_tick (env_answers "400 V" "10 A" "4000 W" 1020)
                  app_after_loss)) = false /\
  resume_available (snd (reconnect_tick (env_answers "400 V" "10 A" "4000 W" 1020)
                           app_after_loss)) = true /\
  (resume_available app_reconnected = true /\ connected app_reconnected = true /\
   askyesno (env_answers "400 V" "10 A" "4000 W" 1030) (io_count app_reconnected)
     = true).
Proof.
  destruct (reconnect_never_resumes (env_answers "400 V" "10 A" "4000 W" 1020)
              app_after_loss) as (H1 & H2 & _).
  destruct (reconnect_never_resumes (env_answers "400 V" "10 A" "4000 W" 1030)
              app_reconnected) as (_ & _ & H3).
  split; [|split].
  - apply H1. reflexivity.
  - apply H2; [reflexivity | reflexivity | reflexivity | discriminate |].
    vm_compute. lia.
  - apply H3; [reflexivity|]. vm_compute. reflexivity.
Defined.

(** ** The periodic loop *)

(** Names the call in tail position and brings in its frame. *)
Ltac tail_frame :=
  match goal with
  | |- context [snd (?f ?env ?s)] =>
      lazymatch type of (f env s) with
      | (res _ * App)%type =>
          let F := fresh "F" in
          assert (F : frame _ s (snd (f env s)))
            by (solve [eauto 2 with frames]);
          let r := fresh "r" in
          let s' := fresh "s" in
          destruct (f env s) as [r s']; cbn [snd fst] in F |- *
      end
  end.

(** [check_stop_condition] leaves everything framed alone except the
    position in the profile. *)
Lemma check_stop_condition_frame v c env st :
  frame not_unusual
    (upd_current_step (current_step (snd (check_stop_condition v c env st))) st)
    (snd (check_stop_condition v c env st)).
Proof.
  unfold check_stop_condition. unfold_monad. norm.
  split_cases; norm;
    try (tail_frame; split_frames; norm; constructor; norm;
         [ congruence | congruence | congruence | congruence | congruence
         | auto | solve_extends ]);
    solve_frame.
Qed.


Lemma integrate_energy_spec p env s :
  exists et s2,
    integrate_energy p env s = (Ok et, s2) /\
    config s2 = config s /\ conn s2 = conn s /\ run s2 = run s /\
    sim s2 = sim s /\ db s2 = db s /\ io_count s2 = S (io_count s) /\
    (let delta := (time_time env (io_count s) - time_of (last_time s))%Q in
     if (truthy (start_time s) && truthy (last_time s))%bool then
       if valid_interval delta then
         energy_discharged s2 =
           (energy_discharged s + p * delta / 3600000)%Q /\
         trace s2 = trace s
       else
         energy_discharged s2 = energy_discharged s /\
         trace s2 = EvLog WARNING "Unusual step time" :: trace s
     else energy_discharged s2 = energy_discharged s /\ trace s2 = trace s).
Proof.
  unfold integrate_energy, valid_interval. unfold_monad. norm.
  destruct (truthy (a_start_time (data s))); norm;
    [destruct (truthy (a_last_time (data s))); norm;
     [match goal with
      | |- context [if (?a && ?b)%bool then _ else _] => destruct (a && b)%bool
      end; norm|]|];
    do 2 eexists; (split; [reflexivity|]); norm; repeat split; reflexivity.
Qed.

(** A tick that obtains a reading: where the energy, the warnings and the
    position in the profile of the state after the tick come from. *)
Lemma tick_with_reading env st v c p s1 et s2 :
  running st = true -> connected st = true -> paused st = false ->
  acquire env st = (Ok (Some (v, c, p)), s1) ->
  integrate_energy p env s1 = (Ok et, s2) ->
  let s3 := append_sample et v c p s2 in
  let logged := log_data_point (current_discharge_id s3) et v c p env s3 in
  let st' := snd (run_update_loop env st) in
  energy_discharged st' = energy_discharged s2 /\
  extends not_unusual (trace s2) (trace st') /\
  (fst logged = Ok tt ->
   current_step st' =
     current_step (snd (check_stop_condition v c env (snd logged)))).
Proof.
  intros Hr Hc Hp Ha Hi s3 logged st'. subst st' logged s3.
  unfold run_update_loop, update_body. unfold_monad. norm.
  rewrite Hr, Hc, Hp. norm. rewrite Ha. norm. rewrite Hi. norm.
  match goal with
  | |- context [log_data_point ?i ?e ?a ?b ?d env ?s] =>
      pose proof (log_data_point_frame i e a b d env s) as F4;
      destruct (log_data_point i e a b d env s) as [[[]|x] s4]
  end; norm.
  - pose proof (check_stop_condition_frame v c env s4) as F5.
    destruct (check_stop_condition v c env s4) as [[[]|x] s5]; norm.
    all: destruct F4, F5; norm.
    all: destruct (r_running (run s5)); norm.
    all: (split; [rewrite keep_data1, keep_data0; reflexivity|]);
      (split; [solve_extends|]); reflexivity.
  - destruct F4; norm.
    destruct (r_running (run s4)); norm.
    all: (split; [rewrite keep_data0; reflexivity|]);
      (split; [solve_extends|]); discriminate.
Qed.

Lemma Qltb_lt x y : Qltb x y = true <-> (x < y)%Q.
Proof.
  unfold Qltb. rewrite negb_true_iff. split.
  - intros H. apply Qnot_le_lt. intros Hle.
    apply Qle_bool_iff in Hle. congruence.
  - intros H. destruct (Qle_bool y x) eqn:E; [|reflexivity].
    apply Qle_bool_iff in E. exfalso. exact (Qlt_not_le _ _ H E).
Qed.

Lemma valid_interval_iff delta :
  valid_interval delta = true <-> (0 < delta /\ delta < 5)%Q.
Proof.
  unfold valid_interval. rewrite andb_true_iff, !Qltb_lt. reflexivity.
Qed.

(** C2: a tick that reaches the integration (running, connected, not
    paused, a reading acquired, start and last tick times set) adds
    [power * delta / 3_600_000] to the energy when [0 < delta < 5.0] and
    logs no step-time warning; otherwise it leaves the energy as it is and
    logs exactly one such warning; 1000 W over 1 s contribute 0.0002778 kWh
    to within 1e-6. *)
Theorem energy_integration (env : Env) (st : App) (v c p : Q) (s1 : App) :
  running st = true -> connected st = true -> paused st = false ->
  acquire env st = (Ok (Some (v, c, p)), s1) ->
  truthy (start_time st) = true -> truthy (last_time st) = true ->
  let delta := (time_time env (io_count s1) - time_of (last_time st))%Q in
  let st' := snd (run_update_loop env st) in
  (energy_discharged st' == energy_discharged st + integrate p delta)%Q /\
  ((0 < delta /\ delta < 5)%Q ->
   energy_discharged st' = (energy_discharged st + p * delta / 3600000)%Q /\
   unusual_warnings st' = unusual_warnings st) /\
  (~ (0 < delta /\ delta < 5)%Q ->
   energy_discharged st' = energy_discharged st /\
   unusual_warnings st' = S (unusual_warnings st)) /\
  (Qabs (integrate 1000 1 - 0.0002778) < 0.000001)%Q.
Proof.
  intros Hr Hc Hp Ha Hs Hl delta st'.
  pose proof (acquire_frame env st) as F1. rewrite Ha in F1. cbn [snd] in F1.
  destruct (integrate_energy_spec p env s1)
    as (et & s2 & Hi & _ & _ & _ & _ & _ & _ & Hspec).
  destruct (tick_with_reading env st v c p s1 et s2 Hr Hc Hp Ha Hi)
    as (He & Hx & _).
  fold st' in He, Hx.
  assert (Hu1 : unusual_warnings s1 = unusual_warnings st).
  { apply (frame_unusual notice); [solve_excl | exact F1]. }
  assert (Hu2 : unusual_warnings st' = unusual_warnings s2).
  { unfold unusual_warnings. f_equal.
    apply (filter_extends not_unusual); [|exact Hx].
    intros e. unfold not_unusual. apply negb_true_iff. }
  assert (Hd : data s1 = data st) by apply F1.
  unfold start_time, last_time, energy_discharged in *.
  rewrite Hd, Hs, Hl in Hspec. cbn [andb] in Hspec. fold delta in Hspec.
  unfold integrate.
  assert (Hq : (Qabs (1000 * 1 / 3600000 - 0.0002778) < 0.000001)%Q).
  { vm_compute. reflexivity. }
  destruct (valid_interval delta) eqn:Hv.
  - destruct Hspec as [E T]. split; [rewrite He, E; reflexivity|].
    split; [|split].
    + intros _. split; [congruence|].
      rewrite Hu2. unfold unusual_warnings. rewrite T. exact Hu1.
    + intros Hn. apply valid_interval_iff in Hv. contradiction.
    + exact Hq.
  - destruct Hspec as [E T]. split; [rewrite He, E; ring|].
    split; [|split].
    + intros Hn. apply valid_interval_iff in Hn. congruence.
    + intros _. split; [congruence|].
      rewrite Hu2. unfold unusual_warnings. rewrite T.
      cbn [List.filter is_unusual_warning String.eqb Ascii.eqb Bool.eqb length].
      f_equal. exact Hu1.
    + exact Hq.
Qed.

Lemma energy_integration_witness :
  let env := env_answers "350.0 V" "10.0 A" "1000 W" 1010 in
  let st := app_running default_config false [step_cc] in
  let st' := snd (run_update_loop env st) in
  energy_discharged st' = (energy_discharged st + 1000 * (1010 - 1009) / 3600000)%Q /\
  unusual_warnings st' = unusual_warnings st.
Proof.
  intros env st st'.
  assert (Ha : acquire env st =
               (Ok (Some (3500 # 10, 100 # 10, 1000 # 1)%Q), snd (acquire env st)))
    by (vm_compute; reflexivity).
  destruct (energy_integration env st _ _ _ _ eq_refl eq_refl eq_refl Ha
              eq_refl eq_refl) as (_ & H & _ & _).
  apply H. split; vm_compute; reflexivity.
Defined.

(** One tick never lowers the energy when the power it reads, if any, is
    not negative. *)
Lemma tick_energy_le env st :
  (forall p, tick_power env st = Some p -> (0 <= p)%Q) ->
  (energy_discharged st <= energy_discharged (snd (run_update_loop env st)))%Q.
Proof.
  intros Hpow. unfold tick_power in Hpow.
  assert (Same : forall s, data s = data st ->
                 (energy_discharged st <= energy_discharged s)%Q).
  { intros s Hs. unfold energy_discharged. rewrite Hs. apply Qle_refl. }
  destruct (running st) eqn:Hr.
  2:{ unfold run_update_loop. unfold_monad. norm. rewrite Hr. norm.
      apply Qle_refl. }
  destruct (connected st) eqn:Hc.
  2:{ apply Same. unfold run_update_loop. unfold_monad. norm.
      rewrite Hr, Hc. norm.
      destruct (c_test_mode (conn st)); norm.
      - rewrite Hr. norm. reflexivity.
      - call; destruct F; norm; [|assumption].
        destruct (r_running (run s)); norm; assumption. }
  destruct (paused st) eqn:Hp.
  { apply Same. unfold run_update_loop. unfold_monad. norm.
    rewrite Hr, Hc, Hp. norm. rewrite Hr. norm. reflexivity. }
  cbn [andb negb] in Hpow.
  pose proof (acquire_frame env st) as F1.
  destruct (acquire env st) as [[[[[v c] p]|]|x] s1] eqn:Ha; cbn [fst snd] in *.
  - destruct (integrate_energy_spec p env s1)
      as (et & s2 & Hi & _ & _ & _ & _ & _ & _ & Hspec).
    destruct (tick_with_reading env st v c p s1 et s2 Hr Hc Hp Ha Hi)
      as (He & _ & _).
    rewrite He. specialize (Hpow p eq_refl).
    assert (Hd : energy_discharged s1 = energy_discharged st).
    { unfold energy_discharged. f_equal. apply F1. }
    cbv zeta in Hspec.
    destruct (truthy (start_time s1) && truthy (last_time s1))%bool.
    + destruct (valid_interval _) eqn:Hv.
      * destruct Hspec as [-> _]. rewrite Hd.
        apply valid_interval_iff in Hv. destruct Hv as [Hpos _].
        rewrite <- (Qplus_0_r (energy_discharged st)) at 1.
        apply Qplus_le_r. unfold Qdiv.
        apply Qmult_le_0_compat; [apply Qmult_le_0_compat|].
        -- exact Hpow.
        -- apply Qlt_le_weak. exact Hpos.
        -- discriminate.
      * destruct Hspec as [-> _]. rewrite Hd. apply Qle_refl.
    + destruct Hspec as [-> _]. rewrite Hd. apply Qle_refl.
  - apply Same. unfold run_update_loop, update_body. unfold_monad. norm.
    rewrite Hr, Hc, Hp. norm. rewrite Ha. norm.
    destruct F1. destruct (c_test_mode (conn st)); norm.
    + call; destruct F; norm; [congruence|].
      destruct (r_running (run s)); norm; congruence.
    + assumption.
  - apply Same. unfold run_update_loop, update_body. unfold_monad. norm.
    rewrite Hr, Hc, Hp. norm. rewrite Ha. norm.
    destruct F1. destruct (r_running (run s1)); norm; assumption.
Qed.

(** C7, as amended: over any number of successive ticks in which every
    power reading is non-negative, the energy never decreases from one
    tick to the next (whatever the intervals between the ticks). *)
Theorem energy_non_decreasing (n : nat) (env : Env) (st : App) :
  nonnegative_power n env st ->
  non_decreasing (energy_discharged st :: map energy_discharged (run_ticks n env st)).
Proof.
  revert st. induction n as [|n IH]; intros st H.
  - exact I.
  - destruct H as [Hp Hrest]. cbn [run_ticks map non_decreasing]. split.
    + apply tick_energy_le. exact Hp.
    + apply IH. exact Hrest.
Qed.

Lemma energy_non_decreasing_witness :
  let env := env_answers "350.0 V" "10.0 A" "1000 W" 1010 in
  let st := app_running default_config false [step_cc] in
  tick_power env st = Some (1000 # 1)%Q /\
  non_decreasing (energy_discharged st :: map energy_discharged (run_ticks 2 env st)).
Proof.
  intros env st. split; [vm_compute; reflexivity|].
  apply energy_non_decreasing. cbn [nonnegative_power].
  split; [|split; [|exact I]].
  - intros p H. vm_compute in H. injection H as <-. vm_compute. discriminate.
  - intros p H. vm_compute in H. discriminate H.
Defined.

(** C7, as stated, fails: the instrument reports [-1000 W] one second
    after the previous tick, and the energy drops. *)
Lemma energy_decreases_with_negative_power :
  let env := env_answers "350.0 V" "10.0 A" "-1000 W" 1010 in
  let st := app_running default_config false [step_cc] in
  valid_interval (time_time env 6 - time_of (last_time st)) = true /\
  ~ non_decreasing (energy_discharged st :: map energy_discharged (run_ticks 1 env st)).
Proof.
  intros env st. split; [vm_compute; reflexivity|].
  cbn [run_ticks map non_decreasing]. intros [H _]. revert H.
  vm_compute. intros H. apply H. reflexivity.
Qed.






Lemma scpi_query_answered q env s r :
  test_mode s = false -> connected s = true -> sock s = true ->
  socket_sendall env (io_count s) = IoOk ->
  socket_recv env (S (io_count s)) = Received r ->
  exists s',
    scpi_query q env s = (Ok (Some (str_strip r)), s') /\
    same_but_log s s' /\ io_count s' = S (S (io_count s)).
Proof.
  intros Ht Hc Hs Hsend Hrecv. unfold scpi_query, same_but_log.
  unfold_monad. norm. rewrite Ht, Hc, Hs. norm. rewrite Hsend. norm.
  rewrite Hrecv. norm.
  match goal with
  | |- context [if ?b then _ else _] => destruct b
  end; norm; eexists; (split; [reflexivity|]); norm; repeat split; reflexivity.
Qed.

Lemma fetch_measurements_unparsed env st rv rc rp :
  test_mode st = false -> connected st = true -> sock st = true ->
  socket_sendall env (io_count st) = IoOk ->
  socket_recv env (1 + io_count st) = Received rv ->
  socket_sendall env (2 + io_count st) = IoOk ->
  socket_recv env (3 + io_count st) = Received rc ->
  socket_sendall env (4 + io_count st) = IoOk ->
  socket_recv env (5 + io_count st) = Received rp ->
  (_parse_measurement (Some (str_strip rv)) "V" = None \/
   _parse_measurement (Some (str_strip rc)) "A" = None \/
   _parse_measurement (Some (str_strip rp)) "W" = None) ->
  exists s',
    fetch_measurements env st = (Ok None, s') /\ same_but_log st s'.
Proof.
  intros Ht Hc Hs S0 R1 S2 R3 S4 R5 Hfail. cbn [Nat.add] in *.
  destruct (scpi_query_answered MEASure_VOLTage_q env st rv Ht Hc Hs S0 R1)
    as (s1 & Q1 & K1 & I1).
  assert (C1 : conn s1 = conn st) by apply K1.
  destruct (scpi_query_answered MEASure_CURRent_q env s1 rc) as (s2 & Q2 & K2 & I2).
  1-3: unfold test_mode, connected, sock in *; rewrite C1; assumption.
  1-2: rewrite I1; assumption.
  assert (C2 : conn s2 = conn s1) by apply K2.
  destruct (scpi_query_answered MEASure_POWer_q env s2 rp) as (s3 & Q3 & K3 & I3).
  1-3: unfold test_mode, connected, sock in *; rewrite C2, C1; assumption.
  1-2: rewrite I2, I1; assumption.
  unfold fetch_measurements.
  change (bind get ?k env st) with (k st env st). cbv beta.
  rewrite Ht, Hc. cbn [negb]. unfold bind at 1. rewrite Q1.
  unfold bind at 1. rewrite Q2. unfold bind at 1. rewrite Q3.
  assert (K : same_but_log st s3).
  { unfold same_but_log in *.
    destruct K1 as (?&?&?&?&?&?&?&?), K2 as (?&?&?&?&?&?&?&?),
             K3 as (?&?&?&?&?&?&?&?).
    repeat split; congruence. }
  destruct (_parse_measurement (Some (str_strip rv)) "V") as [pv|] eqn:PV;
    [destruct (_parse_measurement (Some (str_strip rc)) "A") as [pc|] eqn:PC;
     [destruct (_parse_measurement (Some (str_strip rp)) "W") as [pp|] eqn:PP;
      [exfalso; destruct Hfail as [H|[H|H]]; discriminate H|]|]|].
  all: unfold_monad; eexists; (split; [reflexivity|]).
  all: unfold same_but_log in *; norm; exact K.
Qed.

(** C4, as amended: in a live tick (running, connected, not paused) in
    which the instrument answers all three queries but at least one
    answer does not parse, the tick returns normally, the run keeps
    running, energy, samples, position, session id and database are
    unchanged and the next tick is scheduled; in test mode a failed
    simulation stops the run and no certificate is written. *)
Theorem failed_acquisition (env : Env) (st : App) :
  (forall rv rc rp,
      test_mode st = false -> running st = true -> connected st = true ->
      sock st = true -> paused st = false ->
      socket_sendall env (io_count st) = IoOk ->
      socket_recv env (1 + io_count st) = Received rv ->
      socket_sendall env (2 + io_count st) = IoOk ->
      socket_recv env (3 + io_count st) = Received rc ->
      socket_sendall env (4 + io_count st) = IoOk ->
      socket_recv env (5 + io_count st) = Received rp ->
      (_parse_measurement (Some (str_strip rv)) "V" = None \/
       _parse_measurement (Some (str_strip rc)) "A" = None \/
       _parse_measurement (Some (str_strip rp)) "W" = None) ->
      let st' := snd (run_update_loop env st) in
      fst (run_update_loop env st) = Ok tt /\
      running st' = true /\ run st' = run st /\ data st' = data st /\
      sim st' = sim st /\ db st' = db st /\
      timers st' =
        timers st ++
        [{| t_id := w_next_timer (world st); t_delay_ms := 1000;
            t_callback := CbRunUpdateLoop |}]) /\
  (test_mode st = true -> running st = true -> connected st = true ->
   paused st = false ->
   fst (_simulate_measurements env st) = Ok None ->
   let st' := snd (run_update_loop env st) in
   running st' = false /\ certificates st' = certificates st).
Proof.
  split.
  - intros rv rc rp Ht Hr Hc Hs Hp S0 R1 S2 R3 S4 R5 Hfail st'. subst st'.
    destruct (fetch_measurements_unparsed env st rv rc rp Ht Hc Hs S0 R1 S2 R3
                S4 R5 Hfail) as (s1 & Hf & K).
    unfold run_update_loop, update_body, acquire. unfold_monad.
    repeat (progress (norm; rewrite ?Hr, ?Hc, ?Hp, ?Ht, ?Hf)).
    destruct K as (K1 & K2 & K3 & K4 & K5 & K6 & K7 & K8). norm.
    rewrite K3, K4, K5, K6, K7, K8. repeat split; try reflexivity; assumption.
  - intros Ht Hr Hc Hp Hsim st'. subst st'.
    pose proof (_simulate_measurements_frame env st) as F1.
    unfold run_update_loop, update_body, acquire. unfold_monad.
    repeat (progress (norm; rewrite ?Hr, ?Hc, ?Hp, ?Ht)).
    destruct (_simulate_measurements env st) as [[o|x] s1]; cbn [fst snd] in *;
      [|discriminate Hsim].
    injection Hsim as ->. repeat (progress (norm; rewrite ?Ht)).
    pose proof (stop_discharge_stops false env
                  (push_event (EvLog ERROR "Simulation failed.") s1)) as Hstop.
    pose proof (stop_discharge_frame false env
                  (push_event (EvLog ERROR "Simulation failed.") s1)) as F2.
    norm.
    match goal with
    | |- context [stop_discharge false env ?s] =>
        destruct (stop_discharge false env s) as [[[]|x] s2]
    end; norm.
    + split; [exact Hstop|].
      unfold certificates. f_equal.
      apply (filter_extends (stop_events false)); [solve_excl|].
      destruct F1, F2. norm. solve_extends.
    + rewrite Hstop. norm. split; [exact Hstop|].
      unfold certificates. norm. f_equal.
      apply (filter_extends (stop_events false)); [solve_excl|].
      destruct F1, F2. norm. solve_extends.
Qed.

Lemma failed_acquisition_witness :
  let env := env_answers "abc" "10.0 A" "3000 W" 1010 in
  let st := app_running default_config false [step_cc] in
  let st_test := app_running default_config true [step_bad_value] in
  (fst (run_update_loop env st) = Ok tt /\
   running (snd (run_update_loop env st)) = true /\
   run (snd (run_update_loop env st)) = run st /\
   data (snd (run_update_loop env st)) = data st /\
   db (snd (run_update_loop env st)) = db st) /\
  (running (snd (run_update_loop env st_test)) = false /\
   certificates (snd (run_update_loop env st_test)) = certificates st_test).
Proof.
  intros env st st_test.
  destruct (failed_acquisition env st) as [Ha _].
  destruct (failed_acquisition env st_test) as [_ Hb].
  split.
  - destruct (Ha "abc" "10.0 A" "3000 W") as (H1 & H2 & H3 & H4 & _ & H6 & _);
      try reflexivity.
    + left. reflexivity.
    + repeat split; assumption.
  - apply Hb; reflexivity.
Defined.

(** C4, as stated, fails: when the readings are missing because the
    socket fails, the tick returns normally but the run is stopped and its
    session closed. *)
Lemma missing_reading_after_socket_error_stops_run :
  let st := app_running default_config false [step_cc] in
  test_mode st = false /\ running st = true /\ paused st = false /\
  fst (fetch_measurements env_socket_down st) = Ok None /\
  fst (run_update_loop env_socket_down st) = Ok tt /\
  running (snd (run_update_loop env_socket_down st)) = false /\
  current_discharge_id (snd (run_update_loop env_socket_down st)) = -1.
Proof. cbv zeta. repeat split; reflexivity. Qed.

(** ** Applying a step *)

Lemma commands_of_cons_command c o t :
  commands_of (EvCommand c o :: t) = commands_of t ++ [(c, o)].
Proof. reflexivity. Qed.

(** Every call of [scpi_command] is recorded, with its outcome, and a
    call that returns [true] was sent or bypassed. *)
Lemma scpi_command_log c env s :
  exists o,
    command_log (snd (scpi_command c env s)) = command_log s ++ [(c, o)] /\
    (fst (scpi_command c env s) = Ok true -> o = Sent \/ o = Bypassed) /\
    (o = Sent \/ o = Bypassed -> fst (scpi_command c env s) = Ok true).
Proof.
  unfold scpi_command, command_log. unfold_monad. norm.
  destruct (c_test_mode (conn s)); norm.
  { exists Bypassed. repeat split; auto. }
  destruct (negb (c_connected (conn s)) || negb (c_sock (conn s)))%bool; norm.
  { exists NotConnected. repeat split; try discriminate.
    intros [H|H]; discriminate H. }
  destruct (socket_sendall env (w_io_count (world s))); norm.
  - exists Sent. repeat split; auto.
  - exists SendFailed. call; norm.
    all: destruct F as [_ _ _ _ _ _ Fe];
      apply (commands_of_extends notice) in Fe; [|solve_excl]; norm.
    all: split;
      [ rewrite Fe; reflexivity
      | split; [discriminate | intros [H|H]; discriminate H] ].
  - exists SendFailed. call; norm.
    all: destruct F as [_ _ _ _ _ _ Fe];
      apply (commands_of_extends notice) in Fe; [|solve_excl]; norm.
    all: split;
      [ rewrite Fe; reflexivity
      | split; [discriminate | intros [H|H]; discriminate H] ].
Qed.

Lemma commands_of_grow P t t' :
  extends P t t' -> exists rest, commands_of t' = commands_of t ++ rest.
Proof. intros (new & -> & _). rewrite commands_of_app. eauto. Qed.

Lemma stop_discharge_no_report env s :
  running (snd (stop_discharge false env s)) = false /\
  certificates (snd (stop_discharge false env s)) = certificates s /\
  exists rest,
    command_log (snd (stop_discharge false env s)) = command_log s ++ rest.
Proof.
  pose proof (stop_discharge_frame false env s) as F.
  split; [apply stop_discharge_stops|]. split.
  - apply (frame_certificates (stop_events false)); [solve_excl | exact F].
  - exact (commands_of_grow _ _ _ (keep_events _ _ _ F)).
Qed.



(* ===================================================================== *)
(** * Beyond the specification: what the code itself shows *)
(* ===================================================================== *)

(** ** A program logic for relations between states *)

Section Relates.
Variable R : App -> App -> Prop.
Hypothesis R_refl : forall s, R s s.
Hypothesis R_trans : forall a b c, R a b -> R b c -> R a c.

Lemma relates_ret {A} (a : A) : relates R (ret a).
Proof. intros env st. apply R_refl. Qed.

Lemma relates_raise {A} e : relates R (@raise A e).
Proof. intros env st. apply R_refl. Qed.

Lemma relates_get : relates R get.
Proof. intros env st. apply R_refl. Qed.

Lemma relates_bind {A B} (m : M A) (k : A -> M B) :
  relates R m -> (forall a, relates R (k a)) -> relates R (bind m k).
Proof.
  intros Hm Hk env st. unfold bind. specialize (Hm env st).
  destruct (m env st) as [[a|e] st1]; cbn [snd] in *; [|exact Hm].
  eapply R_trans; [exact Hm | apply Hk].
Qed.

Lemma relates_try_except {A} (m : M A) (h : exn -> M A) :
  relates R m -> (forall e, relates R (h e)) -> relates R (try_except m h).
Proof.
  intros Hm Hh env st. unfold try_except. specialize (Hm env st).
  destruct (m env st) as [[a|e] st1]; cbn [snd] in *; [exact Hm|].
  eapply R_trans; [exact Hm | apply Hh].
Qed.

Lemma relates_modify f : (forall st, R st (f st)) -> relates R (modify f).
Proof. intros Hf env st. apply Hf. Qed.

Lemma relates_consult {A} (oracle : Env -> nat -> A) :
  (forall st, R st (next_io st)) -> relates R (consult oracle).
Proof. intros Hn env st. apply Hn. Qed.

Lemma relates_when b m : relates R m -> relates R (when b m).
Proof. intros Hm. destruct b; [exact Hm | apply relates_ret]. Qed.
End Relates.

(** One step of a proof in the logic: [refl] and [trans] are the two
    facts about the relation, [prim] closes the goal for a state update
    and [known] the goal for an operation treated before. *)
Ltac relates_step refl trans prim known :=
  lazymatch goal with
  | |- relates _ (bind _ _) => apply (relates_bind _ trans); [ | intros ? ]
  | |- relates _ (ret _) => apply (relates_ret _ refl)
  | |- relates _ (raise _) => apply (relates_raise _ refl)
  | |- relates _ get => apply (relates_get _ refl)
  | |- relates _ (try_except _ _) =>
      apply (relates_try_except _ trans); [ | intros ? ]
  | |- relates _ (consult _) => apply relates_consult; prim
  | |- relates _ (when _ _) => apply (relates_when _ refl)
  | |- relates _ (modify _) => apply relates_modify; prim
  | |- relates _ (log _ _) => apply relates_modify; prim
  | |- relates _ (play_sound _) => apply relates_modify; prim
  | |- relates _ (messagebox _ _) => apply relates_modify; prim
  | |- relates _ (if ?c then _ else _) => destruct c
  | |- relates _ (match ?c with _ => _ end) => destruct c
  | |- relates _ _ => known
  end.

(** ** The database only grows and stays well formed *)

Lemma same_session_refl r : same_session r r.
Proof. repeat split. Qed.

Lemma Forall2_same_session_refl l : Forall2 same_session l l.
Proof. induction l; constructor; auto using same_session_refl. Qed.

Lemma same_session_trans a b c :
  same_session a b -> same_session b c -> same_session a c.
Proof. unfold same_session. intros (?&?&?&?&?) (?&?&?&?&?). repeat split; congruence. Qed.

Lemma Forall2_same_session_trans l1 l2 l3 :
  Forall2 same_session l1 l2 -> Forall2 same_session l2 l3 ->
  Forall2 same_session l1 l3.
Proof.
  intros H. revert l3. induction H; intros l3 H3; inversion H3; subst;
    constructor; eauto using same_session_trans.
Qed.

Lemma db_grows_refl d : db_grows d d.
Proof.
  split; [|split].
  - exists []. symmetry. apply app_nil_r.
  - exists (discharges d), []. split; [symmetry; apply app_nil_r|].
    apply Forall2_same_session_refl.
  - lia.
Qed.

Lemma db_grows_trans a b c : db_grows a b -> db_grows b c -> db_grows a c.
Proof.
  intros ([m1 P1] & (o1 & r1 & D1 & F1) & N1) ([m2 P2] & (o2 & r2 & D2 & F2) & N2).
  split; [|split].
  - exists (m1 ++ m2). rewrite P2, P1. symmetry. apply app_assoc.
  - rewrite D1 in F2. apply Forall2_app_inv_l in F2 as (o2a & o2b & Fa & Fb & ->).
    exists o2a, (o2b ++ r2). split.
    + rewrite D2. symmetry. apply app_assoc.
    + eapply Forall2_same_session_trans; eassumption.
  - lia.
Qed.

Lemma db_step_refl st : db_step st st.
Proof. split; [apply db_grows_refl | auto]. Qed.

Lemma db_step_trans a b c : db_step a b -> db_step b c -> db_step a c.
Proof.
  intros [G1 W1] [G2 W2]. split; [eapply db_grows_trans; eassumption | auto].
Qed.

(** The three statements that write. *)
Lemma insert_discharge_step reg profile mode now d :
  db_grows d (insert_discharge reg profile mode now d) /\
  (db_wf d -> db_wf (insert_discharge reg profile mode now d)).
Proof.
  split.
  - split; [|split]; cbn.
    + exists []. symmetry. apply app_nil_r.
    + eexists _, _. split; [reflexivity | apply Forall2_same_session_refl].
    + lia.
  - intros (Hn & Hr & Hd). split; [|split]; cbn.
    + lia.
    + apply Forall_app. split.
      * eapply List.Forall_impl; [|exact Hr]. cbn. intros r ?. lia.
      * constructor; [cbn; lia | constructor].
    + rewrite map_app. cbn. apply NoDup_app. split; [exact Hd|]. split.
      * intros x Hx Hx'. apply list_elem_of_singleton in Hx'. subst x.
        apply list_elem_of_In, in_map_iff in Hx as (r & Hr1 & Hr2).
        rewrite List.Forall_forall in Hr. specialize (Hr r Hr2). lia.
      * apply NoDup_singleton.
Qed.

Lemma insert_data_point_step id now elapsed v c p d :
  db_grows d (insert_data_point id now elapsed v c p d) /\
  (db_wf d -> db_wf (insert_data_point id now elapsed v c p d)).
Proof.
  split.
  - split; [|split]; cbn.
    + eexists. reflexivity.
    + exists (discharges d), []. split; [symmetry; apply app_nil_r|].
      apply Forall2_same_session_refl.
    + lia.
  - intros H. exact H.
Qed.

Lemma update_discharge_ids id now energy comment d :
  map d_id (discharges (update_discharge id now energy comment d)) =
  map d_id (discharges d).
Proof.
  cbn. rewrite map_map. apply map_ext. intros r.
  destruct (d_id r =? id); reflexivity.
Qed.

Lemma update_discharge_step id now energy comment d :
  db_grows d (update_discharge id now energy comment d) /\
  (db_wf d -> db_wf (update_discharge id now energy comment d)).
Proof.
  split.
  - split; [|split]; cbn.
    + exists []. symmetry. apply app_nil_r.
    + eexists _, []. split; [symmetry; apply app_nil_r|].
      induction (discharges d) as [|r l IH]; cbn; constructor; [|exact IH].
      destruct (d_id r =? id); repeat split.
    + lia.
  - intros (Hn & Hr & Hd). split; [exact Hn|]. split.
    + cbn. apply Forall_map. eapply List.Forall_impl; [|exact Hr].
      cbn. intros r ?. destruct (d_id r =? id); cbn; lia.
    + rewrite update_discharge_ids. exact Hd.
Qed.

Ltac db_prim :=
  let st := fresh "st" in
  intros st;
  first [ exact (db_step_refl st)
        | apply insert_discharge_step
        | apply insert_data_point_step
        | apply update_discharge_step ].

Create HintDb db_steps.

Ltac db_known := solve [eauto 2 with db_steps].

Ltac db_tac :=
  repeat relates_step db_step_refl db_step_trans db_prim db_known.

Lemma _get_connection_db : relates db_step _get_connection.
Proof. unfold _get_connection. db_tac. Qed.
#[local] Hint Resolve _get_connection_db : db_steps.

(** The writers read the table they update from the current state. *)
Ltac db_writer :=
  let env := fresh "env" in
  let st := fresh "st" in
  intros env st; unfold_monad; unfold io_count, db, next_io, upd_db, with_world;
  cbn [world w_io_count w_db];
  repeat match goal with
         | |- context [if ?c then _ else _] => destruct c; cbv beta iota
         end;
  cbn [snd];
  first [ exact (db_step_refl st)
        | apply insert_discharge_step
        | apply insert_data_point_step
        | apply update_discharge_step ].

Lemma start_new_discharge_db reg profile mode :
  relates db_step (start_new_discharge reg profile mode).
Proof. unfold start_new_discharge, _get_connection. db_writer. Qed.

Lemma log_data_point_db id elapsed v c p :
  relates db_step (log_data_point id elapsed v c p).
Proof. unfold log_data_point, _get_connection. db_writer. Qed.

Lemma finish_discharge_db id energy comment :
  relates db_step (finish_discharge id energy comment).
Proof. unfold finish_discharge, _get_connection. db_writer. Qed.

Lemma get_discharge_data_db id : relates db_step (get_discharge_data id).
Proof. unfold get_discharge_data. db_tac. Qed.
#[local] Hint Resolve start_new_discharge_db log_data_point_db
  finish_discharge_db get_discharge_data_db : db_steps.

Ltac db_op := intros; db_tac.

Lemma after_db ms cb : relates db_step (after ms cb).
Proof. unfold after. db_op. Qed.
Lemma after_cancel_db id : relates db_step (after_cancel id).
Proof. unfold after_cancel. db_op. Qed.
#[local] Hint Resolve after_db after_cancel_db : db_steps.

Lemma _schedule_reconnect_db : relates db_step _schedule_reconnect.
Proof. unfold _schedule_reconnect. db_op. Qed.
Lemma _cancel_reconnect_db : relates db_step _cancel_reconnect.
Proof. unfold _cancel_reconnect. db_op. Qed.
#[local] Hint Resolve _schedule_reconnect_db _cancel_reconnect_db : db_steps.

Lemma handle_connection_loss_db : relates db_step handle_connection_loss.
Proof. unfold handle_connection_loss. db_op. Qed.
#[local] Hint Resolve handle_connection_loss_db : db_steps.

Lemma scpi_command_db c : relates db_step (scpi_command c).
Proof. unfold scpi_command. db_op. Qed.
Lemma scpi_query_db q : relates db_step (scpi_query q).
Proof. unfold scpi_query. db_op. Qed.
#[local] Hint Resolve scpi_command_db scpi_query_db : db_steps.

Lemma connect_instrument_db : relates db_step connect_instrument.
Proof. unfold connect_instrument. db_op. Qed.
#[local] Hint Resolve connect_instrument_db : db_steps.

Lemma reconnect_tick_db : relates db_step reconnect_tick.
Proof. unfold reconnect_tick. db_op. Qed.

Lemma create_discharge_certificate_db : relates db_step create_discharge_certificate.
Proof. unfold create_discharge_certificate. db_op. Qed.
#[local] Hint Resolve create_discharge_certificate_db : db_steps.

Lemma stop_discharge_db g : relates db_step (stop_discharge g).
Proof. unfold stop_discharge. db_op. Qed.
#[local] Hint Resolve stop_discharge_db : db_steps.

Lemma apply_profile_step_db : relates db_step apply_profile_step.
Proof. unfold apply_profile_step, current_step_dict, py_upper. db_op. Qed.
#[local] Hint Resolve apply_profile_step_db : db_steps.

Lemma _simulate_measurements_db : relates db_step _simulate_measurements.
Proof.
  unfold _simulate_measurements, current_step_dict, py_upper, py_num, uniform.
  db_op.
Qed.
#[local] Hint Resolve _simulate_measurements_db : db_steps.

Lemma fetch_measurements_db : relates db_step fetch_measurements.
Proof. unfold fetch_measurements. db_op. Qed.
#[local] Hint Resolve fetch_measurements_db : db_steps.

Lemma run_update_loop_db : relates db_step run_update_loop.
Proof.
  unfold run_update_loop, update_body, acquire, integrate_energy,
    check_stop_condition, current_step_dict, py_le.
  db_op.
Qed.
#[local] Hint Resolve run_update_loop_db : db_steps.

Lemma _resume_after_reconnect_db : relates db_step _resume_after_reconnect.
Proof. unfold _resume_after_reconnect. db_op. Qed.

Lemma reset_data_internal_db : relates db_step reset_data_internal.
Proof. unfold reset_data_internal, update_measurement_display. db_op. Qed.
#[local] Hint Resolve reset_data_internal_db : db_steps.

Lemma confirm_reset_data_db : relates db_step confirm_reset_data.
Proof. unfold confirm_reset_data. db_op. Qed.

Lemma toggle_pause_discharge_db : relates db_step toggle_pause_discharge.
Proof. unfold toggle_pause_discharge. db_op. Qed.

Lemma confirm_stop_discharge_db : relates db_step confirm_stop_discharge.
Proof. unfold confirm_stop_discharge. db_op. Qed.

Lemma disconnect_instrument_db : relates db_step disconnect_instrument.
Proof. unfold disconnect_instrument. db_op. Qed.
#[local] Hint Resolve disconnect_instrument_db : db_steps.

Lemma toggle_test_mode_db : relates db_step toggle_test_mode.
Proof. unfold toggle_test_mode, update_measurement_display. db_op. Qed.

Lemma start_discharge_db profiles name : relates db_step (start_discharge profiles name).
Proof. unfold start_discharge, ask_operator_and_location. db_op. Qed.

Lemma on_closing_db : relates db_step on_closing.
Proof. unfold on_closing. db_op. Qed.

(** X1: whatever an operation of the controller does, the database
    afterwards holds all it held before: the data points logged so far
    come first and unchanged, every session row is still there with its
    id, registration number, profile, start time and mode, and the next
    row id has not gone down. *)
Theorem database_only_grows (env : Env) (st : App) :
  (forall profiles name,
      db_grows (db st) (db (snd (start_discharge profiles name env st)))) /\
  db_grows (db st) (db (snd (run_update_loop env st))) /\
  (forall g, db_grows (db st) (db (snd (stop_discharge g env st)))) /\
  db_grows (db st) (db (snd (confirm_stop_discharge env st))) /\
  db_grows (db st) (db (snd (toggle_pause_discharge env st))) /\
  db_grows (db st) (db (snd (handle_connection_loss env st))) /\
  db_grows (db st) (db (snd (reconnect_tick env st))) /\
  db_grows (db st) (db (snd (_resume_after_reconnect env st))) /\
  db_grows (db st) (db (snd (confirm_reset_data env st))) /\
  db_grows (db st) (db (snd (toggle_test_mode env st))) /\
  db_grows (db st) (db (snd (on_closing env st))).
Proof.
  split; [intros; apply start_discharge_db|].
  split; [apply run_update_loop_db|].
  split; [intros; apply stop_discharge_db|].
  split; [apply confirm_stop_discharge_db|].
  split; [apply toggle_pause_discharge_db|].
  split; [apply handle_connection_loss_db|].
  split; [apply reconnect_tick_db|].
  split; [apply _resume_after_reconnect_db|].
  split; [apply confirm_reset_data_db|].
  split; [apply toggle_test_mode_db | apply on_closing_db].
Qed.

(** X2: the session table stays well formed under every operation of the
    controller: row ids remain positive, pairwise different and below the
    next id to be given out. *)
Theorem database_stays_well_formed (env : Env) (st : App) :
  db_wf (db st) ->
  (forall profiles name, db_wf (db (snd (start_discharge profiles name env st)))) /\
  db_wf (db (snd (run_update_loop env st))) /\
  (forall g, db_wf (db (snd (stop_discharge g env st)))) /\
  db_wf (db (snd (confirm_stop_discharge env st))) /\
  db_wf (db (snd (toggle_pause_discharge env st))) /\
  db_wf (db (snd (handle_connection_loss env st))) /\
  db_wf (db (snd (reconnect_tick env st))) /\
  db_wf (db (snd (_resume_after_reconnect env st))) /\
  db_wf (db (snd (confirm_reset_data env st))) /\
  db_wf (db (snd (toggle_test_mode env st))) /\
  db_wf (db (snd (on_closing env st))).
Proof.
  intros W.
  split; [intros; apply start_discharge_db, W|].
  split; [apply run_update_loop_db, W|].
  split; [intros; apply stop_discharge_db, W|].
  split; [apply confirm_stop_discharge_db, W|].
  split; [apply toggle_pause_discharge_db, W|].
  split; [apply handle_connection_loss_db, W|].
  split; [apply reconnect_tick_db, W|].
  split; [apply _resume_after_reconnect_db, W|].
  split; [apply confirm_reset_data_db, W|].
  split; [apply toggle_test_mode_db, W | apply on_closing_db, W].
Qed.

Lemma db_one_session_wf : db_wf db_one_session.
Proof.
  split; [reflexivity|]. split.
  - repeat constructor.
  - cbn. apply NoDup_singleton.
Qed.

Lemma database_stays_well_formed_witness :
  db_wf (db (snd (run_update_loop (env_answers "301.0 V" "10.0 A" "3010 W" 1010)
                    (app_running default_config false [step_cc])))) /\
  db_wf (db (snd (stop_discharge true (env_answers "301.0 V" "10.0 A" "3010 W" 1010)
                    (app_running default_config false [step_cc])))).
Proof.
  destruct (database_stays_well_formed
              (env_answers "301.0 V" "10.0 A" "3010 W" 1010)
              (app_running default_config false [step_cc]) db_one_session_wf)
    as (_ & H1 & H2 & _).
  split; [exact H1 | exact (H2 true)].
Defined.

(** ** Reading a session back *)

Lemma find_fresh_row l n row :
  Forall (fun r => 0 < d_id r < n) l -> d_id row = n ->
  List.find (fun r => d_id r =? n) (l ++ [row]) = Some row.
Proof.
  intros Hl Hrow. induction Hl as [|r l Hr Hl IH]; cbn.
  - rewrite Hrow, Z.eqb_refl. reflexivity.
  - destruct (Z.eqb_spec (d_id r) n); [lia | exact IH].
Qed.

Lemma find_closed_row id now energy comment d row :
  List.find (fun r => d_id r =? id) (discharges d) = Some row ->
  exists row',
    List.find (fun r => d_id r =? id)
      (discharges (update_discharge id now energy comment d)) = Some row' /\
    same_session row row' /\
    d_end_time row' = Some now /\
    d_total_energy_discharged row' = Some energy /\
    d_discharge_comment row' = Some comment.
Proof.
  cbn. induction (discharges d) as [|r l IH]; cbn; [discriminate|].
  destruct (d_id r =? id) eqn:E; cbn; rewrite E.
  - intros [= <-]. eexists. split; [reflexivity|]. repeat split.
  - exact IH.
Qed.

(** X3: a session written by [start_new_discharge] into a well-formed
    table gets the next row id, which is positive; once it has been closed
    by [finish_discharge], [get_discharge_data] finds its row, and the row
    carries the registration number, profile and mode it was started with
    and the energy, comment and closing time it was closed with. *)
Theorem session_round_trip (env env1 env2 : Env) (st : App)
    (reg profile mode comment : string) (energy : Q) :
  db_wf (db st) ->
  sqlite3_connect env (io_count st) = true ->
  sqlite3_execute env (2 + io_count st) = true ->
  let id := next_rowid (db st) in
  let st1 := snd (start_new_discharge reg profile mode env st) in
  let st2 := snd (finish_discharge id energy comment env1 st1) in
  sqlite3_connect env1 (io_count st1) = true ->
  sqlite3_execute env1 (2 + io_count st1) = true ->
  sqlite3_connect env2 (io_count st2) = true ->
  sqlite3_execute env2 (1 + io_count st2) = true ->
  fst (start_new_discharge reg profile mode env st) = Ok id /\
  0 < id /\
  fst (finish_discharge id energy comment env1 st1) = Ok tt /\
  exists xs row,
    fst (get_discharge_data id env2 st2) = Ok (Some xs, Some row) /\
    d_id row = id /\
    d_registration_number row = reg /\
    d_profile_name row = profile /\
    d_mode row = mode /\
    d_start_time row = datetime_now env (1 + io_count st) /\
    d_end_time row = Some (datetime_now env1 (1 + io_count st1)) /\
    d_total_energy_discharged row = Some energy /\
    d_discharge_comment row = Some comment.
Proof.
  intros (Hn & Hr & Hd) Hc He id st1 st2. cbn [Nat.add] in *.
  assert (E1 : start_new_discharge reg profile mode env st =
               (Ok id,
                upd_db (insert_discharge reg profile mode
                          (datetime_now env (S (io_count st))) (db st))
                  (next_io (next_io (next_io st))))).
  { unfold start_new_discharge, _get_connection. unfold_monad.
    unfold io_count in *. rewrite Hc. cbn. rewrite He. reflexivity. }
  assert (Hs1 : st1 = snd (Ok id,
                upd_db (insert_discharge reg profile mode
                          (datetime_now env (S (io_count st))) (db st))
                  (next_io (next_io (next_io st)))))
    by (unfold st1; rewrite E1; reflexivity).
  cbn [snd] in Hs1. clearbody st1. rewrite E1. clear E1.
  intros Hc1 He1. cbn [Nat.add] in *.
  assert (Hid : (id <? 0) = false) by (apply Z.ltb_ge; subst id; lia).
  assert (E2 : finish_discharge id energy comment env1 st1 =
               (Ok tt,
                upd_db (update_discharge id (datetime_now env1 (S (io_count st1)))
                          energy comment (db st1))
                  (next_io (next_io (next_io st1))))).
  { unfold finish_discharge, _get_connection. rewrite Hid. unfold_monad.
    unfold io_count in *. rewrite Hc1. cbn. rewrite He1. reflexivity. }
  assert (Hs2 : st2 = snd (Ok tt,
                upd_db (update_discharge id (datetime_now env1 (S (io_count st1)))
                          energy comment (db st1))
                  (next_io (next_io (next_io st1)))))
    by (unfold st2; rewrite E2; reflexivity).
  cbn [snd] in Hs2. clearbody st2. rewrite E2. clear E2.
  intros Hc2 He2. cbn [Nat.add] in *.
  split; [reflexivity|]. split; [subst id; lia|]. split; [reflexivity|].
  assert (F1 : List.find (fun r => d_id r =? id) (discharges (db st1)) =
               Some {| d_id := id; d_registration_number := reg;
                       d_profile_name := profile;
                       d_start_time := datetime_now env (S (io_count st));
                       d_end_time := None; d_total_energy_discharged := None;
                       d_discharge_comment := None; d_mode := mode |}).
  { rewrite Hs1. apply find_fresh_row; [exact Hr | reflexivity]. }
  destruct (find_closed_row id (datetime_now env1 (S (io_count st1))) energy
              comment (db st1) _ F1)
    as (row & Frow & (S1 & S2 & S3 & S4 & S5) & C1 & C2 & C3).
  eexists _, row. split.
  - unfold get_discharge_data, _get_connection. rewrite Hid. unfold_monad.
    unfold io_count in *. rewrite Hc2. cbn [fst snd]. unfold next_io, with_world.
    cbn [world w_io_count]. rewrite He2. cbn [fst].
    apply (f_equal Ok). apply f_equal2; [reflexivity|].
    rewrite Hs2. exact Frow.
  - cbn in S1, S2, S3, S4, S5. repeat split; assumption.
Qed.

Lemma session_round_trip_witness :
  let env := env_answers "301.0 V" "10.0 A" "3010 W" 1010 in
  let st := app_running default_config false [step_cc] in
  exists xs row,
    fst (get_discharge_data 2 env
           (snd (finish_discharge 2 0.75 "done" env
                   (snd (start_new_discharge "KX123" "Default CC" "Real" env st)))))
      = Ok (Some xs, Some row) /\
    d_registration_number row = "KX123" /\
    d_total_energy_discharged row = Some 0.75%Q /\
    d_discharge_comment row = Some "done".
Proof.
  intros env st.
  destruct (session_round_trip env env env st "KX123" "Default CC" "Real" "done" 0.75
              db_one_session_wf eq_refl eq_refl eq_refl eq_refl eq_refl eq_refl)
    as (_ & _ & _ & xs & row & H & _ & Hreg & _ & _ & _ & _ & He & Hc).
  exists xs, row. repeat split; assumption.
Defined.

(** ** The periodic loop *)

(** X4: a tick never raises while the instrument counts as connected, in
    test mode, or when no run is in progress: whatever the instrument
    answers, the database does or the profile holds is caught inside the
    loop. *)
Theorem run_update_loop_never_raises (env : Env) (st : App) :
  connected st = true \/ test_mode st = true \/ running st = false ->
  fst (run_update_loop env st) = Ok tt.
Proof.
  intros H. unfold run_update_loop. unfold_monad. norm.
  destruct (r_running (run st)) eqn:Hr; norm; [|reflexivity].
  destruct (c_connected (conn st) && negb (r_paused (run st)))%bool eqn:Hcp.
  - destruct (update_body env st) as [[[|]|e] s]; norm; try reflexivity.
    all: destruct (r_running (run s)); reflexivity.
  - assert (Hn : (negb (c_connected (conn st)) && negb (c_test_mode (conn st)))%bool = false).
    { destruct H as [H|[H|H]]; try rewrite H; try discriminate;
        cbn; rewrite ?andb_false_r; reflexivity. }
    rewrite Hn. norm. rewrite Hr. reflexivity.
Qed.

Lemma run_update_loop_never_raises_witness :
  fst (run_update_loop env_socket_down (app_running default_config false [step_cc]))
    = Ok tt /\
  fst (run_update_loop env_db_unreachable
         (app_running default_config true [step_bad_value])) = Ok tt.
Proof.
  split.
  - apply run_update_loop_never_raises. left. reflexivity.
  - apply run_update_loop_never_raises. right. left. reflexivity.
Defined.

Lemma handle_connection_loss_stops env st :
  test_mode st = false -> running (snd (handle_connection_loss env st)) = false.
Proof.
  intros Ht. unfold handle_connection_loss. unfold_monad. norm. rewrite Ht. norm.
  destruct (r_running (run st)) eqn:Hr; norm.
  - destruct (r_current_discharge_id (run st) =? -1); norm.
    + tail_stopped. reflexivity.
    + call; norm; [|destruct F; auto].
      tail_stopped. norm. destruct F. auto.
  - tail_stopped. norm. exact Hr.
Qed.

Lemma after_tick ms cb env st :
  after ms cb env st =
    (Ok (w_next_timer (world st)),
     upd_timers (timers st ++ [{| t_id := w_next_timer (world st);
                                  t_delay_ms := ms; t_callback := cb |}])
       (S (w_next_timer (world st))) st).
Proof. reflexivity. Qed.

(** What [update_body] leaves when it reports that the function
    returned. *)
Lemma update_body_returned env st s :
  update_body env st = (Ok true, s) ->
  running s = false \/ exists earlier id, timers s = earlier ++ [next_tick id].
Proof.
  unfold update_body.
  change (bind get ?k env st) with (k st env st). cbv beta.
  unfold bind at 1. destruct (acquire env st) as [[[[[v c] p]|]|e] s1];
    [| |discriminate].
  - unfold bind. intros H.
    destruct (integrate_energy p env s1) as [[et|e] s2]; [|discriminate].
    unfold modify, get in H.
    destruct (log_data_point _ _ _ _ _ _ _) as [[[]|e] s3]; [|discriminate].
    destruct (check_stop_condition _ _ _ _) as [[[]|e] s4]; discriminate.
  - destruct (test_mode st); cbn [negb].
    + unfold bind, log, modify. intros H.
      pose proof (stop_discharge_stops false env
                    (push_event (EvLog ERROR "Simulation failed.") s1)) as Hs.
      destruct (stop_discharge false env _) as [[[]|e] s2]; [|discriminate].
      injection H as <-. left. exact Hs.
    + unfold bind, log, modify. rewrite after_tick. unfold ret.
      intros [= <-]. right. eexists _, _. reflexivity.
Qed.

Lemma reschedule_tail env s r :
  r = (st0 <- get ;;
       when (running st0) (_ <- after 1000 CbRunUpdateLoop ;; ret tt)) env s ->
  running (snd r) = true ->
  exists earlier id, timers (snd r) = earlier ++ [next_tick id].
Proof.
  change (bind get ?k env s) with (k s env s). cbv beta.
  destruct (running s) eqn:Hs; cbn [when].
  - unfold bind. rewrite after_tick. unfold ret. intros -> _. cbn [snd].
    eexists _, _. reflexivity.
  - unfold ret. intros ->. cbn [snd]. congruence.
Qed.

Lemma run_update_loop_rescheduled env st r :
  r = run_update_loop env st ->
  running (snd r) = true ->
  exists earlier id, timers (snd r) = earlier ++ [next_tick id].
Proof.
  unfold run_update_loop.
  change (bind get ?k env st) with (k st env st). cbv beta.
  destruct (running st) eqn:Hr; cbn [negb];
    [|unfold ret; intros ->; cbn [snd]; congruence].
  destruct (connected st && negb (paused st))%bool.
  - unfold bind at 1. unfold try_except.
    pose proof (update_body_returned env st) as Hb.
    destruct (update_body env st) as [[[|]|e] s].
    + unfold ret. intros -> Hs. cbn [snd] in *.
      destruct (Hb s eq_refl) as [H|H]; [congruence | exact H].
    + apply reschedule_tail.
    + unfold log, play_sound, modify, bind at 1, bind at 1, ret at 1.
      apply reschedule_tail.
  - destruct (negb (connected st) && negb (test_mode st))%bool eqn:Hn.
    + apply andb_prop in Hn as [_ Ht]. apply negb_true_iff in Ht.
      unfold bind at 1. unfold bind at 1.
      pose proof (handle_connection_loss_stops env st Ht) as Hs.
      destruct (handle_connection_loss env st) as [[[]|e] s]; cbn [snd] in Hs.
      * unfold ret at 1. apply reschedule_tail.
      * intros ->. cbn [snd]. congruence.
    + unfold bind at 1. unfold ret at 1. apply reschedule_tail.
Qed.

(** X5: a run that is still running after a tick has its next tick
    scheduled: the newest timer is the one that calls the loop again
    after 1000 ms. *)
Theorem running_tick_is_rescheduled (env : Env) (st : App) :
  running (snd (run_update_loop env st)) = true ->
  exists earlier id,
    timers (snd (run_update_loop env st)) = earlier ++ [next_tick id].
Proof. exact (run_update_loop_rescheduled env st _ eq_refl). Qed.

Lemma running_tick_is_rescheduled_witness :
  let env := env_answers "301.0 V" "10.0 A" "3010 W" 1010 in
  let st := app_running default_config false [step_cc] in
  exists earlier id,
    timers (snd (run_update_loop env st)) = earlier ++ [next_tick id].
Proof.
  intros env st. apply running_tick_is_rescheduled. vm_compute. reflexivity.
Defined.

(** ** The samples *)

Lemma keeps_aligned_refl st : keeps_aligned st st.
Proof. intros H. exact H. Qed.

Lemma keeps_aligned_trans a b c :
  keeps_aligned a b -> keeps_aligned b c -> keeps_aligned a c.
Proof. unfold keeps_aligned. auto. Qed.

Lemma frame_samples P st st' : frame P st st' -> samples st' = samples st.
Proof.
  intros F. unfold samples, data_x, data_voltage, data_current, data_power.
  rewrite (keep_data _ _ _ F). reflexivity.
Qed.

Lemma frame_keeps_aligned P st st' : frame P st st' -> keeps_aligned st st'.
Proof.
  intros F H. unfold aligned, data_x, data_voltage, data_current, data_power in *.
  rewrite (keep_data _ _ _ F). exact H.
Qed.

Lemma append_sample_aligned x v c p st : keeps_aligned st (append_sample x v c p st).
Proof.
  unfold keeps_aligned, aligned. norm. rewrite !length_app. cbn [length].
  intros (H1 & H2 & H3). rewrite H1, H2, H3. repeat split.
Qed.

Lemma clear_data_aligned st : keeps_aligned st (clear_data st).
Proof. intros _. repeat split. Qed.

Create HintDb aligned_db.

Ltac aligned_prim :=
  let st := fresh "st" in
  intros st;
  first [ exact (fun H => H)
        | apply append_sample_aligned
        | apply clear_data_aligned ].

Ltac aligned_known :=
  first [ solve [eauto 2 with aligned_db]
        | let env := fresh "env" in
          let st := fresh "st" in
          intros env st; eapply frame_keeps_aligned; solve [eauto 2 with frames] ].

Ltac aligned_op :=
  intros;
  repeat relates_step keeps_aligned_refl keeps_aligned_trans aligned_prim aligned_known.

Lemma run_update_loop_aligned : relates keeps_aligned run_update_loop.
Proof.
  unfold run_update_loop, update_body, integrate_energy, check_stop_condition,
    current_step_dict, py_le.
  aligned_op.
Qed.
#[local] Hint Resolve run_update_loop_aligned : aligned_db.

Lemma reset_data_internal_aligned : relates keeps_aligned reset_data_internal.
Proof. unfold reset_data_internal, update_measurement_display. aligned_op. Qed.
#[local] Hint Resolve reset_data_internal_aligned : aligned_db.

Lemma confirm_reset_data_aligned : relates keeps_aligned confirm_reset_data.
Proof. unfold confirm_reset_data. aligned_op. Qed.

Lemma toggle_pause_discharge_aligned : relates keeps_aligned toggle_pause_discharge.
Proof. unfold toggle_pause_discharge. aligned_op. Qed.

Lemma confirm_stop_discharge_aligned : relates keeps_aligned confirm_stop_discharge.
Proof. unfold confirm_stop_discharge. aligned_op. Qed.

Lemma disconnect_instrument_aligned : relates keeps_aligned disconnect_instrument.
Proof. unfold disconnect_instrument. aligned_op. Qed.
#[local] Hint Resolve disconnect_instrument_aligned : aligned_db.

Lemma toggle_test_mode_aligned : relates keeps_aligned toggle_test_mode.
Proof. unfold toggle_test_mode, update_measurement_display. aligned_op. Qed.

Lemma _resume_after_reconnect_aligned : relates keeps_aligned _resume_after_reconnect.
Proof. unfold _resume_after_reconnect. aligned_op. Qed.

Lemma start_discharge_aligned profiles name :
  relates keeps_aligned (start_discharge profiles name).
Proof.
  unfold start_discharge, ask_operator_and_location, start_new_discharge,
    _get_connection.
  aligned_op.
Qed.

Lemma on_closing_aligned : relates keeps_aligned on_closing.
Proof. unfold on_closing. aligned_op. Qed.

(** X6: the four sample lists (time, voltage, current, power) keep the
    same length under every operation of the controller. *)
Theorem samples_stay_aligned (env : Env) (st : App) :
  aligned st ->
  (forall profiles name, aligned (snd (start_discharge profiles name env st))) /\
  aligned (snd (run_update_loop env st)) /\
  (forall g, aligned (snd (stop_discharge g env st))) /\
  aligned (snd (confirm_stop_discharge env st)) /\
  aligned (snd (toggle_pause_discharge env st)) /\
  aligned (snd (handle_connection_loss env st)) /\
  aligned (snd (reconnect_tick env st)) /\
  aligned (snd (_resume_after_reconnect env st)) /\
  aligned (snd (confirm_reset_data env st)) /\
  aligned (snd (toggle_test_mode env st)) /\
  aligned (snd (on_closing env st)).
Proof.
  intros A.
  split; [intros; apply start_discharge_aligned, A|].
  split; [apply run_update_loop_aligned, A|].
  split; [intros; eapply frame_keeps_aligned; [apply stop_discharge_frame | exact A]|].
  split; [apply confirm_stop_discharge_aligned, A|].
  split; [apply toggle_pause_discharge_aligned, A|].
  split; [eapply frame_keeps_aligned; [apply handle_connection_loss_frame | exact A]|].
  split; [eapply frame_keeps_aligned; [apply reconnect_tick_frame | exact A]|].
  split; [apply _resume_after_reconnect_aligned, A|].
  split; [apply confirm_reset_data_aligned, A|].
  split; [apply toggle_test_mode_aligned, A | apply on_closing_aligned, A].
Qed.

Lemma samples_stay_aligned_witness :
  let env := env_answers "301.0 V" "10.0 A" "3010 W" 1010 in
  let st := app_running default_config false [step_cc] in
  aligned (snd (run_update_loop env st)) /\
  aligned (snd (confirm_reset_data env (snd (stop_discharge false env st)))).
Proof.
  intros env st.
  assert (A : aligned st) by (repeat split).
  destruct (samples_stay_aligned env st A) as (_ & H1 & H2 & _).
  split; [exact H1|].
  destruct (samples_stay_aligned env _ (H2 false)) as (_ & _ & _ & _ & _ & _ & _ & _ & H & _).
  exact H.
Defined.

Lemma integrate_energy_samples p env s :
  exists s2,
    integrate_energy p env s =
      (Ok (if truthy (start_time s)
           then (time_time env (io_count s) - time_of (start_time s))%Q
           else 0%Q), s2) /\
    samples s2 = samples s /\
    start_time s2 = start_time s /\
    last_time s2 = Some (time_time env (io_count s)).
Proof.
  unfold integrate_energy, samples. unfold_monad. norm.
  destruct (truthy (a_start_time (data s))); norm;
    [destruct (truthy (a_last_time (data s))); norm;
     [match goal with
      | |- context [if (?a && ?b)%bool then _ else _] => destruct (a && b)%bool
      end; norm|]|];
    eexists; (split; [reflexivity|]); norm; repeat split; reflexivity.
Qed.

Lemma check_stop_condition_data v c env st :
  data (snd (check_stop_condition v c env st)) = data st.
Proof.
  pose proof (check_stop_condition_frame v c env st) as F.
  destruct F as [_ D _ _ _ _ _]. rewrite D. reflexivity.
Qed.

Lemma run_update_loop_data_tail env s r :
  r = (st0 <- get ;;
       when (running st0) (_ <- after 1000 CbRunUpdateLoop ;; ret tt)) env s ->
  data (snd r) = data s.
Proof.
  change (bind get ?k env s) with (k s env s). cbv beta.
  destruct (running s); cbn [when].
  - unfold bind. rewrite after_tick. unfold ret. intros ->. reflexivity.
  - unfold ret. intros ->. reflexivity.
Qed.

Lemma bind_ok {A B} (m : M A) (k : A -> M B) env st a s :
  m env st = (Ok a, s) -> bind m k env st = k a env s.
Proof. intros H. unfold bind. rewrite H. reflexivity. Qed.

Lemma bind_raise {A B} (m : M A) (k : A -> M B) env st e s :
  m env st = (Raise e, s) -> bind m k env st = (Raise e, s).
Proof. intros H. unfold bind. rewrite H. reflexivity. Qed.

Lemma try_except_ok {A} (m : M A) h env st a s :
  m env st = (Ok a, s) -> try_except m h env st = (Ok a, s).
Proof. intros H. unfold try_except. rewrite H. reflexivity. Qed.

Lemma try_except_raise {A} (m : M A) h env st e s :
  m env st = (Raise e, s) -> try_except m h env st = h e env s.
Proof. intros H. unfold try_except. rewrite H. reflexivity. Qed.

(** The body of the loop on a reading: it does not return from inside,
    and the data are those after integration and appending. *)
Lemma update_body_reading env st v c p s1 :
  acquire env st = (Ok (Some (v, c, p)), s1) ->
  exists res s',
    update_body env st = (res, s') /\
    res <> Ok true /\
    data s' =
      data (append_sample
              (if truthy (start_time s1)
               then (time_time env (io_count s1) - time_of (start_time s1))%Q
               else 0%Q) v c p
              (snd (integrate_energy p env s1))).
Proof.
  intros Ha.
  destruct (integrate_energy_samples p env s1) as (s2 & Ei & _).
  rewrite Ei. cbn [snd].
  set (et := if truthy (start_time s1) then _ else _) in *.
  unfold update_body.
  change (bind get ?k env st) with (k st env st). cbv beta.
  rewrite (bind_ok _ _ _ _ _ _ Ha). cbv beta iota.
  rewrite (bind_ok _ _ _ _ _ _ Ei).
  change (bind (modify ?f) ?k env s2) with (k tt env (f s2)). cbv beta.
  set (s3 := append_sample et v c p s2).
  change (bind get ?k env s3) with (k s3 env s3). cbv beta.
  pose proof (log_data_point_frame (current_discharge_id s3) et v c p env s3) as F4.
  destruct (log_data_point _ _ _ _ _ env s3) as [[[]|e] s4] eqn:E4; cbn [snd] in F4.
  - rewrite (bind_ok _ _ _ _ _ _ E4).
    pose proof (check_stop_condition_data v c env s4) as D5.
    destruct (check_stop_condition v c env s4) as [[[]|e] s5] eqn:E5; cbn [snd] in D5.
    + rewrite (bind_ok _ _ _ _ _ _ E5). eexists _, _. split; [reflexivity|].
      split; [discriminate|]. rewrite D5. apply (keep_data _ _ _ F4).
    + rewrite (bind_raise _ _ _ _ _ _ E5). eexists _, _. split; [reflexivity|].
      split; [discriminate|]. rewrite D5. apply (keep_data _ _ _ F4).
  - rewrite (bind_raise _ _ _ _ _ _ E4). eexists _, _. split; [reflexivity|].
    split; [discriminate|]. apply (keep_data _ _ _ F4).
Qed.

Lemma tick_records env st v c p s1 r :
  running st = true -> connected st = true -> paused st = false ->
  acquire env st = (Ok (Some (v, c, p)), s1) ->
  r = run_update_loop env st ->
  data (snd r) =
    data (append_sample
            (if truthy (start_time s1)
             then (time_time env (io_count s1) - time_of (start_time s1))%Q
             else 0%Q) v c p
            (snd (integrate_energy p env s1))).
Proof.
  intros Hr Hc Hp Ha.
  destruct (update_body_reading env st v c p s1 Ha) as (res & s' & Eb & Hres & D).
  rewrite <- D. clear D.
  unfold run_update_loop.
  change (bind get ?k env st) with (k st env st). cbv beta.
  rewrite Hr, Hc, Hp. cbn [negb andb].
  destruct res as [[|]|e]; [congruence| |].
  - rewrite (bind_ok _ _ _ _ _ _ (try_except_ok _ _ _ _ _ _ Eb)).
    apply run_update_loop_data_tail.
  - erewrite bind_ok;
      [|rewrite (try_except_raise _ _ _ _ _ _ Eb); reflexivity].
    intros E. rewrite (run_update_loop_data_tail env _ r E). reflexivity.
Qed.

(** X7: a tick that obtains a reading appends exactly that reading to
    the sample lists, stamped with the time since the start of the run
    (0 when no start time is set), and sets the time of the last tick to
    the clock value it read. *)
Theorem tick_records_the_reading (env : Env) (st : App) (v c p : Q) (s1 : App) :
  running st = true -> connected st = true -> paused st = false ->
  acquire env st = (Ok (Some (v, c, p)), s1) ->
  let st' := snd (run_update_loop env st) in
  let now := time_time env (io_count s1) in
  let elapsed :=
    if truthy (start_time st) then (now - time_of (start_time st))%Q else 0%Q in
  data_x st' = data_x st ++ [elapsed] /\
  data_voltage st' = data_voltage st ++ [v] /\
  data_current st' = data_current st ++ [c] /\
  data_power st' = data_power st ++ [p] /\
  last_time st' = Some now.
Proof.
  intros Hr Hc Hp Ha st' now elapsed.
  pose proof (tick_records env st v c p s1 _ Hr Hc Hp Ha eq_refl) as D.
  pose proof (acquire_frame env st) as Fa. rewrite Ha in Fa. cbn [snd] in Fa.
  pose proof (frame_samples _ _ _ Fa) as Sa.
  assert (Hst : start_time s1 = start_time st)
    by (unfold start_time; rewrite (keep_data _ _ _ Fa); reflexivity).
  destruct (integrate_energy_samples p env s1) as (s2 & Ei & S2 & _ & L2).
  rewrite Ei in D. cbn [snd] in D. rewrite Hst in D.
  unfold samples in *. injection Sa as X1 X2 X3 X4. injection S2 as Y1 Y2 Y3 Y4.
  subst st'. unfold data_x, data_voltage, data_current, data_power, last_time in *.
  rewrite D. norm. rewrite Y1, Y2, Y3, Y4, X1, X2, X3, X4, L2.
  repeat split; reflexivity.
Qed.

Lemma tick_records_the_reading_witness :
  let env := env_answers "301.0 V" "10.0 A" "3010 W" 1010 in
  let st := app_running default_config false [step_cc] in
  data_x (snd (run_update_loop env st)) = [9; 1010 - 1000]%Q /\
  last_time (snd (run_update_loop env st)) = Some 1010%Q.
Proof.
  intros env st.
  destruct (tick_records_the_reading env st
              (decimal_value 1 (chars "301") (chars "0") 0)
              (decimal_value 1 (chars "10") (chars "0") 0)
              (decimal_value 1 (chars "3010") [] 0)
              (snd (acquire env st)) eq_refl eq_refl eq_refl)
    as (H1 & _ & _ & _ & H5).
  - vm_compute. reflexivity.
  - split; [exact H1 | exact H5].
Defined.

(** ** Test mode never uses the socket *)

Lemma blind_ret {A} (a : A) st : socket_blind_at st (ret a).
Proof. intros Ht env env' _. split; [reflexivity | exact Ht]. Qed.

Lemma blind_raise {A} e st : socket_blind_at st (@raise A e).
Proof. intros Ht env env' _. split; [reflexivity | exact Ht]. Qed.

Lemma blind_get_bind {B} (k : App -> M B) st :
  socket_blind_at st (k st) -> socket_blind_at st (bind get k).
Proof. intros H. exact H. Qed.

Lemma blind_bind {A B} (m : M A) (k : A -> M B) st :
  socket_blind_at st m -> (forall a s, socket_blind_at s (k a)) ->
  socket_blind_at st (bind m k).
Proof.
  intros Hm Hk Ht env env' He. destruct (Hm Ht env env' He) as [E T].
  unfold bind. rewrite E. destruct (m env st) as [[a|e] s1]; cbn [snd] in T.
  - exact (Hk a s1 T env env' He).
  - split; [reflexivity | exact T].
Qed.

Lemma blind_try_except {A} (m : M A) (h : exn -> M A) st :
  socket_blind_at st m -> (forall e s, socket_blind_at s (h e)) ->
  socket_blind_at st (try_except m h).
Proof.
  intros Hm Hh Ht env env' He. destruct (Hm Ht env env' He) as [E T].
  unfold try_except. rewrite E. destruct (m env st) as [[a|e] s1]; cbn [snd] in T.
  - split; [reflexivity | exact T].
  - exact (Hh e s1 T env env' He).
Qed.

Lemma blind_modify f st :
  (test_mode st = true -> test_mode (f st) = true) ->
  socket_blind_at st (modify f).
Proof. intros Hf Ht env env' _. split; [reflexivity | exact (Hf Ht)]. Qed.

Lemma blind_consult {A} (oracle : Env -> nat -> A) st :
  (forall env env' n, same_but_socket env env' -> oracle env' n = oracle env n) ->
  socket_blind_at st (consult oracle).
Proof.
  intros Ho Ht env env' He. unfold consult. rewrite (Ho env env' _ He).
  split; [reflexivity | exact Ht].
Qed.

Lemma blind_when b m st : socket_blind_at st m -> socket_blind_at st (when b m).
Proof. intros Hm. destruct b; [exact Hm | apply blind_ret]. Qed.

(** In test mode [test_mode st] may be read as [true]. *)
Lemma blind_subst {A} (m m' : M A) st :
  (test_mode st = true -> m = m') -> socket_blind_at st m' ->
  socket_blind_at st m.
Proof. intros E H Ht. rewrite (E Ht). exact (H Ht). Qed.

Create HintDb blind_db.

Ltac blind_oracle :=
  let env := fresh "env" in
  let env' := fresh "env'" in
  let n := fresh "n" in
  let H := fresh "H" in
  intros env env' n H; unfold same_but_socket in H;
  destruct H as (?&?&?&?&?&?&?&?); congruence.

Ltac blind_step :=
  lazymatch goal with
  | |- socket_blind_at ?st ?m =>
      first
        [ match m with
          | context C [test_mode st] =>
              let m' := context C [true] in
              apply (blind_subst m m' st);
              [ let H := fresh in intros H; rewrite H; reflexivity
              | cbn [andb orb negb]; cbv iota ]
          end
        | lazymatch m with
          | bind get _ => apply blind_get_bind; cbv beta
          | bind _ _ => apply blind_bind; [ | intros ? ? ]
          | ret _ => apply blind_ret
          | raise _ => apply blind_raise
          | try_except _ _ => apply blind_try_except; [ | intros ? ? ]
          | consult _ => apply blind_consult; blind_oracle
          | when _ _ => apply blind_when
          | modify _ => apply blind_modify; let H := fresh in intros H; exact H
          | log _ _ => apply blind_modify; let H := fresh in intros H; exact H
          | play_sound _ => apply blind_modify; let H := fresh in intros H; exact H
          | messagebox _ _ => apply blind_modify; let H := fresh in intros H; exact H
          | (if ?c then _ else _) => destruct c
          | (match ?c with _ => _ end) => destruct c
          | _ => solve [eauto 2 with blind_db]
          end ]
  end.

Ltac blind_op := intros; repeat blind_step.

Lemma after_blind ms cb st : socket_blind_at st (after ms cb).
Proof. unfold after. blind_op. Qed.
Lemma after_cancel_blind id st : socket_blind_at st (after_cancel id).
Proof. unfold after_cancel. blind_op. Qed.
#[local] Hint Resolve after_blind after_cancel_blind : blind_db.

Lemma _get_connection_blind st : socket_blind_at st _get_connection.
Proof. unfold _get_connection. blind_op. Qed.
#[local] Hint Resolve _get_connection_blind : blind_db.

Lemma start_new_discharge_blind reg profile mode st :
  socket_blind_at st (start_new_discharge reg profile mode).
Proof. unfold start_new_discharge. blind_op. Qed.
Lemma log_data_point_blind id elapsed v c p st :
  socket_blind_at st (log_data_point id elapsed v c p).
Proof. unfold log_data_point. blind_op. Qed.
Lemma finish_discharge_blind id energy comment st :
  socket_blind_at st (finish_discharge id energy comment).
Proof. unfold finish_discharge. blind_op. Qed.
Lemma get_discharge_data_blind id st : socket_blind_at st (get_discharge_data id).
Proof. unfold get_discharge_data. blind_op. Qed.
#[local] Hint Resolve start_new_discharge_blind log_data_point_blind
  finish_discharge_blind get_discharge_data_blind : blind_db.

Lemma _schedule_reconnect_blind st : socket_blind_at st _schedule_reconnect.
Proof. unfold _schedule_reconnect. blind_op. Qed.
Lemma _cancel_reconnect_blind st : socket_blind_at st _cancel_reconnect.
Proof. unfold _cancel_reconnect. blind_op. Qed.
Lemma handle_connection_loss_blind st : socket_blind_at st handle_connection_loss.
Proof. unfold handle_connection_loss. blind_op. Qed.
#[local] Hint Resolve _schedule_reconnect_blind _cancel_reconnect_blind
  handle_connection_loss_blind : blind_db.

Lemma scpi_command_blind c st : socket_blind_at st (scpi_command c).
Proof. unfold scpi_command. blind_op. Qed.
Lemma scpi_query_blind q st : socket_blind_at st (scpi_query q).
Proof. unfold scpi_query. blind_op. Qed.
#[local] Hint Resolve scpi_command_blind scpi_query_blind : blind_db.

Lemma connect_instrument_blind st : socket_blind_at st connect_instrument.
Proof. unfold connect_instrument. blind_op. Qed.
#[local] Hint Resolve connect_instrument_blind : blind_db.

Lemma reconnect_tick_blind st : socket_blind_at st reconnect_tick.
Proof. unfold reconnect_tick. blind_op. Qed.

Lemma create_discharge_certificate_blind st :
  socket_blind_at st create_discharge_certificate.
Proof. unfold create_discharge_certificate. blind_op. Qed.
#[local] Hint Resolve create_discharge_certificate_blind : blind_db.

Lemma stop_discharge_blind g st : socket_blind_at st (stop_discharge g).
Proof. unfold stop_discharge. blind_op. Qed.
#[local] Hint Resolve stop_discharge_blind : blind_db.

Lemma apply_profile_step_blind st : socket_blind_at st apply_profile_step.
Proof. unfold apply_profile_step, current_step_dict, py_upper. blind_op. Qed.
#[local] Hint Resolve apply_profile_step_blind : blind_db.

Lemma _simulate_measurements_blind st : socket_blind_at st _simulate_measurements.
Proof.
  unfold _simulate_measurements, current_step_dict, py_upper, py_num, uniform.
  blind_op.
Qed.
#[local] Hint Resolve _simulate_measurements_blind : blind_db.

Lemma fetch_measurements_blind st : socket_blind_at st fetch_measurements.
Proof. unfold fetch_measurements. blind_op. Qed.
#[local] Hint Resolve fetch_measurements_blind : blind_db.

Lemma run_update_loop_blind st : socket_blind_at st run_update_loop.
Proof.
  unfold run_update_loop, update_body, acquire, integrate_energy,
    check_stop_condition, current_step_dict, py_le.
  blind_op.
Qed.
#[local] Hint Resolve run_update_loop_blind : blind_db.

Lemma _resume_after_reconnect_blind st : socket_blind_at st _resume_after_reconnect.
Proof. unfold _resume_after_reconnect. blind_op. Qed.

Lemma reset_data_internal_blind st : socket_blind_at st reset_data_internal.
Proof. unfold reset_data_internal, update_measurement_display. blind_op. Qed.
#[local] Hint Resolve reset_data_internal_blind : blind_db.

Lemma confirm_reset_data_blind st : socket_blind_at st confirm_reset_data.
Proof. unfold confirm_reset_data. blind_op. Qed.

Lemma toggle_pause_discharge_blind st : socket_blind_at st toggle_pause_discharge.
Proof. unfold toggle_pause_discharge. blind_op. Qed.

Lemma confirm_stop_discharge_blind st : socket_blind_at st confirm_stop_discharge.
Proof. unfold confirm_stop_discharge. blind_op. Qed.

Lemma start_discharge_blind profiles name st :
  socket_blind_at st (start_discharge profiles name).
Proof. unfold start_discharge, ask_operator_and_location. blind_op. Qed.

Lemma disconnect_instrument_blind st : socket_blind_at st disconnect_instrument.
Proof. unfold disconnect_instrument. blind_op. Qed.
#[local] Hint Resolve disconnect_instrument_blind : blind_db.

Lemma on_closing_blind st : socket_blind_at st on_closing.
Proof. unfold on_closing. blind_op. Qed.

(** X8: in test mode no operation of the controller depends on the
    socket: with the same clock, dialogs, database and random numbers,
    two environments whose sockets behave differently give the same
    result and the same state, and the controller is still in test mode
    afterwards. *)
Theorem test_mode_never_uses_socket (env env' : Env) (st : App) :
  test_mode st = true -> same_but_socket env env' ->
  (forall profiles name,
      start_discharge profiles name env' st = start_discharge profiles name env st /\
      test_mode (snd (start_discharge profiles name env st)) = true) /\
  (run_update_loop env' st = run_update_loop env st /\
   test_mode (snd (run_update_loop env st)) = true) /\
  (forall g,
      stop_discharge g env' st = stop_discharge g env st /\
      test_mode (snd (stop_discharge g env st)) = true) /\
  (confirm_stop_discharge env' st = confirm_stop_discharge env st /\
   test_mode (snd (confirm_stop_discharge env st)) = true) /\
  (toggle_pause_discharge env' st = toggle_pause_discharge env st /\
   test_mode (snd (toggle_pause_discharge env st)) = true) /\
  (reconnect_tick env' st = reconnect_tick env st /\
   test_mode (snd (reconnect_tick env st)) = true) /\
  (_resume_after_reconnect env' st = _resume_after_reconnect env st /\
   test_mode (snd (_resume_after_reconnect env st)) = true) /\
  (confirm_reset_data env' st = confirm_reset_data env st /\
   test_mode (snd (confirm_reset_data env st)) = true) /\
  (on_closing env' st = on_closing env st /\
   test_mode (snd (on_closing env st)) = true).
Proof.
  intros Ht He.
  split; [intros; exact (start_discharge_blind profiles name st Ht env env' He)|].
  split; [exact (run_update_loop_blind st Ht env env' He)|].
  split; [intros; exact (stop_discharge_blind g st Ht env env' He)|].
  split; [exact (confirm_stop_discharge_blind st Ht env env' He)|].
  split; [exact (toggle_pause_discharge_blind st Ht env env' He)|].
  split; [exact (reconnect_tick_blind st Ht env env' He)|].
  split; [exact (_resume_after_reconnect_blind st Ht env env' He)|].
  split; [exact (confirm_reset_data_blind st Ht env env' He)|].
  exact (on_closing_blind st Ht env env' He).
Qed.

Lemma test_mode_never_uses_socket_witness :
  let st := app_running default_config true [step_cc] in
  run_update_loop env_socket_down st =
    run_update_loop (env_answers "0" "0" "0" 1010) st /\
  stop_discharge true env_socket_down st =
    stop_discharge true (env_answers "0" "0" "0" 1010) st.
Proof.
  intros st.
  assert (He : same_but_socket (env_answers "0" "0" "0" 1010) env_socket_down)
    by (repeat split).
  destruct (test_mode_never_uses_socket _ _ st eq_refl He) as (_ & [H1 _] & H2 & _).
  split; [exact H1 | exact (proj1 (H2 true))].
Defined.

(** ** The simulation *)

Lemma pymax_nonneg x : (0 <= pymax 0 x)%Q.
Proof.
  unfold pymax. destruct (Qltb 0 x) eqn:E.
  - apply Qlt_le_weak, Qltb_lt, E.
  - apply Qle_refl.
Qed.


Lemma bind_inv {A B} (m : M A) (k : A -> M B) env s r s' :
  bind m k env s = (r, s') ->
  (exists a s1, m env s = (Ok a, s1) /\ k a env s1 = (r, s')) \/
  (exists e, m env s = (Raise e, s') /\ r = Raise e).
Proof.
  unfold bind. destruct (m env s) as [[a|e] s1]; intros H.
  - left. exists a, s1. split; [reflexivity | exact H].
  - right. exists e. injection H as <- <-. split; reflexivity.
Qed.


Lemma current_step_dict_state env s r s' :
  current_step_dict env s = (r, s') -> s' = s.
Proof.
  unfold current_step_dict. unfold_monad.
  destruct (nth_error _ _); intros [= _ <-]; reflexivity.
Qed.

Lemma py_upper_state v env s r s' : py_upper v env s = (r, s') -> s' = s.
Proof.
  unfold py_upper. unfold_monad. destruct v; intros [= _ <-]; reflexivity.
Qed.


Lemma py_num_state v env s r s' : py_num v env s = (r, s') -> s' = s.
Proof.
  unfold py_num. unfold_monad. destruct v; intros [= _ <-]; reflexivity.
Qed.

Lemma returns_bind {A B} (m : M A) (k : A -> M B) :
  returns m -> (forall a, returns (k a)) -> returns (bind m k).
Proof.
  intros Hm Hk env s. destruct (Hm env s) as (a & s1 & E).
  rewrite (bind_ok _ _ _ _ _ _ E). apply Hk.
Qed.

Lemma returns_ret {A} (a : A) : returns (ret a).
Proof. intros env s. eexists _, _. reflexivity. Qed.

Lemma returns_get : returns get.
Proof. intros env s. eexists _, _. reflexivity. Qed.

Lemma returns_modify f : returns (modify f).
Proof. intros env s. eexists _, _. reflexivity. Qed.

Lemma returns_consult {A} (o : Env -> nat -> A) : returns (consult o).
Proof. intros env s. eexists _, _. reflexivity. Qed.

Lemma returns_not_raises {A} (m : M A) env s e s' :
  returns m -> m env s = (Raise e, s') -> False.
Proof. intros H E. destruct (H env s) as (a & s1 & E1). congruence. Qed.

Ltac returns_tac :=
  repeat first
    [ apply returns_bind; [|intro]
    | apply returns_ret
    | apply returns_get
    | apply returns_modify
    | apply returns_consult
    | progress unfold uniform, when
    | match goal with |- returns (if ?c then _ else _) => destruct c end ].

(** X9: [_simulate_measurements] never raises.  A failure inside it gives
    no reading and leaves the simulated state as it was; otherwise the
    reading is the simulated state after the call, and when the
    simulation advanced (running, not paused, on a step of the profile)
    the voltage is not negative and, below 1 V, current and power are
    exactly zero. *)
Theorem simulation_step (env : Env) (st : App) :
  let r := _simulate_measurements env st in
  (fst r = Ok None /\ sim (snd r) = sim st) \/
  (fst r = Ok (Some (sim_voltage (snd r), sim_current (snd r), sim_power (snd r))) /\
   (running st = true -> paused st = false ->
    (current_step st < length (current_profile_data st))%nat ->
    (0 <= sim_voltage (snd r))%Q /\
    ((sim_voltage (snd r) < 1)%Q ->
     sim_current (snd r) = 0%Q /\ sim_power (snd r) = 0%Q))).
Proof.
  cbv zeta.
  destruct (_simulate_measurements env st) as [r s'] eqn:E. cbn [fst snd].
  unfold _simulate_measurements in E.
  change (bind get ?k env st) with (k st env st) in E. cbv beta zeta in E.
  match type of E with
  | (if ?g then _ else _) env st = _ => destruct g eqn:G
  end.
  { right. injection E as <- <-. split; [reflexivity|]. intros Hr Hp Hl.
    rewrite Hr, Hp in G. cbn [negb orb] in G.
    apply Nat.leb_gt in Hl. rewrite Hl, Bool.orb_false_r in G.
    destruct (current_profile_data st); [cbn in Hl; discriminate Hl | discriminate G]. }
  unfold try_except in E.
  match type of E with
  | match ?B env st with _ => _ end = _ => destruct (B env st) as [[x|e] s1] eqn:EB
  end.
  - injection E as <- <-. right.
    apply bind_inv in EB. destruct EB as [(d & s2 & _ & EB)|(e & _ & [=])].
    apply bind_inv in EB. destruct EB as [(ty & s3 & _ & EB)|(e & _ & [=])].
    apply bind_inv in EB. destruct EB as [(u & s4 & _ & EB)|(e & _ & [=])].
    clear G. unfold_monad. norm.
    destruct (Qltb (pymax 0 (m_sim_voltage (sim s4))) 1) eqn:Hv;
      injection EB as <- <-; norm.
    + split; [reflexivity|]. intros _ _ _. split; [apply pymax_nonneg|].
      intros _. split; reflexivity.
    + split; [reflexivity|]. intros _ _ _. split; [apply pymax_nonneg|].
      intros H. apply Qltb_lt in H. congruence.
  - left.
    assert (Hs : sim s1 = sim st).
    { clear E G.
      apply bind_inv in EB. destruct EB as [(d & s2 & E1 & EB)|(e' & E1 & _)];
        apply current_step_dict_state in E1; subst; [|reflexivity].
      apply bind_inv in EB. destruct EB as [(ty & s3 & E2 & EB)|(e' & E2 & _)];
        apply py_upper_state in E2; subst; [|reflexivity].
      apply bind_inv in EB. destruct EB as [(u & s4 & E3 & EB)|(e' & E3 & _)].
      - exfalso. clear E3. unfold_monad. norm.
        destruct (Qltb (pymax 0 (m_sim_voltage (sim s4))) 1); discriminate EB.
      - assert (Hu : forall a b s0 r0 s0',
                   uniform a b env s0 = (r0, s0') ->
                   exists u, r0 = Ok u /\ sim s0' = sim s0).
        { intros a b s0 r0 s0' [= <- <-]. eexists. split; reflexivity. }
        destruct (String.eqb ty "CC");
          [|destruct (String.eqb ty "CP"); [|destruct (String.eqb ty "CV")]].
        + apply bind_inv in E3. destruct E3 as [(x & s5 & Eu & E3)|(e2 & Eu & _)];
            apply Hu in Eu; destruct Eu as (x' & [= ] & Eu).
          apply bind_inv in E3. destruct E3 as [(t & s6 & Ep & E3)|(e2 & Ep & _)];
            apply py_num_state in Ep; subst; [|exact Eu].
          exfalso. revert E3. apply returns_not_raises. returns_tac.
        + apply bind_inv in E3. destruct E3 as [(x & s5 & Eu & E3)|(e2 & Eu & _)];
            apply Hu in Eu; destruct Eu as (x' & [= ] & Eu).
          apply bind_inv in E3. destruct E3 as [(t & s6 & Ep & E3)|(e2 & Ep & _)];
            apply py_num_state in Ep; subst; [|exact Eu].
          exfalso. revert E3. apply returns_not_raises. returns_tac.
        + apply bind_inv in E3. destruct E3 as [(t & s6 & Ep & E3)|(e2 & Ep & _)];
            apply py_num_state in Ep; subst; [|reflexivity].
          exfalso. revert E3. apply returns_not_raises. returns_tac.
        + exfalso. revert E3. apply returns_not_raises. returns_tac. }
    unfold log, ret in E. unfold_monad. injection E as <- <-.
    split; [reflexivity | exact Hs].
Qed.
Lemma simulation_step_witness :
  let r := _simulate_measurements env_socket_down
             (app_running default_config true [step_cc]) in
  (0 <= sim_voltage (snd r))%Q.
Proof.
  destruct (simulation_step env_socket_down
              (app_running default_config true [step_cc])) as [[H _]|[_ H]].
  - vm_compute in H. discriminate H.
  - cbv zeta. apply H.
    + reflexivity.
    + reflexivity.
    + cbn. lia.
Defined.

(** ** Pausing *)

Lemma scpi_command_accepted c env st :
  accepted env st ->
  scpi_command c env st =
    (Ok true,
     push_event (EvCommand c (if test_mode st then Bypassed else Sent))
       (if test_mode st then st else next_io st)).
Proof.
  intros H. unfold scpi_command. unfold_monad. norm.
  destruct (c_test_mode (conn st)) eqn:Ht; [reflexivity|].
  destruct H as [H|(Hc & Hs & Hsend)]; [norm; congruence|].
  norm. rewrite Hc, Hs. norm. rewrite Hsend. reflexivity.
Qed.

(** What the pause button does when its command is taken. *)
Lemma toggle_pause_discharge_taken (env : Env) (st : App) :
  running st = true -> accepted env st ->
  let st' := snd (toggle_pause_discharge env st) in
  fst (toggle_pause_discharge env st) = Ok tt /\
  running st' = true /\
  paused st' = negb (paused st) /\
  command_log st' =
    command_log st ++
    [(INPut_STATe (if paused st then 1 else 0),
      if test_mode st then Bypassed else Sent)] /\
  energy_discharged st' = energy_discharged st /\
  samples st' = samples st /\
  start_time st' = start_time st /\
  current_step st' = current_step st /\
  db st' = db st /\
  last_time st' =
    (if paused st
     then Some (time_time env (if test_mode st then io_count st else S (io_count st)))
     else last_time st).
Proof.
  intros Hr Ha. cbv zeta. unfold toggle_pause_discharge.
  change (bind get ?k env st) with (k st env st). cbv beta.
  rewrite Hr. cbn [negb].
  replace (if negb (paused st) then 0 else 1) with (if paused st then 1 else 0)
    by (destruct (paused st); reflexivity).
  rewrite (bind_ok _ _ _ _ _ _ (scpi_command_accepted _ env st Ha)).
  unfold samples, command_log. unfold_monad. norm.
  destruct (c_test_mode (conn st)) eqn:Ht, (r_paused (run st)) eqn:Hp;
    repeat (progress (norm; rewrite ?Hp, ?Ht));
    repeat split; try reflexivity; try exact Hr.
Qed.

(** X10: pressing the pause button during a run whose command is taken
    sends exactly one command, INPut:STATe 0 to pause and INPut:STATe 1
    to resume, and inverts [paused]; the run goes on, energy, samples,
    position and database are untouched, and on resuming (only then) the
    time of the last tick is set to the clock. *)
Theorem toggle_pause_discharge_spec (env : Env) (st : App) :
  running st = true -> accepted env st ->
  let st' := snd (toggle_pause_discharge env st) in
  fst (toggle_pause_discharge env st) = Ok tt /\
  running st' = true /\
  paused st' = negb (paused st) /\
  command_log st' =
    command_log st ++
    [(INPut_STATe (if paused st then 1 else 0),
      if test_mode st then Bypassed else Sent)] /\
  energy_discharged st' = energy_discharged st /\
  samples st' = samples st /\
  start_time st' = start_time st /\
  current_step st' = current_step st /\
  db st' = db st /\
  last_time st' =
    (if paused st
     then Some (time_time env (if test_mode st then io_count st else S (io_count st)))
     else last_time st).
Proof. exact (toggle_pause_discharge_taken env st). Qed.

Lemma toggle_pause_discharge_spec_witness :
  let st := app_running default_config false [step_cc] in
  let env := env_answers "301.0 V" "10.0 A" "3010 W" 1010 in
  paused (snd (toggle_pause_discharge env st)) = true /\
  command_log (snd (toggle_pause_discharge env st)) = [(INPut_STATe 0, Sent)].
Proof.
  intros st env.
  destruct (toggle_pause_discharge_spec env st eq_refl)
    as (_ & _ & H1 & H2 & _).
  - right. repeat split.
  - split; [exact H1 | exact H2].
Defined.

(** A tick of a paused run only schedules the next tick. *)
Lemma paused_tick env st :
  running st = true -> paused st = true ->
  connected st = true \/ test_mode st = true ->
  run_update_loop env st =
    (Ok tt,
     upd_timers (timers st ++ [next_tick (w_next_timer (world st))])
       (S (w_next_timer (world st))) st).
Proof.
  intros Hr Hp Hc. unfold run_update_loop. unfold_monad. norm.
  rewrite Hr, Hp. norm. rewrite andb_false_r.
  assert (Hn : (negb (c_connected (conn st)) && negb (c_test_mode (conn st)))%bool = false).
  { destruct Hc as [H|H]; norm; rewrite H; cbn; rewrite ?andb_false_r; reflexivity. }
  rewrite Hn. norm. rewrite Hr. reflexivity.
Qed.

Lemma paused_ticks n env st :
  running st = true -> paused st = true ->
  connected st = true \/ test_mode st = true ->
  let st' := after_ticks n env st in
  config st' = config st /\ conn st' = conn st /\ run st' = run st /\
  data st' = data st /\ sim st' = sim st /\ db st' = db st /\
  trace st' = trace st /\ io_count st' = io_count st.
Proof.
  revert st. induction n as [|n IH]; intros st Hr Hp Hc; cbn [after_ticks].
  - repeat split.
  - rewrite (paused_tick env st Hr Hp Hc). cbn [snd].
    set (s1 := upd_timers _ _ st).
    destruct (IH s1 Hr Hp Hc) as (H1 & H2 & H3 & H4 & H5 & H6 & H7 & H8).
    cbv zeta. rewrite H1, H2, H3, H4, H5, H6, H7, H8. repeat split.
Qed.

(** X11: the time a run spends paused is not integrated.  From a running
    state, pausing, any number of ticks and resuming leave the energy,
    the samples, the position in the profile and the database exactly as
    they were, send the two commands INPut:STATe 0 and INPut:STATe 1 and
    nothing else, and restart the clock of the integration at the moment
    of resuming. *)
Theorem paused_time_is_not_counted (env0 env1 env2 : Env) (st : App) (n : nat) :
  running st = true -> paused st = false -> connected st = true ->
  accepted env0 st ->
  let s1 := snd (toggle_pause_discharge env0 st) in
  let s2 := after_ticks n env1 s1 in
  accepted env2 s2 ->
  let s3 := snd (toggle_pause_discharge env2 s2) in
  running s3 = true /\ paused s3 = false /\
  energy_discharged s3 = energy_discharged st /\
  samples s3 = samples st /\
  current_step s3 = current_step st /\
  db s3 = db st /\
  command_log s3 =
    command_log st ++
    [(INPut_STATe 0, if test_mode st then Bypassed else Sent);
     (INPut_STATe 1, if test_mode st then Bypassed else Sent)] /\
  last_time s3 =
    Some (time_time env2 (if test_mode st then io_count s2 else S (io_count s2))).
Proof.
  intros Hr Hp Hc Ha s1 s2 Ha2 s3.
  destruct (toggle_pause_discharge_taken env0 st Hr Ha)
    as (_ & R1 & P1 & C1 & E1 & S1 & _ & K1 & D1 & _).
  fold s1 in R1, P1, C1, E1, S1, K1, D1. rewrite Hp in P1, C1. cbn [negb] in P1.
  assert (T1 : test_mode s1 = test_mode st /\ connected s1 = connected st).
  { unfold s1, toggle_pause_discharge.
    change (bind get ?k env0 st) with (k st env0 st). cbv beta.
    rewrite Hr. cbn [negb].
    rewrite (bind_ok _ _ _ _ _ _ (scpi_command_accepted _ env0 st Ha)).
    unfold_monad. norm.
    destruct (c_test_mode (conn st)) eqn:Ht;
      repeat (progress (norm; rewrite ?Hp, ?Ht)); split; reflexivity. }
  destruct T1 as [T1 Cn1].
  destruct (paused_ticks n env1 s1 R1 P1 (or_introl (eq_trans Cn1 Hc)))
    as (G1 & G2 & G3 & G4 & G5 & G6 & G7 & G8).
  fold s2 in G1, G2, G3, G4, G5, G6, G7, G8.
  assert (R2 : running s2 = true) by (unfold running; rewrite G3; exact R1).
  assert (P2 : paused s2 = true) by (unfold paused; rewrite G3; exact P1).
  assert (T2 : test_mode s2 = test_mode st) by (unfold test_mode at 1; rewrite G2; exact T1).
  destruct (toggle_pause_discharge_taken env2 s2 R2 Ha2)
    as (_ & R3 & P3 & C3 & E3 & S3 & _ & K3 & D3 & L3).
  fold s3 in R3, P3, C3, E3, S3, K3, D3, L3.
  rewrite P2 in P3, C3, L3. rewrite T2 in C3, L3. cbn [negb] in P3.
  split; [exact R3|]. split; [exact P3|].
  split; [rewrite E3; unfold energy_discharged; rewrite G4; exact E1|].
  split; [rewrite S3; unfold samples, data_x, data_voltage, data_current, data_power;
          rewrite G4; exact S1|].
  split; [rewrite K3; unfold current_step; rewrite G3; exact K1|].
  split; [rewrite D3, G6; exact D1|].
  split; [|exact L3].
  rewrite C3. unfold command_log. rewrite G7. fold (command_log s1).
  rewrite C1, <- app_assoc. reflexivity.
Qed.

Lemma paused_time_is_not_counted_witness :
  let st := app_running default_config false [step_cc] in
  let env := env_answers "301.0 V" "10.0 A" "3010 W" 1010 in
  let s3 := snd (toggle_pause_discharge env
                   (after_ticks 3 env (snd (toggle_pause_discharge env st)))) in
  energy_discharged s3 = energy_discharged st /\
  command_log s3 = [(INPut_STATe 0, Sent); (INPut_STATe 1, Sent)].
Proof.
  intros st env s3.
  destruct (paused_time_is_not_counted env env env st 3 eq_refl eq_refl eq_refl)
    as (_ & _ & H1 & _ & _ & _ & H2 & _).
  - right. repeat split.
  - right. repeat split.
  - split; [exact H1 | exact H2].
Defined.

(** ** A program logic for invariants *)

Section KeepsAt.
Variable I : App -> Prop.

Lemma keeps_ret {A} (a : A) st : keeps_at I st (ret a).
Proof. intros H env. exact H. Qed.

Lemma keeps_raise {A} e st : keeps_at I st (@raise A e).
Proof. intros H env. exact H. Qed.

Lemma keeps_get_bind {B} (k : App -> M B) st :
  keeps_at I st (k st) -> keeps_at I st (bind get k).
Proof. intros H. exact H. Qed.

Lemma keeps_bind {A B} (m : M A) (k : A -> M B) st :
  keeps_at I st m -> (forall a s, keeps_at I s (k a)) ->
  keeps_at I st (bind m k).
Proof.
  intros Hm Hk H env. specialize (Hm H env). unfold bind.
  destruct (m env st) as [[a|e] s1]; cbn [snd] in *; [|exact Hm].
  exact (Hk a s1 Hm env).
Qed.

Lemma keeps_try_except {A} (m : M A) (h : exn -> M A) st :
  keeps_at I st m -> (forall e s, keeps_at I s (h e)) ->
  keeps_at I st (try_except m h).
Proof.
  intros Hm Hh H env. specialize (Hm H env). unfold try_except.
  destruct (m env st) as [[a|e] s1]; cbn [snd] in *; [exact Hm|].
  exact (Hh e s1 Hm env).
Qed.

Lemma keeps_modify f st : (I st -> I (f st)) -> keeps_at I st (modify f).
Proof. intros Hf H env. exact (Hf H). Qed.

Lemma keeps_consult {A} (oracle : Env -> nat -> A) st :
  (I st -> I (next_io st)) -> keeps_at I st (consult oracle).
Proof. intros Hn H env. exact (Hn H). Qed.

Lemma keeps_when b m st : keeps_at I st m -> keeps_at I st (when b m).
Proof. intros Hm. destruct b; [exact Hm | apply keeps_ret]. Qed.

(** Under the invariant the program may be read as [m']. *)
Lemma keeps_subst {A} (m m' : M A) st :
  (I st -> m = m') -> keeps_at I st m' -> keeps_at I st m.
Proof. intros E H Hi. rewrite (E Hi). exact (H Hi). Qed.

(** Operations whose frame tells that [I] is kept. *)
Lemma keeps_frame {A} (m : M A) P st :
  (forall s s', frame P s s' -> I s -> I s') ->
  (forall env, frame P st (snd (m env st))) ->
  keeps_at I st m.
Proof. intros HP F H env. exact (HP _ _ (F env) H). Qed.
End KeepsAt.

(** One step: [simp] rewrites the program with the invariant, [prim]
    closes the goal for a state update and [known] the goal for an
    operation treated before. *)
Ltac keeps_step simp prim known :=
  first
    [ progress simp
    | lazymatch goal with
      | |- keeps_at _ _ (bind get _) => apply keeps_get_bind; cbv beta
      | |- keeps_at _ _ (bind _ _) => apply keeps_bind; [ | intros ? ? ]
      | |- keeps_at _ _ (ret _) => apply keeps_ret
      | |- keeps_at _ _ (raise _) => apply keeps_raise
      | |- keeps_at _ _ (try_except _ _) => apply keeps_try_except; [ | intros ? ? ]
      | |- keeps_at _ _ (consult _) => apply keeps_consult; prim
      | |- keeps_at _ _ (when _ _) => apply keeps_when
      | |- keeps_at _ _ (modify _) => apply keeps_modify; prim
      | |- keeps_at _ _ (log _ _) => apply keeps_modify; prim
      | |- keeps_at _ _ (play_sound _) => apply keeps_modify; prim
      | |- keeps_at _ _ (messagebox _ _) => apply keeps_modify; prim
      | |- keeps_at _ _ (if ?c then _ else _) => destruct c
      | |- keeps_at _ _ (match ?c with _ => _ end) => destruct c
      | |- keeps_at _ _ _ => known
      end ].

(** ** Stopping *)

Lemma calm_refl st : calm st st.
Proof. split; auto. Qed.

Lemma calm_trans a b c : calm a b -> calm b c -> calm a c.
Proof. intros [] []. split; auto. Qed.

Create HintDb calm_db.

Ltac calm_prim :=
  let st := fresh "st" in
  intros st; split; intros H; first [exact H | reflexivity].

Ltac calm_op :=
  intros;
  repeat relates_step calm_refl calm_trans calm_prim ltac:(solve [eauto 2 with calm_db]).

Lemma after_calm ms cb : relates calm (after ms cb).
Proof. unfold after. calm_op. Qed.
Lemma after_cancel_calm id : relates calm (after_cancel id).
Proof. unfold after_cancel. calm_op. Qed.
Lemma _get_connection_calm : relates calm _get_connection.
Proof. unfold _get_connection. calm_op. Qed.
#[local] Hint Resolve after_calm after_cancel_calm _get_connection_calm : calm_db.

Lemma finish_discharge_calm id energy comment :
  relates calm (finish_discharge id energy comment).
Proof. unfold finish_discharge. calm_op. Qed.
Lemma get_discharge_data_calm id : relates calm (get_discharge_data id).
Proof. unfold get_discharge_data. calm_op. Qed.
Lemma _schedule_reconnect_calm : relates calm _schedule_reconnect.
Proof. unfold _schedule_reconnect. calm_op. Qed.
#[local] Hint Resolve finish_discharge_calm get_discharge_data_calm
  _schedule_reconnect_calm : calm_db.

Lemma handle_connection_loss_calm : relates calm handle_connection_loss.
Proof. unfold handle_connection_loss. calm_op. Qed.
#[local] Hint Resolve handle_connection_loss_calm : calm_db.

Lemma scpi_command_calm c : relates calm (scpi_command c).
Proof. unfold scpi_command. calm_op. Qed.
Lemma create_discharge_certificate_calm : relates calm create_discharge_certificate.
Proof. unfold create_discharge_certificate. calm_op. Qed.
#[local] Hint Resolve scpi_command_calm create_discharge_certificate_calm : calm_db.

Lemma stop_discharge_calm g : relates calm (stop_discharge g).
Proof. unfold stop_discharge. calm_op. Qed.

Section Ensures.
Variable Q : App -> Prop.

Lemma ensures_bind {A B} (m : M A) (k : A -> M B) :
  (forall a, ensures Q (k a)) -> ensures Q (bind m k).
Proof.
  intros Hk env st b s. unfold bind.
  destruct (m env st) as [[a|e] s1]; [apply Hk | discriminate].
Qed.

Lemma ensures_modify f : (forall st, Q (f st)) -> ensures Q (modify f).
Proof. intros Hf env st a s [= _ <-]. apply Hf. Qed.
End Ensures.

(** After [scpi_command], nothing [stop_discharge] does sends a command. *)
Lemma create_discharge_certificate_quiet env st :
  frame (fun e => notice e || is_certificate e)%bool st
    (snd (create_discharge_certificate env st)).
Proof. by_preserves. unfold create_discharge_certificate. preserves_tac. Qed.

Lemma frame_command_log P st st' :
  (forall e, P e = true -> is_command e = false) ->
  frame P st st' -> command_log st' = command_log st.
Proof. exact (frame_commands P st st'). Qed.

(** What [stop_discharge] does to the flags, the command log and the
    session id. *)
Lemma stop_discharge_effects (env : Env) (st : App) (g : bool) :
  let st' := snd (stop_discharge g env st) in
  running st' = false /\
  paused st' = false /\
  (connected st = true ->
   exists o, command_log st' = command_log st ++ [(INPut_STATe 0, o)]) /\
  (connected st = false -> command_log st' = command_log st) /\
  (fst (stop_discharge g env st) = Ok tt -> current_discharge_id st' = -1).
Proof.
  cbv zeta. split; [apply stop_discharge_stops|]. split; [|split; [|split]].
  - unfold stop_discharge.
    change (bind get ?k env st) with (k st env st). cbv beta zeta.
    change (bind (modify ?f) ?k env st) with (k tt env (f st)). cbv beta.
    change (bind (modify ?f) ?k env ?s) with (k tt env (f s)). cbv beta.
    match goal with
    | |- paused (snd (?m env ?s)) = false =>
        apply (fun H : relates calm m => proj1 (H env s)); [|reflexivity]
    end.
    calm_op.
  - intros Hc. unfold stop_discharge.
    change (bind get ?k env st) with (k st env st). cbv beta zeta.
    change (bind (modify ?f) ?k env st) with (k tt env (f st)). cbv beta.
    change (bind (modify ?f) ?k env ?s) with (k tt env (f s)). cbv beta.
    rewrite Hc.
    set (s := upd_paused false (upd_running false st)).
    destruct (scpi_command_log (INPut_STATe 0) env s) as (o & Ho & _).
    change (command_log s) with (command_log st) in Ho.
    exists o. rewrite <- Ho. clear Ho.
    assert (Hs1 :
               command_log
                 (snd ((ok <- scpi_command (INPut_STATe 0) ;;
                        st0 <- get ;;
                        when (negb ok && negb (test_mode st0))
                          (log WARNING "Failed stop command (INPut:STATe 0).")) env s))
               = command_log (snd (scpi_command (INPut_STATe 0) env s))).
    { unfold bind at 1.
      destruct (scpi_command (INPut_STATe 0) env s) as [[ok|e] s0]; cbn [snd];
        [|reflexivity].
      change (bind get ?k env s0) with (k s0 env s0). cbv beta.
      destruct (negb ok && negb (test_mode s0))%bool; reflexivity. }
    rewrite <- Hs1. clear Hs1.
    match goal with
    | |- command_log (snd (bind ?A ?R env s)) = _ =>
        destruct (A env s) as [[a|e] s1] eqn:EA;
        [ rewrite (bind_ok _ _ _ _ _ _ EA) | rewrite (bind_raise _ _ _ _ _ _ EA) ]
    end; cbn [snd]; [|reflexivity].
    match goal with
    | |- command_log (snd (?m env s1)) = _ =>
        apply (frame_command_log (fun e => notice e || is_certificate e)%bool);
          [solve_excl|];
        apply (fun H : preserves (fun e => notice e || is_certificate e)%bool m
               => H env s1)
    end.
    repeat first
      [ lazymatch goal with
        | |- preserves _ create_discharge_certificate =>
            intros ? ?; apply create_discharge_certificate_quiet
        end
      | preserves_step ].
  - intros Hc. unfold stop_discharge.
    change (bind get ?k env st) with (k st env st). cbv beta zeta.
    change (bind (modify ?f) ?k env st) with (k tt env (f st)). cbv beta.
    change (bind (modify ?f) ?k env ?s) with (k tt env (f s)). cbv beta.
    rewrite Hc.
    match goal with
    | |- command_log (snd (?m env ?s)) = _ =>
        change (command_log st) with (command_log s);
        apply (frame_command_log (fun e => notice e || is_certificate e)%bool);
          [solve_excl|];
        apply (fun H : preserves (fun e => notice e || is_certificate e)%bool m
               => H env s)
    end.
    repeat first
      [ lazymatch goal with
        | |- preserves _ create_discharge_certificate =>
            intros ? ?; apply create_discharge_certificate_quiet
        end
      | preserves_step ].
  - destruct (stop_discharge g env st) as [[[]|e] s] eqn:E; cbn [fst snd];
      [intros _|discriminate].
    revert E. apply (fun H : ensures (fun s => current_discharge_id s = -1)
                               (stop_discharge g) => H env st tt s).
    unfold stop_discharge.
    repeat (apply ensures_bind; intros ?).
    apply ensures_modify. reflexivity.
Qed.

(** X12: [stop_discharge] always leaves the controller neither running nor
    paused.  When the instrument counts as connected it issues
    INPut:STATe 0 exactly once and no other command; otherwise it issues
    none.  When it returns normally the session id is -1. *)
Theorem stop_discharge_switches_off (env : Env) (st : App) (g : bool) :
  let st' := snd (stop_discharge g env st) in
  running st' = false /\
  paused st' = false /\
  (connected st = true ->
   exists o, command_log st' = command_log st ++ [(INPut_STATe 0, o)]) /\
  (connected st = false -> command_log st' = command_log st) /\
  (fst (stop_discharge g env st) = Ok tt -> current_discharge_id st' = -1).
Proof. exact (stop_discharge_effects env st g). Qed.

Lemma stop_discharge_switches_off_witness :
  let st := app_running default_config false [step_cc] in
  let env := env_answers "301.0 V" "10.0 A" "3010 W" 1010 in
  (exists o, command_log (snd (stop_discharge true env st)) = [(INPut_STATe 0, o)]) /\
  current_discharge_id (snd (stop_discharge true env st)) = -1.
Proof.
  intros st env.
  destruct (stop_discharge_switches_off env st true) as (_ & _ & H1 & _ & H2).
  split; [exact (H1 eq_refl) | apply H2; vm_compute; reflexivity].
Defined.

(** ** When a certificate is written *)

Lemma frame_keeps_certificates P s s' :
  (forall e, P e = true -> is_certificate e = false) ->
  frame P s s' -> certificates s' = certificates s.
Proof. exact (frame_certificates P s s'). Qed.

(** No run in progress: no certificate. *)
Lemma stop_discharge_idle env st g :
  running st = false ->
  certificates (snd (stop_discharge g env st)) = certificates st.
Proof.
  intros Hr.
  apply (fun H : keeps_at (fun s => certificates s = certificates st) st
                   (stop_discharge g) => H eq_refl env).
  unfold stop_discharge.
  repeat keeps_step
    ltac:(rewrite ?Hr; cbn [andb]; cbv iota)
    ltac:(let H := fresh in intros H; exact H)
    ltac:(eapply keeps_frame; cycle 1;
          [ intros; solve [eauto 2 with frames]
          | let F := fresh in
            let H := fresh in
            intros ? ? F H; rewrite <- H;
            eapply frame_keeps_certificates; [ | exact F ]; solve_excl ]).
Qed.

(** No samples: no certificate. *)
Lemma stop_discharge_without_samples env st g :
  data_x st = [] ->
  certificates (snd (stop_discharge g env st)) = certificates st.
Proof.
  intros Hd.
  apply (fun H : keeps_at (fun s => data_x s = [] /\
                                    certificates s = certificates st) st
                   (stop_discharge g) => proj2 (H (conj Hd eq_refl) env)).
  unfold stop_discharge.
  repeat keeps_step
    ltac:(idtac; lazymatch goal with
          | |- keeps_at _ ?s ?m =>
              match m with
              | context C [data_x s] =>
                  let m' := context C [@nil Q] in
                  apply (keeps_subst _ m m' s);
                  [ let H := fresh in intros [H _]; rewrite H; reflexivity
                  | rewrite ?andb_false_r; cbv iota ]
              end
          end)
    ltac:(let H := fresh in intros H; exact H)
    ltac:(eapply keeps_frame; cycle 1;
          [ intros; solve [eauto 2 with frames]
          | let F := fresh in
            let H1 := fresh in
            let H2 := fresh in
            intros ? ? F [H1 H2]; split;
            [ unfold data_x in *; rewrite (keep_data _ _ _ F); exact H1
            | rewrite <- H2;
              eapply frame_keeps_certificates; [ | exact F ]; solve_excl ] ]).
Qed.

(** No open session: no certificate. *)
Lemma stop_discharge_without_session env st g :
  current_discharge_id st = -1 ->
  certificates (snd (stop_discharge g env st)) = certificates st.
Proof.
  intros Hi.
  apply (fun H : keeps_at (fun s => current_discharge_id s = -1 /\
                                    certificates s = certificates st) st
                   (stop_discharge g) => proj2 (H (conj Hi eq_refl) env)).
  unfold stop_discharge, create_discharge_certificate.
  repeat keeps_step
    ltac:(idtac; lazymatch goal with
          | |- keeps_at _ ?s ?m =>
              match m with
              | context C [current_discharge_id s] =>
                  let m' := context C [(-1)%Z] in
                  apply (keeps_subst _ m m' s);
                  [ let H := fresh in intros [H _]; rewrite H; reflexivity
                  | cbn [Z.eqb Pos.eqb negb]; cbv iota ]
              end
          end)
    ltac:(let H := fresh in intros H; first [exact H | split; [reflexivity | apply H]])
    ltac:(let H1 := fresh in
          let H2 := fresh in
          let env := fresh "env" in
          intros [H1 H2] env; split;
          [ lazymatch goal with
            | |- current_discharge_id (snd (?m env ?s)) = -1 =>
                apply (fun H : relates calm m => proj2 (H env s)); [|exact H1];
                solve [eauto 2 with calm_db]
            end
          | rewrite <- H2;
            eapply frame_keeps_certificates;
            [ | solve [eauto 2 with frames] ]; solve_excl ]).
Qed.

(** X13: [stop_discharge] writes a certificate only for a run that was in
    progress, with a report requested, at least one sample collected and
    a session open. *)
Theorem certificate_only_for_a_run (env : Env) (st : App) (g : bool) :
  certificates (snd (stop_discharge g env st)) <> certificates st ->
  running st = true /\ g = true /\ data_x st <> [] /\
  current_discharge_id st <> -1.
Proof.
  intros H. split; [|split; [|split]].
  - destruct (running st) eqn:Hr; [reflexivity|].
    destruct H. apply stop_discharge_idle, Hr.
  - destruct g; [reflexivity|].
    destruct H. apply stop_discharge_no_report.
  - intros Hd. apply H, stop_discharge_without_samples, Hd.
  - intros Hi. apply H, stop_discharge_without_session, Hi.
Qed.

Lemma certificate_only_for_a_run_witness :
  let env := env_answers "350.0 V" "10.0 A" "3500 W" 1010 in
  let st := snd (run_update_loop env (app_running default_config false [step_cc])) in
  certificates (snd (stop_discharge true env st)) = [EvCertificate 1] /\
  running st = true /\ data_x st <> [].
Proof.
  intros env st.
  destruct (certificate_only_for_a_run env st true) as (H1 & _ & H2 & _).
  - vm_compute. discriminate.
  - split; [vm_compute; reflexivity | split; [exact H1 | exact H2]].
Defined.

(** ** Reconnecting *)

(** X14: once a connection loss has been handled and the handling
    returned normally, handling it a second time changes nothing but the
    log: run, data, database, timers and the pending reconnect job are
    those the first handling left (the session is closed once, the dialog
    shown once, one reconnect attempt scheduled). *)
Theorem connection_loss_is_handled_once (env env' : Env) (st : App) :
  fst (handle_connection_loss env st) = Ok tt ->
  let s1 := snd (handle_connection_loss env st) in
  let s2 := snd (handle_connection_loss env' s1) in
  fst (handle_connection_loss env' s1) = Ok tt /\
  run s2 = run s1 /\ data s2 = data s1 /\ db s2 = db s1 /\
  timers s2 = timers s1 /\ _reconnect_job s2 = _reconnect_job s1.
Proof.
  intros Hok s1 s2. subst s2 s1.
  destruct (test_mode st) eqn:Ht.
  { assert (E : forall e, handle_connection_loss e st = (Ok tt, st)).
    { intros e. unfold handle_connection_loss. unfold_monad. norm.
      rewrite Ht. reflexivity. }
    rewrite !E. repeat split. }
  pose proof (handle_connection_loss_stops env st Ht) as Hr.
  pose proof (handle_connection_loss_frame env st) as F.
  assert (Hj : auto_reconnect (config st) = true ->
               _reconnect_job (snd (handle_connection_loss env st)) <> None).
  { intros Ha. revert Hok. unfold handle_connection_loss.
    change (bind get ?k env st) with (k st env st). cbv beta. rewrite Ht.
    change (bind (log ?l ?m) ?k env st) with (k tt env (push_event (EvLog l m) st)).
    cbv beta.
    change (bind (play_sound ?m) ?k env ?s) with (k tt env (push_event (EvSound m) s)).
    cbv beta.
    change (bind (modify ?f) ?k env ?s) with (k tt env (f s)). cbv beta.
    change (bind (modify ?f) ?k env ?s) with (k tt env (f s)). cbv beta.
    change (bind get ?k env ?s) with (k s env s). cbv beta.
    match goal with
    | |- context [bind ?m ?k env ?s] =>
        pose proof (fun H : preserves notice m => H env s) as Fm;
        destruct (m env s) as [[[]|e] s0] eqn:Em;
        [ rewrite (bind_ok _ _ _ _ _ _ Em) | rewrite (bind_raise _ _ _ _ _ _ Em) ]
    end; [|discriminate].
    intros _. cbn [snd] in Fm.
    assert (F0 : frame notice
                   (upd_sock false (upd_connected false
                      (push_event (EvSound "error")
                         (push_event (EvLog WARNING "Handling connection loss.") st)))) s0).
    { apply Fm. preserves_tac. }
    destruct (schedule_reconnect_spec env s0) as (_ & H & _).
    - rewrite (keep_test_mode _ _ _ F0). exact Ht.
    - rewrite (keep_config _ _ _ F0). exact Ha.
    - exact H. }
  set (s1 := snd (handle_connection_loss env st)) in *.
  assert (Ht1 : test_mode s1 = false) by (rewrite (keep_test_mode _ _ _ F); exact Ht).
  assert (Hc1 : config s1 = config st) by exact (keep_config _ _ _ F).
  clearbody s1. clear F Hok.
  unfold handle_connection_loss, _schedule_reconnect. unfold_monad. norm.
  rewrite Ht1, Hr. norm. rewrite Ht1, Hc1. norm.
  destruct (auto_reconnect (config st)) eqn:Ha; norm; [|repeat split].
  specialize (Hj eq_refl). norm.
  destruct (c_reconnect_job (conn s1)) as [j|] eqn:Ej; [|congruence]. norm.
  repeat split.
Qed.

Lemma connection_loss_is_handled_once_witness :
  let st := app_running default_config false [step_cc] in
  let s1 := snd (handle_connection_loss env_socket_down st) in
  let s2 := snd (handle_connection_loss env_socket_down s1) in
  db s2 = db s1 /\ timers s2 = timers s1 /\ length (timers s1) = 1%nat.
Proof.
  intros st s1 s2.
  destruct (connection_loss_is_handled_once env_socket_down env_socket_down st eq_refl)
    as (_ & _ & _ & H1 & H2 & _).
  split; [exact H1 | split; [exact H2 | reflexivity]].
Defined.

(** X15: when the reconnect timer fires in live mode and the connection
    attempt fails, the next attempt is scheduled after the configured
    interval (if auto-reconnect is on), the controller stays
    disconnected, and neither the run nor the resume flag is touched. *)
Theorem reconnect_keeps_trying (env : Env) (st : App) :
  test_mode st = false -> connected st = false ->
  socket_connect env (io_count st) = false ->
  auto_reconnect (config st) = true ->
  let st' := snd (reconnect_tick env st) in
  fst (reconnect_tick env st) = Ok tt /\
  connected st' = false /\ sock st' = false /\
  _reconnect_job st' = Some (w_next_timer (world st)) /\
  timers st' =
    timers st ++
    [{| t_id := w_next_timer (world st);
        t_delay_ms := py_int (auto_reconnect_interval_s (config st) * 1000);
        t_callback := CbReconnectTick |}] /\
  run st' = run st /\ data st' = data st /\ db st' = db st /\
  resume_available st' = resume_available st.
Proof.
  intros Ht Hc Hs Ha. cbv zeta.
  unfold reconnect_tick, connect_instrument, _schedule_reconnect.
  unfold_monad. norm.
  repeat (progress (norm; rewrite ?Ht, ?Hc, ?Hs, ?Ha)).
  repeat split.
Qed.

Lemma reconnect_keeps_trying_witness :
  timers (snd (reconnect_tick env_socket_down app_after_loss)) =
    timers app_after_loss ++
    [{| t_id := 1%nat; t_delay_ms := 5000; t_callback := CbReconnectTick |}].
Proof.
  destruct (reconnect_keeps_trying env_socket_down app_after_loss
              eq_refl eq_refl eq_refl eq_refl) as (_ & _ & _ & _ & H & _).
  exact H.
Defined.

(** ** More on the migration of steps *)

(** X16: migration touches nothing but the stop condition: every other
    key of the step keeps its value, the legacy key ['stop_voltage'] is
    gone from a step that was migrated, and the only failure is
    [AttributeError], for a step without ['stop_condition_type'] whose
    ['type'] is not a string. *)
Theorem migrate_profile_step_fields (step : gmap string pyval) :
  (forall m,
      _migrate_profile_step step = inl m ->
      (forall k,
          k <> "stop_condition_type" -> k <> "stop_condition_value" ->
          k <> "stop_voltage" -> m !! k = step !! k) /\
      (step !! "stop_condition_type" = None -> m !! "stop_voltage" = None)) /\
  (forall e,
      _migrate_profile_step step = inr e ->
      e = AttributeError /\ step !! "stop_condition_type" = None /\
      exists v, step !! "type" = Some v /\ forall t, v <> PStr t) /\
  (step !! "stop_condition_type" = None ->
   (exists v, step !! "type" = Some v /\ forall t, v <> PStr t) ->
   _migrate_profile_step step = inr AttributeError).
Proof.
  unfold _migrate_profile_step, dict_get.
  split; [|split].
  - intros m.
    destruct (step !! "stop_condition_type") as [v|] eqn:E.
    { intros [= <-]. split; [reflexivity | discriminate]. }
    destruct (step !! "type") as [[q|t|]|]; try discriminate.
    all: destruct (step !! "stop_voltage") as [sv|] eqn:Esv;
      destruct (String.eqb (str_upper _) "CV"); intros [= <-]; split.
    all: try (intros k H1 H2 H3;
              rewrite !lookup_insert_ne by congruence;
              rewrite ?lookup_delete_ne by congruence; reflexivity).
    all: intros _; rewrite !lookup_insert_ne by discriminate;
      rewrite ?lookup_delete_eq; try reflexivity; exact Esv.
  - intros e.
    destruct (step !! "stop_condition_type") as [v|] eqn:E; [discriminate|].
    destruct (step !! "type") as [[q|t|]|] eqn:Et.
    + intros [= <-]. repeat split. eexists. split; [reflexivity | discriminate].
    + destruct (step !! "stop_voltage"), (String.eqb (str_upper t) "CV"); discriminate.
    + intros [= <-]. repeat split. eexists. split; [reflexivity | discriminate].
    + destruct (step !! "stop_voltage"), (String.eqb (str_upper "CC") "CV"); discriminate.
  - intros -> (v & -> & Hv). destruct v as [q|t|]; try reflexivity.
    destruct (Hv t eq_refl).
Qed.

Lemma migrate_profile_step_fields_witness :
  exists m,
    _migrate_profile_step legacy_step = inl m /\
    m !! "value" = Some (PNum 380) /\ m !! "type" = Some (PStr "cv") /\
    m !! "stop_voltage" = None /\
    _migrate_profile_step (<["type" := PNum 1]> ∅) = inr AttributeError.
Proof.
  destruct (migrate_profile_step_fields legacy_step) as (H1 & _ & _).
  destruct (migrate_profile_step_fields (<["type" := PNum 1]> ∅)) as (_ & _ & H3).
  destruct (_migrate_profile_step legacy_step) as [m|e] eqn:E;
    [|vm_compute in E; discriminate E].
  destruct (H1 m eq_refl) as [Hk Hs].
  exists m. split; [reflexivity|].
  split; [rewrite Hk by discriminate; reflexivity|].
  split; [rewrite Hk by discriminate; reflexivity|].
  split; [apply Hs; reflexivity|].
  apply H3; [reflexivity|].
  exists (PNum 1). split; [reflexivity | discriminate].
Defined.

Lemma migrate_steps_cons s r :
  migrate_steps (s :: r) =
    match _migrate_profile_step s with
    | inl m =>
        match migrate_steps r with
        | inl ms => inl (m :: ms)
        | inr e => inr e
        end
    | inr e => inr e
    end.
Proof. reflexivity. Qed.

(** What the comprehension evaluates to. *)
Lemma migrate_steps_value (steps : list (gmap string pyval)) :
  (forall ms,
      migrate_steps steps = inl ms ->
      Forall2 (fun s m => _migrate_profile_step s = inl m) steps ms /\
      Forall (fun m => is_Some (m !! "stop_condition_type")) ms /\
      migrate_steps ms = inl ms) /\
  (Forall (fun s => is_Some (s !! "stop_condition_type")) steps ->
   migrate_steps steps = inl steps) /\
  ((exists e, migrate_steps steps = inr e) <->
   Exists (fun s => exists e, _migrate_profile_step s = inr e) steps).
Proof.
  induction steps as [|s r (IH1 & IH2 & IH3)].
  - split; [|split].
    + intros ms [= <-]. repeat constructor.
    + reflexivity.
    + split; [intros [e H]; discriminate H | intros H; inversion H].
  - rewrite migrate_steps_cons. split; [|split].
    + intros ms.
      destruct (_migrate_profile_step s) as [m|e] eqn:Es; [|discriminate].
      destruct (migrate_steps r) as [ms'|e] eqn:Er; [|discriminate].
      intros [= <-]. destruct (IH1 ms' eq_refl) as (F2 & Fk & Fi).
      split; [constructor; assumption|]. split.
      * constructor; [exact (migrate_result_has_type s m Es) | exact Fk].
      * rewrite migrate_steps_cons, Fi.
        destruct (migrate_result_has_type s m Es) as [v Hv].
        rewrite (migrate_has_type m v Hv). reflexivity.
    + intros H. inversion H as [|? ? [v Hv] Hr]; subst.
      rewrite (migrate_has_type s v Hv), (IH2 Hr). reflexivity.
    + destruct (_migrate_profile_step s) as [m|e] eqn:Es.
      * destruct (migrate_steps r) as [ms'|e] eqn:Er.
        -- split; [intros [e H]; discriminate H|].
           intros H. inversion H as [? ? [e He]|? ? Hr]; subst.
           ++ congruence.
           ++ apply IH3 in Hr. destruct Hr as [e He]. discriminate He.
        -- split; [|intros _; eauto].
           intros _. apply Exists_cons_tl, IH3. eauto.
      * split; [|intros _; eauto].
        intros _. apply Exists_cons_hd. eauto.
Qed.

Lemma profile_after_migration_done steps ms :
  migrate_steps steps = inl ms -> profile_after_migration steps = ms.
Proof.
  revert ms. induction steps as [|s r IH]; intros ms.
  - intros [= <-]. reflexivity.
  - rewrite migrate_steps_cons. cbn [profile_after_migration].
    destruct (_migrate_profile_step s) as [m|e]; [|discriminate].
    destruct (migrate_steps r) as [ms'|e]; [|discriminate].
    intros [= <-]. rewrite (IH ms' eq_refl). reflexivity.
Qed.

Lemma profile_after_migration_failed steps e :
  migrate_steps steps = inr e ->
  exists done done' s rest,
    steps = done ++ s :: rest /\
    Forall2 (fun a b => _migrate_profile_step a = inl b) done done' /\
    _migrate_profile_step s = inr e /\
    profile_after_migration steps = done' ++ s :: rest.
Proof.
  induction steps as [|s r IH]; [discriminate|].
  rewrite migrate_steps_cons. cbn [profile_after_migration].
  destruct (_migrate_profile_step s) as [m|e'] eqn:Es.
  - destruct (migrate_steps r) as [ms'|e'] eqn:Er; [discriminate|].
    intros [= ->]. destruct (IH eq_refl) as (d & d' & s0 & rest & -> & F & Hs & Hp).
    exists (s :: d), (m :: d'), s0, rest.
    split; [reflexivity|]. split; [constructor; assumption|].
    split; [exact Hs|]. rewrite Hp. reflexivity.
  - intros [= ->]. exists [], [], s, r. repeat split; [constructor | exact Es].
Qed.

(** X17: the comprehension that migrates a profile yields a list only
    when every step migrates; the list then has as many steps, each the
    migration of the step at its place and each with a
    ['stop_condition_type'], migrating it again changes nothing, and it
    is what the stored profile holds afterwards; a list whose steps all
    have the key is returned as it is.  It raises exactly when the
    migration of one of its steps raises, with that step's exception, and
    then the stored profile is left partly migrated: the steps before the
    failing one have been migrated in place, the failing one and those
    after it are as they were. *)
Theorem migrate_steps_spec (steps : list (gmap string pyval)) :
  (forall ms,
      migrate_steps steps = inl ms ->
      Forall2 (fun s m => _migrate_profile_step s = inl m) steps ms /\
      Forall (fun m => is_Some (m !! "stop_condition_type")) ms /\
      migrate_steps ms = inl ms /\
      profile_after_migration steps = ms) /\
  (Forall (fun s => is_Some (s !! "stop_condition_type")) steps ->
   migrate_steps steps = inl steps) /\
  ((exists e, migrate_steps steps = inr e) <->
   Exists (fun s => exists e, _migrate_profile_step s = inr e) steps) /\
  (forall e,
      migrate_steps steps = inr e ->
      exists done done' s rest,
        steps = done ++ s :: rest /\
        Forall2 (fun a b => _migrate_profile_step a = inl b) done done' /\
        _migrate_profile_step s = inr e /\
        profile_after_migration steps = done' ++ s :: rest).
Proof.
  destruct (migrate_steps_value steps) as (H1 & H2 & H3).
  split; [|split; [exact H2|split; [exact H3|]]].
  - intros ms Hms. destruct (H1 ms Hms) as (A & B & C).
    split; [exact A|]. split; [exact B|]. split; [exact C|].
    exact (profile_after_migration_done steps ms Hms).
  - exact (profile_after_migration_failed steps).
Qed.

Lemma migrate_steps_spec_witness :
  migrate_steps [step_cc; step_cr] = inl [step_cc; step_cr] /\
  (exists e, migrate_steps [legacy_step; <["type" := PNum 1]> ∅] = inr e) /\
  (exists done' s rest,
      profile_after_migration [legacy_step; <["type" := PNum 1]> ∅]
        = done' ++ s :: rest /\
      _migrate_profile_step s = inr AttributeError).
Proof.
  destruct (migrate_steps_spec [step_cc; step_cr]) as (_ & H & _).
  destruct (migrate_steps_spec [legacy_step; <["type" := PNum 1]> ∅])
    as (_ & _ & H3 & H4).
  split; [|split].
  - apply H. repeat constructor; eexists; vm_compute; reflexivity.
  - apply H3. apply Exists_cons_tl, Exists_cons_hd. eexists. vm_compute. reflexivity.
  - destruct (H4 AttributeError) as (d & d' & s & rest & _ & _ & Hs & Hp);
      [vm_compute; reflexivity|].
    exists d', s, rest. split; [exact Hp | exact Hs].
Defined.

(** ** Formatting and parsing *)

Lemma chars_app a b : chars (a ++ b)%string = chars a ++ chars b.
Proof.
  unfold chars. induction a as [|c a IH]; [reflexivity|].
  change (String c a ++ b)%string with (String c (a ++ b)%string).
  cbn [list_ascii_of_string]. rewrite IH. reflexivity.
Qed.

Lemma chars_of_list l : chars (string_of_list_ascii l) = l.
Proof. apply list_ascii_of_string_of_list_ascii. Qed.

(** Digits, the minus sign and the point: what [format_3f] writes. *)
Lemma numeral_char_facts c :
  is_digit c = true \/ c = "-"%char \/ c = "."%char ->
  upper_char c = c /\ is_space c = false /\
  ascii_eqb "V" c = false /\ ascii_eqb "A" c = false /\ ascii_eqb "W" c = false /\
  allowed_char c = true /\ ascii_eqb "+" c = false.
Proof.
  intros [H|[->| ->]]; [|cbv; repeat split..].
  revert H. destruct c as [[] [] [] [] [] [] [] []]; cbv; intros H;
    try discriminate H; repeat split.
Qed.

Lemma upper_numeral l :
  Forall (fun c => is_digit c = true \/ c = "-"%char \/ c = "."%char) l ->
  upper l = l.
Proof.
  induction 1 as [|c l Hc Hl IH]; [reflexivity|]. cbn.
  destruct (numeral_char_facts c Hc) as (-> & _). unfold upper in IH.
  rewrite IH. reflexivity.
Qed.

Lemma delete_unit U l r :
  Forall (fun c => ascii_eqb U c = false) l ->
  delete_from [U] (l ++ r) O = l ++ delete_from [U] r O.
Proof.
  induction 1 as [|c l Hc Hl IH]; [reflexivity|].
  cbn [app delete_from is_prefix]. rewrite Hc. cbn [andb]. rewrite IH. reflexivity.
Qed.

Lemma strip_pad c b a d :
  c :: b = a ++ [d] -> is_space c = false -> is_space d = false ->
  strip ((c :: b) ++ [" "%char]) = c :: b.
Proof.
  intros E Hc Hd. unfold strip.
  assert (L1 : lstrip ((c :: b) ++ [" "%char]) = (c :: b) ++ [" "%char])
    by (cbn [app lstrip]; rewrite Hc; reflexivity).
  rewrite L1, rev_app_distr. change (rev [" "%char]) with [" "%char].
  assert (L2 : lstrip ([" "%char] ++ rev (c :: b)) = rev (c :: b)).
  { change (lstrip ([" "%char] ++ rev (c :: b))) with (lstrip (rev (c :: b))).
    rewrite E, rev_app_distr. change (rev [d]) with [d].
    cbn [app lstrip]. rewrite Hd. reflexivity. }
  rewrite L2. apply rev_involutive.
Qed.

Lemma digit_char j :
  0 <= j <= 9 ->
  is_digit (ascii_of_nat (48 + Z.to_nat j)) = true /\
  digit_val (ascii_of_nat (48 + Z.to_nat j)) = j.
Proof.
  intros H.
  assert (C : j = 0 \/ j = 1 \/ j = 2 \/ j = 3 \/ j = 4 \/ j = 5 \/ j = 6 \/
              j = 7 \/ j = 8 \/ j = 9) by lia.
  repeat (destruct C as [->|C]; [split; reflexivity|]). subst. split; reflexivity.
Qed.

Lemma digits_value_snoc ds c :
  digits_value (ds ++ [c]) = 10 * digits_value ds + digit_val c.
Proof. unfold digits_value. rewrite fold_left_app. reflexivity. Qed.

Lemma digits_of_acc fuel : forall n acc,
  digits_of fuel n acc = digits_of fuel n [] ++ acc.
Proof.
  induction fuel as [|k IH]; intros n acc; [reflexivity|].
  cbn [digits_of]. destruct (n / 10 =? 0); [reflexivity|].
  rewrite (IH _ (_ :: acc)), (IH _ [_]), <- app_assoc. reflexivity.
Qed.

Lemma digits_of_spec fuel : forall n,
  0 <= n < 2 ^ Z.of_nat fuel -> (0 < fuel)%nat ->
  all_digits (digits_of fuel n []) /\
  digits_of fuel n [] <> [] /\
  digits_value (digits_of fuel n []) = n.
Proof.
  induction fuel as [|k IH]; intros n Hn Hf; [lia|].
  cbn [digits_of].
  assert (Hm : 0 <= n mod 10 <= 9) by (pose proof (Z.mod_pos_bound n 10); lia).
  destruct (digit_char (n mod 10) Hm) as [Hd Hv].
  destruct (Z.eqb_spec (n / 10) 0) as [E|E].
  - split; [repeat constructor; exact Hd|]. split; [discriminate|].
    unfold digits_value. cbn [fold_left]. rewrite Hv.
    pose proof (Z.div_mod n 10). lia.
  - rewrite digits_of_acc.
    assert (Hk : 0 <= n / 10 < 2 ^ Z.of_nat k).
    { split; [apply Z.div_pos; lia|].
      apply Z.div_lt_upper_bound; [lia|].
      rewrite Nat2Z.inj_succ, Z.pow_succ_r in Hn by lia. lia. }
    assert (Hk0 : (0 < k)%nat).
    { destruct k; [|lia]. cbn in Hk. lia. }
    destruct (IH (n / 10) Hk Hk0) as (A & N & V).
    split; [apply Forall_app; split; [exact A | repeat constructor; exact Hd]|].
    split; [intros H; apply app_eq_nil in H as [_ H]; discriminate H|].
    rewrite digits_value_snoc, V, Hv. pose proof (Z.div_mod n 10). lia.
Qed.

(** What [_parse_measurement] makes of a numeral with a point, followed
    by a space and the unit. *)
Lemma parse_decimal (neg : bool) (ip fp : list ascii) (U : ascii) :
  all_digits ip -> all_digits fp -> ip <> [] -> fp <> [] ->
  upper_char U = U -> ascii_eqb U " " = false ->
  (forall c, is_digit c = true \/ c = "-"%char \/ c = "."%char ->
             ascii_eqb U c = false) ->
  _parse_measurement
    (Some (string_of_list_ascii
             ((if neg then ["-"%char] else []) ++ ip ++ "."%char :: fp)
           ++ String " " (String U EmptyString))%string)
    (String U EmptyString)
  = Some (decimal_value (if neg then -1 else 1) ip fp 0).
Proof.
  intros Hip Hfp Nip Nfp HU Hsp HUc.
  set (body := (if neg then ["-"%char] else []) ++ ip ++ "."%char :: fp).
  assert (Hbody : Forall (fun c => is_digit c = true \/ c = "-"%char \/ c = "."%char) body).
  { unfold body. apply Forall_app. split;
      [destruct neg; [constructor; [right; left; reflexivity | constructor] | constructor]|].
    apply Forall_app. split.
    - eapply List.Forall_impl; [|exact Hip]. cbn. auto.
    - constructor; [auto|]. eapply List.Forall_impl; [|exact Hfp]. cbn. auto. }
  assert (Hv : value_str (string_of_list_ascii body ++ String " " (String U EmptyString))
                 (String U EmptyString) = body).
  { unfold value_str. rewrite chars_app, chars_of_list. cbn [chars list_ascii_of_string].
    unfold upper at 1. cbn [map]. rewrite HU.
    unfold upper. rewrite map_app. fold (upper body). rewrite (upper_numeral body Hbody).
    cbn [map]. rewrite HU. change (upper_char " ") with " "%char.
    unfold delete_all. rewrite delete_unit.
    2:{ eapply List.Forall_impl; [|exact Hbody]. exact HUc. }
    cbn [delete_from is_prefix]. rewrite Hsp. cbn [andb].
    assert (HUU : ascii_eqb U U = true) by apply Ascii.eqb_refl.
    rewrite HUU. cbn [andb length delete_from].
    (* body = c :: b = a ++ [d] *)
    destruct (exists_last Nfp) as (fa & fd & Efp).
    assert (Hfd : is_digit fd = true).
    { rewrite Efp in Hfp. apply Forall_app in Hfp as [_ Hfp].
      inversion Hfp; assumption. }
    destruct body as [|c b] eqn:Eb.
    { unfold body in Eb. destruct neg, ip; discriminate. }
    apply (strip_pad c b ((if neg then ["-"%char] else []) ++ ip ++ "."%char :: fa) fd).
    - rewrite <- Eb. unfold body. rewrite Efp, <- !app_assoc. reflexivity.
    - inversion Hbody as [|? ? Hc _]. apply (numeral_char_facts c Hc).
    - apply (numeral_char_facts fd). auto. }
  unfold _parse_measurement. rewrite Hv.
  assert (Hall : forallb allowed_char body = true).
  { apply forallb_forall. intros x Hx. rewrite List.Forall_forall in Hbody.
    apply (numeral_char_facts x (Hbody x Hx)). }
  assert (Hrej : rejected body = false).
  { unfold rejected. rewrite Hall. cbn [negb orb]. unfold body.
    rewrite !count_char_app, !count_char_cons.
    rewrite (count_point_digits ip Hip), (count_point_digits fp Hfp).
    rewrite (count_char_digits "-" ip), (count_char_digits "-" fp),
      (count_char_digits "+" ip), (count_char_digits "+" fp); try assumption;
      try (intros x Hx; apply (digit_facts x Hx)).
    destruct neg, ip; try congruence; reflexivity. }
  rewrite Hrej.
  assert (Hf : py_float body = inl (decimal_value (if neg then -1 else 1) ip fp 0)).
  { unfold py_float.
    assert (Hs : take_sign body = (if neg then -1 else 1, ip ++ "."%char :: fp)).
    { unfold body. destruct neg; [reflexivity|]. cbn [app].
      destruct ip as [|c ip']; [congruence|]. cbn [app].
      inversion Hip as [|? ? Hc _]. subst.
      apply take_sign_other; apply (digit_facts c Hc). }
    rewrite Hs. rewrite (span_digits_app ip ("."%char :: fp) Hip) by reflexivity.
    change (ascii_eqb "." ".") with true. cbv iota.
    rewrite (span_digits_all fp Hfp).
    destruct (ip ++ fp) eqn:E; [apply app_eq_nil in E as [E _]; congruence|].
    reflexivity. }
  rewrite Hf. reflexivity.
Qed.

Lemma round_half_even_sign q :
  (Qnum q < 0 -> round_half_even q <= 0) /\
  (0 <= Qnum q -> 0 <= round_half_even q).
Proof.
  unfold round_half_even.
  set (n := Qnum q). set (d := Zpos (Qden q)).
  assert (Hd : 0 < d) by (unfold d; lia).
  pose proof (Z.div_mod n d ltac:(lia)) as Hdm.
  pose proof (Z.mod_pos_bound n d Hd) as Hm.
  split; intros Hn.
  - assert (n / d <= -1) by (apply Z.lt_succ_r, Z.div_lt_upper_bound; lia).
    destruct (_ <? _); [lia|]. destruct (_ <? _); [lia|].
    destruct (Z.even _); lia.
  - assert (0 <= n / d) by (apply Z.div_pos; lia).
    destruct (_ <? _); [lia|]. destruct (_ <? _); [lia|].
    destruct (Z.even _); lia.
Qed.

Lemma round_half_even_close q :
  (- (1 # 2) <= inject_Z (round_half_even q) - q)%Q /\
  (inject_Z (round_half_even q) - q <= 1 # 2)%Q.
Proof.
  unfold round_half_even. destruct q as [n dp]. cbn [Qnum Qden].
  set (d := Zpos dp).
  assert (Hd : 0 < d) by (unfold d; lia).
  pose proof (Z.div_mod n d ltac:(lia)) as Hdm.
  pose proof (Z.mod_pos_bound n d Hd) as Hm.
  set (fl := n / d) in *. set (rm := n mod d) in *.
  assert (Hr : n - fl * d = rm) by lia. rewrite Hr.
  assert (Key : forall R, - d <= 2 * (R * d - n) <= d ->
                (- (1 # 2) <= inject_Z R - (n # dp))%Q /\
                (inject_Z R - (n # dp) <= 1 # 2)%Q).
  { intros R HR. unfold Qle, Qminus, Qplus, Qopp, inject_Z. cbn [Qnum Qden].
    fold d. split; nia. }
  destruct (Z.ltb_spec (2 * rm) d); [apply Key; nia|].
  destruct (Z.ltb_spec d (2 * rm)); [apply Key; nia|].
  destruct (Z.even fl); apply Key; nia.
Qed.

Lemma three_digits fp :
  0 <= fp < 1000 ->
  100 * (fp / 100) + 10 * ((fp / 10) mod 10) + fp mod 10 = fp /\
  0 <= fp / 100 <= 9 /\ 0 <= (fp / 10) mod 10 <= 9 /\ 0 <= fp mod 10 <= 9.
Proof.
  intros H.
  pose proof (Z.div_mod fp 10 ltac:(lia)).
  pose proof (Z.mod_pos_bound fp 10 ltac:(lia)).
  pose proof (Z.div_mod (fp / 10) 10 ltac:(lia)).
  pose proof (Z.mod_pos_bound (fp / 10) 10 ltac:(lia)).
  assert (fp / 100 = fp / 10 / 10) by (rewrite Z.div_div by lia; reflexivity).
  assert (0 <= fp / 10 < 100) by (split; [apply Z.div_pos; lia | apply Z.div_lt_upper_bound; lia]).
  assert (0 <= fp / 10 / 10 < 10) by (split; [apply Z.div_pos; lia | apply Z.div_lt_upper_bound; lia]).
  lia.
Qed.

(** What [f"{x:.3f} U"] parses to. *)
Lemma format_3f_parses (x : Q) (U : ascii) :
  upper_char U = U -> ascii_eqb U " " = false ->
  (forall c, is_digit c = true \/ c = "-"%char \/ c = "."%char ->
             ascii_eqb U c = false) ->
  exists y,
    _parse_measurement
      (Some (format_3f x ++ String " " (String U EmptyString))%string)
      (String U EmptyString) = Some y /\
    (y == inject_Z (round_half_even (x * 1000)) / 1000)%Q /\
    (Qabs (y - x) <= 1 # 2000)%Q.
Proof.
  intros HU Hsp HUc. unfold format_3f.
  set (R := round_half_even (x * 1000)).
  set (m := Z.abs R).
  assert (Hm : 0 <= m) by (unfold m; lia).
  set (ip := m / 1000). set (fp := m mod 1000).
  assert (Hfp : 0 <= fp < 1000) by (apply Z.mod_pos_bound; lia).
  assert (Hip : 0 <= ip) by (apply Z.div_pos; lia).
  destruct (three_digits fp Hfp) as (E3 & B1 & B2 & B3).
  destruct (digit_char _ B1) as [D1 V1].
  destruct (digit_char _ B2) as [D2 V2].
  destruct (digit_char _ B3) as [D3 V3].
  set (fuel := S (Z.to_nat (Z.log2 ip))).
  assert (Hfuel : 0 <= ip < 2 ^ Z.of_nat fuel).
  { split; [exact Hip|]. unfold fuel.
    rewrite Nat2Z.inj_succ, Z2Nat.id by apply Z.log2_nonneg.
    destruct (Z.eq_dec ip 0) as [->|Hne]; [reflexivity|].
    apply Z.log2_spec. lia. }
  destruct (digits_of_spec fuel ip Hfuel ltac:(unfold fuel; lia)) as (A & N & V).
  set (D := digits_of fuel ip []) in *.
  set (F := [ascii_of_nat (48 + Z.to_nat (fp / 100));
             ascii_of_nat (48 + Z.to_nat ((fp / 10) mod 10));
             ascii_of_nat (48 + Z.to_nat (fp mod 10))]).
  assert (HF : all_digits F) by (repeat constructor; assumption).
  change (D ++ ["."%char] ++ F) with (D ++ "."%char :: F).
  rewrite (parse_decimal (Qltb x 0) D F U A HF N ltac:(discriminate) HU Hsp HUc).
  eexists. split; [reflexivity|].
  assert (Hval : digits_value (D ++ F) = m).
  { unfold digits_value. rewrite fold_left_app. fold (digits_value D). rewrite V.
    unfold F. cbn [fold_left]. rewrite V1, V2, V3.
    pose proof (Z.div_mod m 1000 ltac:(lia)). fold ip fp in H. lia. }
  assert (Hsign : (if Qltb x 0 then -1 else 1) * m = R).
  { destruct (round_half_even_sign (x * 1000)) as [Sn Sp]. fold R in Sn, Sp.
    assert (Hnum : Qnum (x * 1000) = Qnum x * 1000) by reflexivity.
    unfold Qltb, Qle_bool. cbn [Qnum Qden].
    destruct (Z.leb_spec (0 * Zpos (Qden x)) (Qnum x * 1)); cbn [negb]; unfold m; lia. }
  assert (Hy : (decimal_value (if Qltb x 0 then -1 else 1) D F 0
                == inject_Z R / 1000)%Q).
  { unfold decimal_value. rewrite Hval, Hsign. reflexivity. }
  split; [exact Hy|].
  rewrite Hy. apply Qabs_Qle_condition.
  destruct (round_half_even_close (x * 1000)) as [L1 L2]. fold R in L1, L2.
  assert (E : (inject_Z R / 1000 == inject_Z R * (1 # 1000))%Q)
    by (unfold Qdiv; reflexivity).
  rewrite E. clear E Hy Hsign.
  generalize dependent (inject_Z R). intros r L1 L2.
  split; lra.
Qed.

(** X18: in test mode a measurement query answers with the simulated
    value written with three decimals and its unit, and
    [_parse_measurement] reads that answer back as the value rounded to
    three decimals, so within 0.0005 of the simulated value. *)
Theorem simulated_answer_parses_back (env : Env) (st : App) :
  test_mode st = true ->
  (exists r y,
      fst (scpi_query MEASure_VOLTage_q env st) = Ok (Some r) /\
      _parse_measurement (Some r) "V" = Some y /\
      (y == inject_Z (round_half_even (sim_voltage st * 1000)) / 1000)%Q /\
      (Qabs (y - sim_voltage st) <= 1 # 2000)%Q) /\
  (exists r y,
      fst (scpi_query MEASure_CURRent_q env st) = Ok (Some r) /\
      _parse_measurement (Some r) "A" = Some y /\
      (y == inject_Z (round_half_even (sim_current st * 1000)) / 1000)%Q /\
      (Qabs (y - sim_current st) <= 1 # 2000)%Q) /\
  (exists r y,
      fst (scpi_query MEASure_POWer_q env st) = Ok (Some r) /\
      _parse_measurement (Some r) "W" = Some y /\
      (y == inject_Z (round_half_even (sim_power st * 1000)) / 1000)%Q /\
      (Qabs (y - sim_power st) <= 1 # 2000)%Q).
Proof.
  intros Ht.
  assert (Q1 : forall q, is_measure q = true ->
             fst (scpi_query q env st) =
             Ok (Some (match q with
                       | MEASure_VOLTage_q => format_3f (sim_voltage st) ++ " V"
                       | MEASure_CURRent_q => format_3f (sim_current st) ++ " A"
                       | _ => format_3f (sim_power st) ++ " W"
                       end)%string)).
  { intros q Hq. unfold scpi_query. unfold_monad. norm. rewrite Ht, Hq. reflexivity. }
  split; [|split].
  - destruct (format_3f_parses (sim_voltage st) "V" eq_refl eq_refl) as (y & H1 & H2 & H3).
    { intros c Hc. apply (numeral_char_facts c Hc). }
    eexists _, y. split; [apply (Q1 MEASure_VOLTage_q eq_refl)|].
    split; [exact H1 | split; assumption].
  - destruct (format_3f_parses (sim_current st) "A" eq_refl eq_refl) as (y & H1 & H2 & H3).
    { intros c Hc. apply (numeral_char_facts c Hc). }
    eexists _, y. split; [apply (Q1 MEASure_CURRent_q eq_refl)|].
    split; [exact H1 | split; assumption].
  - destruct (format_3f_parses (sim_power st) "W" eq_refl eq_refl) as (y & H1 & H2 & H3).
    { intros c Hc. apply (numeral_char_facts c Hc). }
    eexists _, y. split; [apply (Q1 MEASure_POWer_q eq_refl)|].
    split; [exact H1 | split; assumption].
Qed.

Lemma simulated_answer_parses_back_witness :
  exists r y,
    fst (scpi_query MEASure_VOLTage_q env_socket_down
           (app_running default_config true [step_cc])) = Ok (Some r) /\
    _parse_measurement (Some r) "V" = Some y /\
    (Qabs (y - 400) <= 1 # 2000)%Q.
Proof.
  destruct (simulated_answer_parses_back env_socket_down
              (app_running default_config true [step_cc]) eq_refl)
    as ((r & y & H1 & H2 & _ & H3) & _).
  exists r, y. split; [exact H1 | split; [exact H2 | exact H3]].
Defined.

(** ** Starting a run *)

Lemma bind_bind {A B C} (m : M A) (k1 : A -> M B) (k2 : B -> M C) env s :
  bind (bind m k1) k2 env s = bind m (fun a => bind (k1 a) k2) env s.
Proof. unfold bind. destruct (m env s) as [[a|e] s']; reflexivity. Qed.

(** Running a program whose next step is known. *)
Ltac run_head :=
  first
    [ progress change (bind get ?k ?env ?s) with (k s env s)
    | progress change (bind (ret ?a) ?k ?env ?s) with (k a env s)
    | progress change (bind (modify ?f) ?k ?env ?s) with (k tt env (f s))
    | progress change (bind (consult ?o) ?k ?env ?s)
        with (k (o env (w_io_count (world s))) env (next_io s))
    | progress change (bind (log ?l ?m) ?k ?env ?s)
        with (k tt env (push_event (EvLog l m) s))
    | progress change (bind (play_sound ?m) ?k ?env ?s)
        with (k tt env (push_event (EvSound m) s))
    | progress change (bind (messagebox ?d ?m) ?k ?env ?s)
        with (k tt env (push_event (EvDialog d m) s))
    | rewrite bind_bind ];
  cbv beta.

(** X19: [start_discharge] refuses to start when the instrument is not
    connected, when a run is in progress, or when no known profile is
    selected: it returns normally and the state is what it was, with one
    dialog and one sound added.  With an empty profile, or when no
    registration number is entered, it also gives up: no run is started,
    nothing is written to the database, no command is sent, no timer is
    scheduled and the collected data are kept; only the selected profile
    has been taken over. *)
Theorem start_discharge_refused (env : Env) (st : App)
    (profiles : gmap string (list (gmap string pyval))) (name : string) :
  (connected st = false \/ running st = true \/ name = "" \/ profiles !! name = None ->
   exists kind title sound,
     start_discharge profiles name env st =
       (Ok tt, push_event (EvSound sound) (push_event (EvDialog kind title) st))) /\
  (forall steps migrated,
      connected st = true -> running st = false -> name <> "" ->
      profiles !! name = Some steps ->
      migrate_steps steps = inl migrated ->
      migrated = [] \/ askstring env (io_count st) = None \/
      askstring env (io_count st) = Some "" ->
      let st' := snd (start_discharge profiles name env st) in
      fst (start_discharge profiles name env st) = Ok tt /\
      running st' = false /\
      current_profile_data st' = migrated /\
      db st' = db st /\ command_log st' = command_log st /\
      timers st' = timers st /\ data st' = data st /\
      current_discharge_id st' = current_discharge_id st).
Proof.
  split.
  - intros H. unfold start_discharge. run_head.
    destruct (connected st) eqn:Hc; cbn [negb].
    2:{ eexists _, _, _. reflexivity. }
    destruct (running st) eqn:Hr.
    { eexists _, _, _. reflexivity. }
    destruct H as [H|[H|[H|H]]]; try discriminate.
    + subst name. cbn [String.eqb]. eexists _, _, _. reflexivity.
    + rewrite H. destruct (String.eqb name ""); eexists _, _, _; reflexivity.
  - intros steps migrated Hc Hr Hn Hp Hm H. cbv zeta.
    unfold start_discharge. run_head. rewrite Hc, Hr. cbn [negb].
    apply String.eqb_neq in Hn. rewrite Hn, Hp, Hm. run_head.
    destruct migrated as [|m0 ms].
    { repeat split; reflexivity || exact Hr. }
    destruct H as [H|H]; [discriminate|]. run_head.
    change (w_io_count (world (upd_current_profile_data (m0 :: ms) st)))
      with (io_count st).
    destruct H as [-> | ->]; repeat split; reflexivity || exact Hr.
Qed.

Lemma start_discharge_refused_witness :
  let profiles : gmap string (list (gmap string pyval)) :=
    <["Default CC" := [step_cc]]> ∅ in
  fst (start_discharge profiles "Default CC" env_socket_down app_idle) = Ok tt /\
  running (snd (start_discharge profiles "Default CC" env_socket_down app_idle))
    = false /\
  (exists kind title sound,
      start_discharge profiles "Missing" env_socket_down app_idle =
        (Ok tt, push_event (EvSound sound) (push_event (EvDialog kind title) app_idle))).
Proof.
  intros profiles.
  destruct (start_discharge_refused env_socket_down app_idle profiles "Default CC")
    as [_ H2].
  destruct (start_discharge_refused env_socket_down app_idle profiles "Missing")
    as [H1 _].
  destruct (H2 [step_cc] [step_cc] eq_refl eq_refl) as (R1 & R2 & _).
  - discriminate.
  - vm_compute. reflexivity.
  - vm_compute. reflexivity.
  - right. left. reflexivity.
  - split; [exact R1|]. split; [exact R2|].
    apply H1. right. right. right. vm_compute. reflexivity.
Defined.

Lemma ask_operator_and_location_spec env s :
  ask_operator_and_location env s = (Ok tt, next_io s) \/
  ask_operator_and_location env s = (Ok tt, next_io (next_io s)).
Proof.
  unfold ask_operator_and_location. run_head.
  destruct (askstring env (w_io_count (world s))); [right | left]; reflexivity.
Qed.

(** [reset_data_internal] clears and then, at most, reads the
    instrument. *)
Lemma reset_data_internal_frame env s :
  frame notice (reset_sim (clear_data s)) (snd (reset_data_internal env s)).
Proof.
  unfold reset_data_internal. run_head. run_head.
  by_preserves. unfold update_measurement_display. preserves_tac.
Qed.

Lemma start_new_discharge_locked reg profile mode env s :
  (forall n, sqlite3_connect env n = true) ->
  (forall n, sqlite3_execute env n = false) ->
  start_new_discharge reg profile mode env s =
    (Ok (-1),
     push_event (EvSound "error")
       (push_event (EvLog ERROR "Failed to start new discharge in DB")
          (next_io (next_io (next_io s))))).
Proof.
  intros Hc He. unfold start_new_discharge, _get_connection.
  repeat run_head. rewrite Hc. repeat run_head. rewrite He. reflexivity.
Qed.

Lemma start_new_discharge_unreachable reg profile mode env s :
  (forall n, sqlite3_connect env n = false) ->
  start_new_discharge reg profile mode env s =
    (Raise SqliteError,
     push_event (EvLog ERROR "Database connection error") (next_io s)).
Proof.
  intros Hc. unfold start_new_discharge, _get_connection.
  repeat run_head. rewrite Hc. reflexivity.
Qed.

Lemma start_new_discharge_written reg profile mode env s :
  (forall n, sqlite3_connect env n = true) ->
  (forall n, sqlite3_execute env n = true) ->
  start_new_discharge reg profile mode env s =
    (Ok (next_rowid (db s)),
     upd_db (insert_discharge reg profile mode
               (datetime_now env (S (io_count s))) (db s))
       (next_io (next_io (next_io s)))).
Proof.
  intros Hc He. unfold start_new_discharge, _get_connection.
  repeat run_head. rewrite Hc. repeat run_head. rewrite He. reflexivity.
Qed.

(** Runs the first step of the program under [Q] in a goal
    [Q (m env s)], where it is a primitive. *)
Ltac run_top :=
  lazymatch goal with
  | |- ?Q (bind get ?k ?env ?s) => change (Q (k s env s))
  | |- ?Q (bind (ret ?a) ?k ?env ?s) => change (Q (k a env s))
  | |- ?Q (bind (modify ?f) ?k ?env ?s) => change (Q (k tt env (f s)))
  | |- ?Q (bind (consult ?o) ?k ?env ?s) =>
      change (Q (k (o env (w_io_count (world s))) env (next_io s)))
  | |- ?Q (bind (log ?l ?m) ?k ?env ?s) =>
      change (Q (k tt env (push_event (EvLog l m) s)))
  | |- ?Q (bind (play_sound ?m) ?k ?env ?s) =>
      change (Q (k tt env (push_event (EvSound m) s)))
  | |- ?Q (bind (messagebox ?d ?m) ?k ?env ?s) =>
      change (Q (k tt env (push_event (EvDialog d m) s)))
  | |- ?Q (bind (bind ?m ?k1) ?k2 ?env ?s) => rewrite (bind_bind m k1 k2 env s)
  end;
  cbv beta.

(** Runs [start_discharge] up to the call of [reset_data_internal]; the
    goal is first folded into [Q (start_discharge ...)]. *)
Ltac start_prefix Hc Hr Hn Hp Hm Hreg Hne :=
  match goal with
  | |- context [start_discharge ?p ?n ?env ?st] =>
      pattern (start_discharge p n env st);
      match goal with |- ?P _ => let Q := fresh "Q" in set (Q := P) end
  end;
  unfold start_discharge; run_top; rewrite Hc, Hr; cbn [negb];
  rewrite (proj2 (String.eqb_neq _ _) Hn), Hp, Hm; run_top; run_top;
  lazymatch type of Hreg with
  | askstring ?env ?n0 = _ =>
      match goal with
      | |- context [askstring env ?n] => change n with n0
      end
  end;
  rewrite Hreg;
  match goal with
  | reg : string |- _ =>
      lazymatch type of Hne with
      | reg <> _ => destruct reg as [|? ?]; [congruence|]
      end
  end;
  cbv iota;
  match goal with
  | |- context [bind ask_operator_and_location ?k ?env ?s] =>
      destruct (ask_operator_and_location_spec env s) as [E|E];
      rewrite (bind_ok _ _ _ _ _ _ E); clear E
  end;
  run_top.

(** X20: when the session cannot be written (the database opens but the
    INSERT fails), [start_discharge] gives up: the run is not running
    afterwards and no command has been sent to the load; when it returns
    normally the session id is -1, the energy is 0, no samples are held and
    the last thing shown is the error dialog "Database Error". *)
Theorem start_discharge_without_session (env : Env) (st : App)
    (profiles : gmap string (list (gmap string pyval))) (name reg : string)
    (steps : list (gmap string pyval)) (m0 : gmap string pyval)
    (ms : list (gmap string pyval)) :
  connected st = true -> running st = false -> name <> "" ->
  profiles !! name = Some steps ->
  migrate_steps steps = inl (m0 :: ms) ->
  askstring env (io_count st) = Some reg -> reg <> "" ->
  (forall n, sqlite3_connect env n = true) ->
  (forall n, sqlite3_execute env n = false) ->
  let st' := snd (start_discharge profiles name env st) in
  running st' = false /\
  command_log st' = command_log st /\
  (fst (start_discharge profiles name env st) = Ok tt ->
   current_discharge_id st' = -1 /\
   energy_discharged st' = 0%Q /\
   samples st' = ([], [], [], []) /\
   exists earlier, trace st' = EvDialog showerror "Database Error" :: earlier).
Proof.
  intros Hc Hr Hn Hp Hm Hreg Hne Hdc Hde. cbv zeta.
  start_prefix Hc Hr Hn Hp Hm Hreg Hne.
  all: match goal with
       | |- context [bind reset_data_internal ?k ?env ?s] =>
           pose proof (reset_data_internal_frame env s) as F;
           destruct (reset_data_internal env s) as [[[]|e] s4] eqn:E4;
           [ rewrite (bind_ok _ _ _ _ _ _ E4) | rewrite (bind_raise _ _ _ _ _ _ E4) ];
           cbn [snd fst] in F
       end.
  all: pose proof (keep_stopped _ _ _ F Hr) as R4.
  all: pose proof (frame_commands notice _ _ ltac:(solve_excl) F) as C4.
  all: pose proof (keep_data _ _ _ F) as D4.
  all: clear F E4.
  all: assert (C : command_log s4 = command_log st) by exact C4; clear C4.
  2, 4: subst Q; cbv beta; cbn [fst snd];
    split; [exact R4|]; split; [exact C|]; discriminate.
  all: do 7 run_top.
  all: rewrite (bind_ok _ _ _ _ _ _ (start_new_discharge_locked _ _ _ _ _ Hdc Hde)).
  all: run_top.
  all: change (-1 =? -1) with true; cbv iota.
  all: run_top.
  all: subst Q; cbv beta.
  all: unfold modify; cbn [fst snd].
  all: split; [reflexivity|].
  all: split; [exact C|].
  all: intros _; split; [reflexivity|].
  all: split; [change (energy_discharged s4 = 0%Q); unfold energy_discharged; fold (data s4); rewrite D4; reflexivity|].
  all: split; [change (samples s4 = ([], [], [], [])); unfold samples, data_x, data_voltage, data_current, data_power; fold (data s4); rewrite D4; reflexivity|].
  all: eexists; reflexivity.
Qed.

Lemma start_discharge_without_session_witness :
  let st' := snd (start_discharge profiles_default "Default CC"
                    (env_operator "kx123" false) app_idle) in
  running st' = false /\ command_log st' = [] /\ current_discharge_id st' = -1 /\
  exists earlier, trace st' = EvDialog showerror "Database Error" :: earlier.
Proof.
  destruct (start_discharge_without_session (env_operator "kx123" false) app_idle
              profiles_default "Default CC" "kx123" [step_cc] step_cc [])
    as (R & C & H).
  - reflexivity.
  - reflexivity.
  - discriminate.
  - vm_compute. reflexivity.
  - vm_compute. reflexivity.
  - reflexivity.
  - discriminate.
  - reflexivity.
  - reflexivity.
  - cbv zeta. split; [exact R|]. split; [exact C|].
    destruct H as (I & _ & _ & D); [vm_compute; reflexivity|].
    split; [exact I | exact D].
Defined.

(** A session present in a database is present, up to its closing
    columns, in every database grown from it. *)
Lemma db_grows_row d d' r :
  db_grows d d' -> List.In r (discharges d) ->
  exists r', List.In r' (discharges d') /\ same_session r r'.
Proof.
  intros (_ & (old & more & Hd & HF) & _) Hin. rewrite Hd. clear Hd.
  induction HF as [|x y l l' Hxy HF IH]; [destruct Hin|].
  destruct Hin as [->|Hin].
  - exists y. split; [left; reflexivity | exact Hxy].
  - destruct (IH Hin) as (r' & Hr' & Hs). exists r'.
    split; [right; exact Hr' | exact Hs].
Qed.

(** What [start_discharge] does once the session is written. *)
Lemma start_discharge_tail_db :
  relates db_step
    (st1 <- get ;;
     when (test_mode st1) (modify reset_sim) ;;
     ok <- scpi_command (INPut_STATe 1) ;;
     st2 <- get ;;
     if (negb ok && negb (test_mode st2))%bool
     then (messagebox showerror "Command Error" ;; stop_discharge false)
     else (apply_profile_step ;; run_update_loop)).
Proof. db_op. Qed.

(** In test mode clearing the data reads nothing and returns. *)
Lemma reset_data_internal_test env s :
  test_mode s = true -> fst (reset_data_internal env s) = Ok tt.
Proof.
  intros Ht. unfold reset_data_internal, update_measurement_display.
  do 3 run_head.
  change (test_mode (reset_sim (clear_data s))) with (test_mode s).
  rewrite Ht. reflexivity.
Qed.

(** X21: with a connected instrument, a known non-empty profile, a
    registration number entered and a database that accepts the INSERT,
    [start_discharge] opens a session: unless clearing the previous data
    raised (which cannot happen in test mode), the database then holds a
    new session row with the registration number stripped and upper-cased,
    the selected profile and the mode the run was started in. *)
Theorem start_discharge_opens_session (env : Env) (st : App)
    (profiles : gmap string (list (gmap string pyval))) (name reg : string)
    (steps : list (gmap string pyval)) (m0 : gmap string pyval)
    (ms : list (gmap string pyval)) :
  connected st = true -> running st = false -> name <> "" ->
  profiles !! name = Some steps ->
  migrate_steps steps = inl (m0 :: ms) ->
  askstring env (io_count st) = Some reg -> reg <> "" ->
  db_wf (db st) ->
  (forall n, sqlite3_connect env n = true) ->
  (forall n, sqlite3_execute env n = true) ->
  test_mode st = true \/ fst (start_discharge profiles name env st) = Ok tt ->
  exists row,
    List.In row (discharges (db (snd (start_discharge profiles name env st)))) /\
    next_rowid (db st) <= d_id row /\
    d_registration_number row = str_upper (str_strip reg) /\
    d_profile_name row = name /\
    d_mode row = (if test_mode st then "Test" else "Real").
Proof.
  intros Hc Hr Hn Hp Hm Hreg Hne Hwf Hdc Hde.
  start_prefix Hc Hr Hn Hp Hm Hreg Hne.
  all: match goal with
       | |- context [bind reset_data_internal ?k ?env ?s] =>
           pose proof (reset_data_internal_frame env s) as F;
           assert (GW : db_step s (snd (reset_data_internal env s)))
             by apply reset_data_internal_db;
           pose proof (reset_data_internal_test env s) as T4;
           destruct (reset_data_internal env s) as [[[]|e] s4] eqn:E4;
           [ rewrite (bind_ok _ _ _ _ _ _ E4) | rewrite (bind_raise _ _ _ _ _ _ E4) ];
           cbn [snd fst] in F, GW, T4
       end.
  all: destruct GW as [G W].
  all: pose proof (keep_test_mode _ _ _ F) as M4.
  all: clear F E4.
  2, 4: subst Q; cbv beta; cbn [fst snd]; intros [Ht|Ht];
    [specialize (T4 Ht)|]; discriminate.
  all: assert (G4 : db_grows (db st) (db s4)) by exact G.
  all: assert (W4 : db_wf (db s4)) by (apply W; exact Hwf).
  all: assert (M : test_mode s4 = test_mode st) by exact M4.
  all: clear G W T4 M4.
  all: do 7 run_top;
    rewrite (bind_ok _ _ _ _ _ _ (start_new_discharge_written _ _ _ _ _ Hdc Hde));
    run_top.
  all: match goal with
       | |- context [?id =? -1] =>
           replace (id =? -1) with false
             by (symmetry; apply Z.eqb_neq; change (next_rowid (db s4) <> -1);
                 destruct W4 as [Hpos _]; lia)
       end; cbv iota.
  all: lazymatch goal with
       | |- _ (?T ?env ?s) =>
           assert (GT : db_step s (snd (T env s))) by apply start_discharge_tail_db;
           destruct GT as [GT _];
           assert (Hin : exists row,
                      List.In row (discharges (db s)) /\
                      d_id row = next_rowid (db s4) /\
                      d_registration_number row = str_upper (str_strip (String a reg)) /\
                      d_profile_name row = name /\
                      d_mode row = (if test_mode s4 then "Test" else "Real"))
             by (eexists; split;
                 [ apply in_or_app; right; left; reflexivity
                 | repeat split; reflexivity ])
       end.
  all: destruct Hin as (row & Hin & H1 & H2 & H3 & H4).
  all: destruct (db_grows_row _ _ row GT Hin) as (r' & Hr' & S1 & S2 & S3 & _ & S5).
  all: subst Q; cbv beta; intros _; exists r'.
  all: split; [exact Hr'|].
  all: rewrite S1, S2, S3, S5, H1, H2, H3, H4, M.
  all: destruct G4 as (_ & _ & Hle).
  all: split; [exact Hle|]; repeat split; reflexivity.
Qed.

Lemma start_discharge_opens_session_witness :
  exists row,
    List.In row (discharges (db (snd (start_discharge profiles_default "Default CC"
                                        (env_operator " kx123 " true) app_idle)))) /\
    d_registration_number row = "KX123" /\ d_mode row = "Real".
Proof.
  destruct (start_discharge_opens_session (env_operator " kx123 " true) app_idle
              profiles_default "Default CC" " kx123 " [step_cc] step_cc [])
    as (row & Hin & _ & Hreg & _ & Hmode).
  - reflexivity.
  - reflexivity.
  - discriminate.
  - vm_compute. reflexivity.
  - vm_compute. reflexivity.
  - reflexivity.
  - discriminate.
  - vm_compute. repeat split; try constructor. 
  - reflexivity.
  - reflexivity.
  - right. vm_compute. reflexivity.
  - exists row. split; [exact Hin|]. split; [exact Hreg | exact Hmode].
Defined.

(** ** Disconnecting and changing mode *)

(** Splits a goal into its parts and closes those that hold by
    computation or are excluded by the hypotheses. *)
Ltac settle :=
  repeat match goal with
         | |- _ /\ _ => split
         | |- _ -> _ => intro
         | H : _ /\ _ |- _ => destruct H
         | H : _ \/ _ |- _ => destruct H
         end;
  try reflexivity; try discriminate; try congruence.

(** X22: when [disconnect_instrument] returns, the program counts as
    disconnected and the mode is what it was.  In test mode nothing is
    sent and the socket is not touched.  In live mode the socket is given
    up, and the load is told to switch its input off (one INPut:STATe 0)
    exactly when there was a socket and the program counted as connected;
    otherwise no command is sent. *)
Theorem disconnect_instrument_disconnects (env : Env) (st : App) :
  let r := disconnect_instrument env st in
  fst r = Ok tt ->
  connected (snd r) = false /\
  test_mode (snd r) = test_mode st /\
  (test_mode st = true ->
   sock (snd r) = sock st /\ command_log (snd r) = command_log st) /\
  (test_mode st = false ->
   sock (snd r) = false /\
   ((sock st = true /\ connected st = true ->
     exists o, command_log (snd r) = command_log st ++ [(INPut_STATe 0, o)]) /\
    (sock st = false \/ connected st = false ->
     command_log (snd r) = command_log st))).
Proof.
  cbv zeta.
  pose proof (scpi_command_frame (INPut_STATe 0) env st) as F.
  destruct (scpi_command_log (INPut_STATe 0) env st) as (o & L & _).
  pose proof (keep_test_mode _ _ _ F) as T. clear F.
  unfold disconnect_instrument, command_log in *. unfold_monad. norm.
  destruct (c_test_mode (conn st)) eqn:Ht; norm; [settle|].
  destruct (c_sock (conn st)) eqn:Hs; norm; [|settle].
  destruct (c_connected (conn st)) eqn:Hc; norm; [|rewrite Hs; norm; settle].
  destruct (scpi_command (INPut_STATe 0) env st) as [[b|e] s] eqn:E;
    cbn [fst snd] in *; norm.
  - destruct (c_sock (conn s)) eqn:Hs'; norm; settle; exists o; exact L.
  - destruct e; norm; settle; exists o; exact L.
Qed.

Lemma disconnect_instrument_disconnects_witness :
  let r := disconnect_instrument (env_operator "kx123" true) app_idle in
  connected (snd r) = false /\ sock (snd r) = false /\
  exists o, command_log (snd r) = [(INPut_STATe 0, o)].
Proof.
  destruct (disconnect_instrument_disconnects (env_operator "kx123" true) app_idle)
    as (C & _ & _ & H).
  - reflexivity.
  - destruct (H eq_refl) as (S & L & _).
    cbv zeta. split; [exact C|]. split; [exact S|].
    exact (L (conj eq_refl eq_refl)).
Defined.

(** X23: ticking the test-mode box while no run is in progress switches to
    the simulation without a word to the instrument: the program counts
    as connected, the simulation starts from the configured values, no
    command is sent, no dialog is shown, no sound is played, no warning
    or error is logged and nothing is closed - a socket that was open
    stays open, and data and database are untouched.  (The two lines the
    code logs here are of level INFO, which the trace does not record.) *)
Theorem entering_test_mode_keeps_socket (env : Env) (st : App) :
  test_mode st = false -> running st = false ->
  let r := click_test_mode env st in
  fst r = Ok tt /\
  test_mode (snd r) = true /\ connected (snd r) = true /\
  sock (snd r) = sock st /\ trace (snd r) = trace st /\
  db (snd r) = db st /\ data (snd r) = data st /\ run (snd r) = run st /\
  sim_voltage (snd r) = test_mode_initial_voltage (config st) /\
  sim_current (snd r) = 0%Q /\ sim_power (snd r) = 0%Q /\
  sim_cv_current (snd r) = test_mode_cv_current_start (config st).
Proof.
  intros Ht Hr. cbv zeta.
  unfold click_test_mode, toggle_test_mode, disconnect_instrument,
    update_measurement_display, reset_sim, upd_test_mode.
  unfold_monad. norm. rewrite Ht, Hr. norm.
  destruct (c_connected (conn st)); norm; repeat split; reflexivity.
Qed.

Lemma entering_test_mode_keeps_socket_witness :
  let r := click_test_mode env_socket_down app_idle in
  test_mode (snd r) = true /\ connected (snd r) = true /\ sock (snd r) = true /\
  trace (snd r) = [].
Proof.
  destruct (entering_test_mode_keeps_socket env_socket_down app_idle eq_refl eq_refl)
    as (_ & T & C & S & L & _).
  cbv zeta. split; [exact T|]. split; [exact C|]. split; [exact S | exact L].
Defined.

(** X24: during a run the mode cannot be changed: the click is undone with
    a warning, and mode, connection, run, data, simulation, database and
    timers are what they were. *)
Theorem mode_change_denied_while_running (env : Env) (st : App) :
  running st = true ->
  let r := click_test_mode env st in
  fst r = Ok tt /\
  test_mode (snd r) = test_mode st /\
  same_but_log st (snd r) /\
  trace (snd r) =
    EvSound "warning" :: EvDialog showwarning "Mode Change Denied" :: trace st.
Proof.
  intros Hr. cbv zeta.
  unfold click_test_mode, toggle_test_mode, upd_test_mode, same_but_log.
  unfold_monad. norm. rewrite Hr. norm.
  rewrite Bool.negb_involutive.
  destruct st as [cfg [tm cn sk ra rj] rn dt sm wd]. cbn.
  repeat split; reflexivity.
Qed.

Lemma mode_change_denied_while_running_witness :
  test_mode (snd (click_test_mode env_socket_down
                    (app_running default_config false [step_cc]))) = false.
Proof.
  destruct (mode_change_denied_while_running env_socket_down
              (app_running default_config false [step_cc]) eq_refl)
    as (_ & T & _).
  exact T.
Defined.

(** ** Clearing the data *)

(** X25: the data cannot be cleared during a run (a warning, and the data
    stay); otherwise they are cleared only when the operator confirms, and
    then energy, times and samples are empty whatever happens next; when
    the operator declines nothing changes but the dialog count. *)
Theorem confirm_reset_data_spec (env : Env) (st : App) :
  let r := confirm_reset_data env st in
  (running st = true ->
   fst r = Ok tt /\ data (snd r) = data st /\ sim (snd r) = sim st /\
   running (snd r) = true) /\
  (running st = false -> askyesno env (io_count st) = false ->
   r = (Ok tt, next_io st)) /\
  (running st = false -> askyesno env (io_count st) = true ->
   energy_discharged (snd r) = 0%Q /\ samples (snd r) = ([], [], [], []) /\
   start_time (snd r) = None /\ last_time (snd r) = None /\
   running (snd r) = false /\ command_log (snd r) = command_log st).
Proof.
  cbv zeta. unfold confirm_reset_data.
  change (bind get ?k env st) with (k st env st). cbv beta.
  split; [|split].
  - intros Hr. rewrite Hr. unfold_monad. norm. rewrite Hr. repeat split; reflexivity.
  - intros Hr Hn. rewrite Hr.
    change (bind (consult ?o) ?k env st)
      with (k (o env (io_count st)) env (next_io st)).
    cbv beta. rewrite Hn. reflexivity.
  - intros Hr Hy. rewrite Hr.
    change (bind (consult ?o) ?k env st)
      with (k (o env (io_count st)) env (next_io st)).
    cbv beta. rewrite Hy. unfold when.
    pose proof (reset_data_internal_frame env (next_io st)) as F.
    destruct (reset_data_internal env (next_io st)) as [[[]|e] s] eqn:E;
      [ rewrite (bind_ok _ _ _ _ _ _ E) | rewrite (bind_raise _ _ _ _ _ _ E) ];
      cbn [fst snd] in F |- *.
    all: pose proof (keep_data _ _ _ F) as D.
    all: pose proof (keep_stopped _ _ _ F Hr) as R.
    all: pose proof (frame_commands notice _ _ ltac:(solve_excl) F) as C.
    all: unfold messagebox, modify; cbn [fst snd].
    all: unfold energy_discharged, samples, start_time, last_time, data_x,
           data_voltage, data_current, data_power.
    all: change (data (push_event ?e s)) with (data s); rewrite D.
    all: repeat split; try reflexivity; try exact R; try exact C.
Qed.

Lemma confirm_reset_data_spec_witness :
  data (snd (confirm_reset_data env_socket_down
               (app_running default_config false [step_cc])))
    = data (app_running default_config false [step_cc]) /\
  samples (snd (confirm_reset_data (env_operator "kx123" true)
                  (snd (stop_discharge false (env_operator "kx123" true)
                          (app_running default_config true [step_cc])))))
    = ([], [], [], []).
Proof.
  split.
  - destruct (confirm_reset_data_spec env_socket_down
                (app_running default_config false [step_cc])) as (H & _).
    destruct (H eq_refl) as (_ & D & _). exact D.
  - destruct (confirm_reset_data_spec (env_operator "kx123" true)
                (snd (stop_discharge false (env_operator "kx123" true)
                        (app_running default_config true [step_cc]))))
      as (_ & _ & H).
    destruct H as (_ & S & _).
    + vm_compute. reflexivity.
    + reflexivity.
    + exact S.
Defined.

(** ** Closing the window *)

Lemma disconnect_instrument_ends env st s :
  disconnect_instrument env st = (Ok tt, s) ->
  connected s = false /\
  (test_mode st = false -> sock s = false) /\
  (running st = false -> running s = false).
Proof.
  pose proof (scpi_command_frame (INPut_STATe 0) env st) as F.
  pose proof (keep_stopped _ _ _ F) as R. clear F.
  unfold disconnect_instrument. unfold_monad. norm.
  destruct (c_test_mode (conn st)) eqn:Ht; norm;
    [intros [= <-]; norm; settle|].
  destruct (c_sock (conn st)) eqn:Hs; norm; [|intros [= <-]; norm; settle].
  destruct (c_connected (conn st)) eqn:Hc; norm;
    [|rewrite Hs; norm; intros [= <-]; norm; settle].
  destruct (scpi_command (INPut_STATe 0) env st) as [[b|e] s0] eqn:E;
    cbn [fst snd] in *; norm.
  - destruct (c_sock (conn s0)) eqn:Hs'; norm; intros [= <-]; norm; settle; auto.
  - destruct e; norm; intros H; try discriminate H.
    injection H as <-. norm. settle; auto.
Qed.

(** Uses the equations between results among the hypotheses. *)
Ltac pairs :=
  repeat match goal with
         | H : (_, _) = (_, _) |- _ => inversion H; clear H; subst
         end.

Lemma disconnect_instrument_frame env st :
  frame notice_or_command st (snd (disconnect_instrument env st)).
Proof. by_preserves. unfold disconnect_instrument. preserves_tac. Qed.

(** X26: [on_closing] returns without destroying the window only when a
    run is in progress and the operator declines to stop it, and then
    nothing has changed but the dialog count.  Whenever the window is
    destroyed no run is in progress any more and, in live mode, the
    instrument has been given up.  When stopping or disconnecting raises
    (the database cannot be opened while the session is closed, say) the
    window is not destroyed either, although the operator, if asked,
    agreed; the run has been stopped all the same. *)
Theorem on_closing_spec (env : Env) (st : App) :
  (running st = true -> askyesno env (io_count st) = false ->
   on_closing env st = (Ok false, next_io st)) /\
  (forall s, on_closing env st = (Ok true, s) ->
   running s = false /\
   (test_mode st = false -> connected s = false /\ sock s = false)) /\
  (forall s, on_closing env st = (Ok false, s) ->
   running st = true /\ askyesno env (io_count st) = false) /\
  (forall e s, on_closing env st = (Raise e, s) ->
   running s = false /\
   (running st = true -> askyesno env (io_count st) = true)).
Proof.
  pattern (on_closing env st).
  match goal with |- ?P _ => set (Q := P) end.
  unfold on_closing. run_top.
  destruct (running st) eqn:Hr.
  - run_top. change (w_io_count (world st)) with (io_count st).
    destruct (askyesno env (io_count st)) eqn:Hy.
    2:{ subst Q; cbv beta. unfold ret. settle; pairs; auto. }
    pose proof (stop_discharge_stops true env (next_io st)) as R1.
    pose proof (keep_test_mode _ _ _ (stop_discharge_frame true env (next_io st))) as T1.
    change (test_mode (next_io st)) with (test_mode st) in T1.
    destruct (stop_discharge true env (next_io st)) as [[[]|e] s1] eqn:E1;
      [ rewrite (bind_ok _ _ _ _ _ _ E1) | rewrite (bind_raise _ _ _ _ _ _ E1) ];
      cbn [snd] in R1, T1.
    2:{ subst Q; cbv beta. settle; pairs; auto. }
    run_top. rewrite T1.
    destruct (test_mode st) eqn:Ht; cbn [negb]; unfold when.
    { run_top. subst Q; cbv beta. unfold ret. settle; pairs; auto. }
    pose proof (keep_stopped _ _ _ (disconnect_instrument_frame env s1) R1) as R2'.
    destruct (disconnect_instrument env s1) as [[[]|e] s2] eqn:E2;
      [ rewrite (bind_ok _ _ _ _ _ _ E2) | rewrite (bind_raise _ _ _ _ _ _ E2) ];
      cbn [snd] in R2'.
    2:{ subst Q; cbv beta. settle; pairs; auto. }
    destruct (disconnect_instrument_ends _ _ _ E2) as (C2 & S2 & R2).
    subst Q; cbv beta. unfold ret. settle; pairs; auto.
  - destruct (test_mode st) eqn:Ht; cbn [negb]; unfold when.
    { run_top. subst Q; cbv beta. unfold ret. settle; pairs; auto. }
    pose proof (keep_stopped _ _ _ (disconnect_instrument_frame env st) Hr) as R2'.
    destruct (disconnect_instrument env st) as [[[]|e] s2] eqn:E2;
      [ rewrite (bind_ok _ _ _ _ _ _ E2) | rewrite (bind_raise _ _ _ _ _ _ E2) ];
      cbn [snd] in R2'.
    2:{ subst Q; cbv beta. settle; pairs; auto. }
    destruct (disconnect_instrument_ends _ _ _ E2) as (C2 & S2 & R2).
    subst Q; cbv beta. unfold ret. settle; pairs; auto.
Qed.

Lemma on_closing_spec_witness :
  let st := app_running default_config false [step_cc] in
  let env := env_operator "ok" true in
  (running (snd (on_closing env st)) = false /\
   connected (snd (on_closing env st)) = false /\
   sock (snd (on_closing env st)) = false) /\
  (fst (on_closing env_db_unreachable st) = Raise SqliteError /\
   running (snd (on_closing env_db_unreachable st)) = false).
Proof.
  intros st env.
  destruct (on_closing_spec env st) as (_ & H & _).
  destruct (on_closing_spec env_db_unreachable st) as (_ & _ & _ & H4).
  split.
  - destruct (H (snd (on_closing env st))) as (R & CS).
    + vm_compute. reflexivity.
    + destruct (CS eq_refl) as (C & S).
      split; [exact R|]. split; [exact C | exact S].
  - split; [vm_compute; reflexivity|].
    destruct (H4 SqliteError (snd (on_closing env_db_unreachable st))) as (R & _).
    + vm_compute. reflexivity.
    + exact R.
Defined.

(** ** The end of the profile *)














